(** * Nomad Cafes: denormalised rating and cafe-count maintenance

    A shallow embedding of the parts of the Django backend that keep
    [Cafe.rating_*] consistent with the cafe's reviews
    (backend/apps/cafes/models.py, backend/apps/reviews/models.py,
    backend/apps/reviews/api/{serializers,views}.py) and
    [Location.cafe_count] consistent with the location's active cafes
    (backend/apps/cafes/signals.py).

    Conventions of the embedding:
    - a table is a finite map from primary key to row; UUID keys are
      modelled by [positive] (a UUID is always truthy in Python, so the
      code's [if location_id:] tests are tests for [None]);
    - a Python object and the row it was loaded from are different things:
      [Cafe.t] and [Review.t] are objects, [CafeRow.t] and [ReviewRow.t]
      rows;
    - code that talks to the database is written in a state-and-exception
      monad over the database; the project does not enable
      ATOMIC_REQUESTS, so a statement that has executed stays executed
      when a later statement of the same request raises, unless both are
      in one [transaction.atomic] block ([Model.delete] opens one around
      the DELETE statements and the post_delete signal);
    - what Django's ORM does for a call ([save], [delete], [get],
      [filter(...).update], [aggregate], signal dispatch, constraint
      checks) is written out where the call appears;
    - the float that [Avg] returns is idealised as the exact rational
      [sum / count]; the value written to a [DecimalField(max_digits=3,
      decimal_places=2)] column is an integer number of hundredths. Where
      the exact mean lies halfway between two hundredths the float may be
      rounded to either of them, so the theorems about stored averages say
      that a column is within half a hundredth of the mean
      ([stores_rounded_means]) and never which of the two neighbours it
      is;
    - a Python [str] is the list of its code points, so [len] counts code
      points and [strip] removes the white space of Unicode.

    Left out: the users table, favourites, throttling, and the columns of
    cafes and reviews that neither the aggregation nor the counter reads
    (of a review's other fields only [text] is kept, for
    [validate_text]). *)

From Stdlib Require Import ZArith QArith Qabs Lia Ascii String.
From stdpp Require Import gmap list fin_maps strings.

Local Open Scope Z_scope.

(** ** Exceptions and the database monad *)

Inductive exn : Type :=
  | DoesNotExist       (* Model.DoesNotExist *)
  | DatabaseError      (* django.db.DatabaseError *)
  | IntegrityError     (* NOT NULL, FOREIGN KEY, UNIQUE or CHECK violated *)
  | InvalidOperation   (* decimal.InvalidOperation *)
  | ValidationError    (* rest_framework ValidationError, HTTP 400 *)
  | NotAuthenticated   (* rest_framework NotAuthenticated, HTTP 401 *)
  | PermissionDenied   (* HTTP 403 *)
  | Http404.

#[global] Instance exn_eq_dec : EqDecision exn.
Proof. solve_decision. Defined.

Inductive result (A : Type) : Type :=
  | Ok (a : A)
  | Raise (e : exn).
Arguments Ok {A} a.
Arguments Raise {A} e.

(** ** Decimal arithmetic of [DecimalField(max_digits=3, decimal_places=2)] *)

Module Decimal.

(** A [decimal.Decimal] value: [coefficient * 10 ^ exponent]. *)
Record t : Type := mk { coefficient : Z; exponent : Z }.

(** Nearest integer to [n / d] for [0 <= n], [0 < d]; ties go to the even
    neighbour (ROUND_HALF_EVEN, the rounding of a fresh
    [decimal.Context]). *)
Definition round_half_even (n d : Z) : Z :=
  let q := n / d in
  let r := n mod d in
  if 2 * r <? d then q
  else if d <? 2 * r then q + 1
  else if Z.even q then q else q + 1.

(** Scale [n / d] by powers of ten until [100 <= n / d < 1000], tracking
    the exponent: the window of the three leading digits. *)
Fixpoint normalize (fuel : nat) (n d e : Z) : Z * Z * Z :=
  match fuel with
  | O => (n, d, e)
  | S fuel' =>
      if n <? 100 * d then normalize fuel' (10 * n) d (e - 1)
      else if 1000 * d <=? n then normalize fuel' n (10 * d) (e + 1)
      else (n, d, e)
  end.

(** [Context(prec=3).create_decimal_from_float]: the value rounded to
    three significant digits. The coefficient is kept at three digits
    (Python drops trailing zeros of an exact conversion; the value is
    the same). *)
Definition create_decimal_from_float (q : Q) : t :=
  let n := Z.abs (Qnum q) in
  let d := Z.pos (Qden q) in
  if n =? 0 then mk 0 0
  else
    let fuel := (3 + Z.to_nat (Z.log2 n + Z.log2 d))%nat in
    let '(n', d', e) := normalize fuel n d 0 in
    let c := round_half_even n' d' in
    if c =? 1000 then mk (Z.sgn (Qnum q) * 100) (e + 1)
    else mk (Z.sgn (Qnum q) * c) e.

(** [value.quantize(Decimal("0.01"), context=Context(prec=3))] as done by
    [django.db.backends.utils.format_number]: the number of hundredths,
    or InvalidOperation when it needs more than three digits. (A backend
    that hands the [Decimal] to the database unquantized leaves this step
    to the NUMERIC(3, 2) column; for a value with three significant digits
    between 1 and 10 there is nothing left to round either way.) *)
Definition quantize (x : t) : result Z :=
  let c := coefficient x in
  let h :=
    if -2 <=? exponent x then c * 10 ^ (exponent x + 2)
    else Z.sgn c * round_half_even (Z.abs c) (10 ^ (- 2 - exponent x)) in
  if Z.abs h <? 1000 then Ok h else Raise InvalidOperation.

(** What [DecimalField.get_db_prep_save] sends to the database for the
    Python number [q]. *)
Definition get_db_prep_save (q : Q) : result Z :=
  quantize (create_decimal_from_float q).

(** The rational a stored number of hundredths stands for. *)
Definition to_Q (h : Z) : Q := (h # 100)%Q.

End Decimal.

(** ** Data model *)

(** A Python [str]: the list of its Unicode code points. *)
Definition str : Type := list N.

(** The [str] of a literal written in ASCII. *)
Definition literal (s : string) : str := N_of_ascii <$> list_ascii_of_string s.

(** A row of table [reviews] (backend/apps/reviews/models.py). *)
Module ReviewRow.
Record t : Type := mk {
  cafe_id : positive;
  user_id : positive;
  rating_overall : Z;
  rating_wifi : option Z;
  rating_power : option Z;
  rating_noise : option Z;
  rating_coffee : option Z;
  text : str;
  is_active : bool
}.

Definition set_is_active (b : bool) (r : t) : t :=
  mk (cafe_id r) (user_id r) (rating_overall r) (rating_wifi r)
     (rating_power r) (rating_noise r) (rating_coffee r) (text r) b.
End ReviewRow.

(** A row of table [cafes]: the columns the aggregation and the counter
    read or write. The five averages are numbers of hundredths. *)
Module CafeRow.
Record t : Type := mk {
  location_id : positive;
  is_active : bool;
  rating_avg : Z;
  rating_count : Z;
  rating_wifi : Z;
  rating_power : Z;
  rating_noise : Z;
  rating_coffee : Z
}.
End CafeRow.

(** A row of table [locations]: the denormalised counter. *)
Module LocationRow.
Record t : Type := mk { cafe_count : Z }.
End LocationRow.

(** A [Cafe] object in Python memory. [id] has a default ([uuid.uuid4]), so
    [pk] is always set. The rating attributes hold whatever Python number
    was assigned last. [_old_location_id] and [_old_is_active] are the
    attributes [cafe_pre_save] attaches. *)
Module Cafe.
Record t : Type := mk {
  pk : positive;
  location_id : option positive;
  is_active : bool;
  rating_avg : Q;
  rating_count : Z;
  rating_wifi : Q;
  rating_power : Q;
  rating_noise : Q;
  rating_coffee : Q;
  _old_location_id : option positive;
  _old_is_active : option bool
}.

Definition set_old (l : option positive) (a : option bool) (c : t) : t :=
  mk (pk c) (location_id c) (is_active c) (rating_avg c) (rating_count c)
     (rating_wifi c) (rating_power c) (rating_noise c) (rating_coffee c) l a.

Definition set_ratings (avg : Q) (n : Z) (wifi power noise coffee : Q)
    (c : t) : t :=
  mk (pk c) (location_id c) (is_active c) avg n wifi power noise coffee
     (_old_location_id c) (_old_is_active c).

Definition set_is_active (b : bool) (c : t) : t :=
  mk (pk c) (location_id c) b (rating_avg c) (rating_count c)
     (rating_wifi c) (rating_power c) (rating_noise c) (rating_coffee c)
     (_old_location_id c) (_old_is_active c).

Definition set_location_id (l : option positive) (c : t) : t :=
  mk (pk c) l (is_active c) (rating_avg c) (rating_count c)
     (rating_wifi c) (rating_power c) (rating_noise c) (rating_coffee c)
     (_old_location_id c) (_old_is_active c).

(** The object a query builds from a stored row. *)
Definition from_db (k : positive) (r : CafeRow.t) : t :=
  mk k (Some (CafeRow.location_id r)) (CafeRow.is_active r)
     (Decimal.to_Q (CafeRow.rating_avg r)) (CafeRow.rating_count r)
     (Decimal.to_Q (CafeRow.rating_wifi r))
     (Decimal.to_Q (CafeRow.rating_power r))
     (Decimal.to_Q (CafeRow.rating_noise r))
     (Decimal.to_Q (CafeRow.rating_coffee r))
     None None.

(** A new object, as [Cafe(location=l, is_active=a)] builds it: the
    rating fields take their default 0. *)
Definition new (k : positive) (l : option positive) (a : bool) : t :=
  mk k l a 0%Q 0 0%Q 0%Q 0%Q 0%Q None None.
End Cafe.

(** A [Review] object in Python memory: its key, its column values and the
    cached related [Cafe] object, if [review.cafe] has been set or
    fetched. The cache is the same Python object on every access, so what
    [update_rating_stats] does to it is seen by later accesses. *)
Module Review.
Record t : Type := mk {
  pk : positive;
  fields : ReviewRow.t;
  cafe : option Cafe.t
}.
End Review.

(** The database. *)
Record DB : Type := mkDB {
  cafes : gmap positive CafeRow.t;
  locations : gmap positive LocationRow.t;
  reviews : gmap positive ReviewRow.t
}.

Definition set_cafes (m : gmap positive CafeRow.t) (db : DB) : DB :=
  mkDB m (locations db) (reviews db).
Definition set_locations (m : gmap positive LocationRow.t) (db : DB) : DB :=
  mkDB (cafes db) m (reviews db).
Definition set_reviews (m : gmap positive ReviewRow.t) (db : DB) : DB :=
  mkDB (cafes db) (locations db) m.

(** ** The monad of database code *)

Definition M (A : Type) : Type := DB → result A * DB.

#[global] Instance M_ret : MRet M := λ A a db, (Ok a, db).
#[global] Instance M_bind : MBind M := λ A B f m db,
  match m db with
  | (Ok a, db') => f a db'
  | (Raise e, db') => (Raise e, db')
  end.

Definition raise {A : Type} (e : exn) : M A := λ db, (Raise e, db).
Definition get_db : M DB := λ db, (Ok db, db).
Definition put_db (db : DB) : M unit := λ _, (Ok tt, db).

(** [try: ... except e: ...] for one exception class. *)
Definition try_except {A : Type} (m : M A) (e : exn) (h : M A) : M A :=
  λ db, match m db with
        | (Raise e', db') => if decide (e' = e) then h db' else (Raise e', db')
        | r => r
        end.

(** [with transaction.atomic():] around a block: when the block raises,
    what it has written is rolled back. *)
Definition atomic {A : Type} (m : M A) : M A :=
  λ db, match m db with
        | (Raise e, _) => (Raise e, db)
        | r => r
        end.

(** A computation whose outcome is already known ([Decimal] conversions). *)
Definition lift {A : Type} (r : result A) : M A := λ db, (r, db).

(** ** Queries *)

(** [Cafe.objects.get(pk=k)]. *)
Definition Cafe_objects_get (k : positive) : M Cafe.t :=
  db ← get_db;
  match cafes db !! k with
  | Some r => mret (Cafe.from_db k r)
  | None => raise DoesNotExist
  end.

(** [cafe.reviews.filter(is_active=True)] for the cafe with key [k]. *)
Definition active_review (k : positive) (r : ReviewRow.t) : Prop :=
  ReviewRow.cafe_id r = k ∧ ReviewRow.is_active r = true.

#[global] Instance active_review_dec k r : Decision (active_review k r).
Proof. unfold active_review. apply _. Defined.

Definition active_reviews (k : positive) (db : DB) : list ReviewRow.t :=
  filter (active_review k) (map_to_list (reviews db)).*2.

Definition sum_Z (xs : list Z) : Z := foldr Z.add 0 xs.

(** SQL [AVG(col)]: NULLs are skipped; NULL when nothing is left. *)
Definition Avg (col : ReviewRow.t → option Z) (rows : list ReviewRow.t)
    : option Q :=
  match omap col rows with
  | [] => None
  | xs => Some (sum_Z xs # Pos.of_nat (length xs))%Q
  end.

(** SQL [COUNT(id)]. *)
Definition Count (rows : list ReviewRow.t) : Z := Z.of_nat (length rows).

(** Python [x or 0] for a number or [None]. *)
Definition or_0 (x : option Q) : Q :=
  match x with
  | Some q => if Qeq_bool q 0 then 0%Q else q
  | None => 0%Q
  end.

(** ** backend/apps/cafes/signals.py *)

(** [Location.objects.filter(id=location_id).update(cafe_count=F("cafe_count") + delta)].
    No row matches: nothing happens. [cafe_count] is a
    [PositiveIntegerField], whose CHECK constraint rejects a negative
    result. *)
Definition Location_filter_update_cafe_count (l : positive) (delta : Z)
    : M unit :=
  db ← get_db;
  match locations db !! l with
  | None => mret tt
  | Some r =>
      let n := LocationRow.cafe_count r + delta in
      if n <? 0 then raise IntegrityError
      else put_db (set_locations (<[l := LocationRow.mk n]> (locations db)) db)
  end.

Definition update_location_cafe_count (location_id : option positive)
    (delta : Z) : M unit :=
  match location_id with
  | Some l => Location_filter_update_cafe_count l delta
  | None => mret tt
  end.

(** [if instance.pk:] always holds (see [Cafe.t]); its [else] branch assigns
    the same two [None]s as the [except] branch. *)
Definition cafe_pre_save (instance : Cafe.t) : M Cafe.t :=
  try_except
    (old_instance ← Cafe_objects_get (Cafe.pk instance);
     mret (Cafe.set_old (Cafe.location_id old_instance)
                        (Some (Cafe.is_active old_instance)) instance))
    DoesNotExist
    (mret (Cafe.set_old None None instance)).

Definition cafe_post_save (instance : Cafe.t) (created : bool) : M unit :=
  if created then
    if Cafe.is_active instance then
      update_location_cafe_count (Cafe.location_id instance) 1
    else mret tt
  else
    let old_location_id := Cafe._old_location_id instance in
    let old_is_active := Cafe._old_is_active instance in
    if bool_decide (is_Some old_location_id)
       && negb (bool_decide (old_location_id = Cafe.location_id instance))
    then
      (if bool_decide (old_is_active = Some true)
       then update_location_cafe_count old_location_id (-1)
       else mret tt);;
      (if Cafe.is_active instance
       then update_location_cafe_count (Cafe.location_id instance) 1
       else mret tt)
    else if negb (bool_decide (old_is_active = Some (Cafe.is_active instance)))
    then
      let delta := if Cafe.is_active instance then 1 else -1 in
      update_location_cafe_count (Cafe.location_id instance) delta
    else mret tt.

Definition cafe_post_delete (instance : Cafe.t) : M unit :=
  if Cafe.is_active instance then
    update_location_cafe_count (Cafe.location_id instance) (-1)
  else mret tt.

(** ** backend/apps/cafes/models.py *)

(** The [update_fields] argument of [Cafe.save] at its call sites: absent,
    or the six rating fields. *)
Inductive cafe_update_fields : Type :=
  | all_fields
  | rating_fields.

(** The five averages as the database receives them: each goes through
    [DecimalField.get_db_prep_save] while the UPDATE or INSERT statement is
    built, before it is executed. *)
Definition rating_values (self : Cafe.t) : M (Z * Z * Z * Z * Z) :=
  avg ← lift (Decimal.get_db_prep_save (Cafe.rating_avg self));
  wifi ← lift (Decimal.get_db_prep_save (Cafe.rating_wifi self));
  power ← lift (Decimal.get_db_prep_save (Cafe.rating_power self));
  noise ← lift (Decimal.get_db_prep_save (Cafe.rating_noise self));
  coffee ← lift (Decimal.get_db_prep_save (Cafe.rating_coffee self));
  mret (avg, wifi, power, noise, coffee).

(** Writing row [r] under key [k]. [rating_count] is a
    [PositiveIntegerField]: its CHECK constraint rejects a negative value. *)
Definition write_cafe_row (k : positive) (r : CafeRow.t) : M unit :=
  if CafeRow.rating_count r <? 0 then raise IntegrityError
  else db ← get_db; put_db (set_cafes (<[k := r]> (cafes db)) db).

(** [django.db.models.Model.save] for a [Cafe]: the pre_save signal, the
    write, the post_save signal. With [update_fields] the write is an
    UPDATE of those columns and must hit a row; without, it is an UPDATE of
    every column or, when no row has the key, an INSERT. [location] is a
    non-null foreign key. Returns the object, which now carries the [_old]
    attributes. *)
Definition Model_save_Cafe (self : Cafe.t) (update_fields : cafe_update_fields)
    : M Cafe.t :=
  self ← cafe_pre_save self;
  '(avg, wifi, power, noise, coffee) ← rating_values self;
  db ← get_db;
  created ←
    match update_fields with
    | rating_fields =>
        match cafes db !! Cafe.pk self with
        | Some r =>
            write_cafe_row (Cafe.pk self)
              (CafeRow.mk (CafeRow.location_id r) (CafeRow.is_active r)
                 avg (Cafe.rating_count self) wifi power noise coffee);;
            mret false
        | None => raise DatabaseError
        end
    | all_fields =>
        match Cafe.location_id self with
        | None => raise IntegrityError
        | Some l =>
            if bool_decide (is_Some (locations db !! l)) then
              write_cafe_row (Cafe.pk self)
                (CafeRow.mk l (Cafe.is_active self)
                   avg (Cafe.rating_count self) wifi power noise coffee);;
              mret (bool_decide (cafes db !! Cafe.pk self = None))
            else raise IntegrityError
        end
    end;
  cafe_post_save self created;;
  mret self.

(** [Cafe.save]. The slug, category colour and timezone it fills in before
    calling [super().save] are columns outside this model. For a cafe
    without a timezone the code reads [self.location.timezone] first: the
    row it reads is there for every stored cafe (the foreign key), and for
    a new cafe whose location is missing the code raises
    [Location.DoesNotExist] at that read where this model raises
    [IntegrityError] at the INSERT, with the database unchanged in both
    cases. *)
Definition Cafe_save (self : Cafe.t) (update_fields : cafe_update_fields)
    : M Cafe.t :=
  Model_save_Cafe self update_fields.

(** [Cafe.delete] (inherited): reviews of the cafe go first
    ([on_delete=CASCADE]), then the row, then the post_delete signal, all
    in the atomic block that [Model.delete] opens. *)
Definition Cafe_delete (self : Cafe.t) : M unit :=
  atomic
    (db ← get_db;
     put_db (mkDB (delete (Cafe.pk self) (cafes db)) (locations db)
                  (filter (λ kr, ReviewRow.cafe_id kr.2 ≠ Cafe.pk self)
                          (reviews db)));;
     cafe_post_delete self).

Definition update_rating_stats (self : Cafe.t) : M Cafe.t :=
  db ← get_db;
  let rows := active_reviews (Cafe.pk self) db in
  let avg_overall := Avg (λ r, Some (ReviewRow.rating_overall r)) rows in
  let avg_wifi := Avg ReviewRow.rating_wifi rows in
  let avg_power := Avg ReviewRow.rating_power rows in
  let avg_noise := Avg ReviewRow.rating_noise rows in
  let avg_coffee := Avg ReviewRow.rating_coffee rows in
  let count := Count rows in
  let self :=
    Cafe.set_ratings (or_0 avg_overall) count (or_0 avg_wifi)
      (or_0 avg_power) (or_0 avg_noise) (or_0 avg_coffee) self in
  Cafe_save self rating_fields.

(** ** backend/apps/reviews/models.py *)

(** How [Model.save] is asked to write a [Review]: [force_insert=True]
    (from [Review.objects.create]), [update_fields=["is_active"]], or
    neither. *)
Inductive review_save_mode : Type :=
  | force_insert
  | update_is_active
  | plain_save.

(** Another row already holds the pair of [unique_together]. *)
Definition unique_together_taken (k : positive) (r : ReviewRow.t)
    (m : gmap positive ReviewRow.t) : Prop :=
  map_Exists (λ k' r', k' ≠ k ∧ ReviewRow.cafe_id r' = ReviewRow.cafe_id r
                       ∧ ReviewRow.user_id r' = ReviewRow.user_id r) m.

#[global] Instance unique_together_taken_dec k r m :
  Decision (unique_together_taken k r m).
Proof. unfold unique_together_taken. apply _. Defined.

(** The CHECK constraints of the five [PositiveSmallIntegerField]s. *)
Definition ratings_nonnegative (r : ReviewRow.t) : bool :=
  (0 <=? ReviewRow.rating_overall r)
  && forallb (λ x, match x with Some v => 0 <=? v | None => true end)
       [ReviewRow.rating_wifi r; ReviewRow.rating_power r;
        ReviewRow.rating_noise r; ReviewRow.rating_coffee r].

(** INSERT or full UPDATE of a review row: the cafe must exist (foreign
    key; the users table is outside this model), the pair (cafe, user) must
    be free, the ratings must pass their CHECKs. *)
Definition write_review_row (k : positive) (r : ReviewRow.t) : M unit :=
  db ← get_db;
  if bool_decide (cafes db !! ReviewRow.cafe_id r = None) then
    raise IntegrityError
  else if bool_decide (unique_together_taken k r (reviews db)) then
    raise IntegrityError
  else if negb (ratings_nonnegative r) then raise IntegrityError
  else put_db (set_reviews (<[k := r]> (reviews db)) db).

(** [django.db.models.Model.save] for a [Review]. *)
Definition Model_save_Review (self : Review.t) (mode : review_save_mode)
    : M unit :=
  db ← get_db;
  let k := Review.pk self in
  match mode with
  | force_insert =>
      if bool_decide (is_Some (reviews db !! k)) then raise IntegrityError
      else write_review_row k (Review.fields self)
  | update_is_active =>
      match reviews db !! k with
      | Some r =>
          put_db (set_reviews
                    (<[k := ReviewRow.set_is_active
                              (ReviewRow.is_active (Review.fields self)) r]>
                       (reviews db)) db)
      | None => raise DatabaseError
      end
  | plain_save => write_review_row k (Review.fields self)
  end.

(** Reading [review.cafe]: the cached object, or a query that fills the
    cache. *)
Definition Review_get_cafe (self : Review.t) : M Cafe.t :=
  match Review.cafe self with
  | Some c => mret c
  | None => Cafe_objects_get (ReviewRow.cafe_id (Review.fields self))
  end.

(** [self.cafe.update_rating_stats()], the statement that ends
    [Review.save]. The object it returns has the recomputed cafe cached. *)
Definition Review_update_cafe (self : Review.t) : M Review.t :=
  cafe ← Review_get_cafe self;
  cafe ← update_rating_stats cafe;
  mret (Review.mk (Review.pk self) (Review.fields self) (Some cafe)).

Definition Review_save (self : Review.t) (mode : review_save_mode)
    : M Review.t :=
  Model_save_Review self mode;;
  Review_update_cafe self.

(** [Review.save] when another request's statements [other] run between
    its write and its recompute; the project runs each statement in its
    own transaction, so nothing prevents it. *)
Definition Review_save_interleaved (self : Review.t) (mode : review_save_mode)
    (other : M unit) : M Review.t :=
  Model_save_Review self mode;;
  other;;
  Review_update_cafe self.

Definition Review_delete (self : Review.t) : M unit :=
  cafe ← Review_get_cafe self;
  db ← get_db;
  put_db (set_reviews (delete (Review.pk self) (reviews db)) db);;
  update_rating_stats cafe;;
  mret tt.

(** ** backend/apps/reviews/api/serializers.py *)

(** The body of a create request, parsed; [None] is an absent or null
    field, and an absent [text] is the empty text (both are refused). *)
Module ReviewData.
Record t : Type := mk {
  rating_overall : option Z;
  rating_wifi : option Z;
  rating_power : option Z;
  rating_noise : option Z;
  rating_coffee : option Z;
  text : str
}.
End ReviewData.

(** A request's user. *)
Module User.
Record t : Type := mk { id : positive; is_admin : bool }.
End User.

(** Python [str.strip] and [len]. White space is what [str.strip]
    removes: the code points U+0009-000D, U+001C-0020, U+0085, U+00A0,
    U+1680, U+2000-200A, U+2028, U+2029, U+202F, U+205F and U+3000. [len]
    counts code points. *)
Definition is_space (c : N) : bool :=
  (((9 <=? c) && (c <=? 13)) || ((28 <=? c) && (c <=? 32))
   || (c =? 133) || (c =? 160) || (c =? 5760)
   || ((8192 <=? c) && (c <=? 8202))
   || (c =? 8232) || (c =? 8233) || (c =? 8239) || (c =? 8287)
   || (c =? 12288))%N.

Fixpoint lstrip (s : str) : str :=
  match s with
  | a :: s' => if is_space a then lstrip s' else s
  | [] => []
  end.

Definition strip (s : str) : str := rev (lstrip (rev (lstrip s))).

Definition len (s : str) : Z := Z.of_nat (length s).

Definition validate_rating_overall (value : Z) : result Z :=
  if negb ((1 <=? value) && (value <=? 5)) then Raise ValidationError
  else Ok value.

Definition validate_text (value : str) : result str :=
  if len (strip value) <? 10 then Raise ValidationError
  else Ok (strip value).

(** What the [CharField] that a serializer builds for [text] (a
    [TextField(max_length=2000)]) does before the serializer's
    [validate_text] is called: it strips the input, and refuses an empty
    text, a text of more than 2000 characters and a NUL character. *)
Definition text_field (data : str) : result str :=
  let value := strip data in
  if (len value =? 0) || (2000 <? len value) || bool_decide (0%N ∈ value)
  then Raise ValidationError
  else Ok value.

(** Validation of [text]: the field, then [validate_text]. *)
Definition validate_text_field (data : str) : result str :=
  match text_field data with
  | Ok value => validate_text value
  | Raise e => Raise e
  end.

(** The validators the model declares on an optional rating
    ([MinValueValidator(1)], [MaxValueValidator(5)]). *)
Definition validate_optional_rating (value : option Z) : result (option Z) :=
  match value with
  | Some v => if (1 <=? v) && (v <=? 5) then Ok value else Raise ValidationError
  | None => Ok None
  end.

(** What field-level validation hands on: [validated_data]. *)
Module ValidatedData.
Record t : Type := mk {
  rating_overall : Z;
  rating_wifi : option Z;
  rating_power : option Z;
  rating_noise : option Z;
  rating_coffee : option Z;
  text : str
}.
End ValidatedData.

(** Field-level validation of [ReviewCreateSerializer]: [rating_overall] is
    required; every field is tried and one ValidationError reports all
    failures. The fields [language] and [photos], which never reach the
    ratings or the counters, are outside this model: a request is a
    request that leaves them out. *)
Definition validate_fields (d : ReviewData.t) : result ValidatedData.t :=
  match ReviewData.rating_overall d with
  | None => Raise ValidationError
  | Some v =>
      match validate_rating_overall v,
            validate_optional_rating (ReviewData.rating_wifi d),
            validate_optional_rating (ReviewData.rating_power d),
            validate_optional_rating (ReviewData.rating_noise d),
            validate_optional_rating (ReviewData.rating_coffee d),
            validate_text_field (ReviewData.text d) with
      | Ok o, Ok w, Ok p, Ok n, Ok c, Ok t => Ok (ValidatedData.mk o w p n c t)
      | _, _, _, _, _, _ => Raise ValidationError
      end
  end.

(** [Review.objects.filter(user=user, cafe=cafe).exists()]. *)
Definition Review_exists (user cafe : positive) (db : DB) : bool :=
  bool_decide (map_Exists (λ _ r, ReviewRow.user_id r = user
                                  ∧ ReviewRow.cafe_id r = cafe) (reviews db)).

(** [ReviewCreateSerializer.validate]. *)
Definition ReviewCreateSerializer_validate (user : User.t) (cafe : Cafe.t)
    (attrs : ValidatedData.t) : M ValidatedData.t :=
  db ← get_db;
  if Review_exists (User.id user) (Cafe.pk cafe) db then raise ValidationError
  else mret attrs.

(** [serializer.is_valid(raise_exception=True)]. *)
Definition ReviewCreateSerializer_is_valid (user : User.t) (cafe : Cafe.t)
    (data : ReviewData.t) : M ValidatedData.t :=
  attrs ← lift (validate_fields data);
  ReviewCreateSerializer_validate user cafe attrs.

(** [ReviewCreateSerializer.create]: [Review.objects.create] builds the
    object, whose key [id] is the fresh [uuid.uuid4()], and saves it with
    [force_insert=True]. *)
Definition ReviewCreateSerializer_create (id : positive) (user : User.t)
    (cafe : Cafe.t) (validated_data : ValidatedData.t) : M Review.t :=
  let row :=
    ReviewRow.mk (Cafe.pk cafe) (User.id user)
      (ValidatedData.rating_overall validated_data)
      (ValidatedData.rating_wifi validated_data)
      (ValidatedData.rating_power validated_data)
      (ValidatedData.rating_noise validated_data)
      (ValidatedData.rating_coffee validated_data)
      (ValidatedData.text validated_data)
      true in
  Review_save (Review.mk id row (Some cafe)) force_insert.

(** ** backend/apps/reviews/api/views.py and backend/apps/users/api/permissions.py *)

(** [get_object_or_404(Cafe, slug=cafe_slug, is_active=True)]. [slug] is a
    unique column; the slug in the URL is modelled by the key of the row
    that carries it. *)
Definition get_cafe (cafe_slug : positive) : M Cafe.t :=
  db ← get_db;
  match cafes db !! cafe_slug with
  | Some r =>
      if CafeRow.is_active r then mret (Cafe.from_db cafe_slug r)
      else raise Http404
  | None => raise Http404
  end.

(** [IsAuthenticated], and [IsOwnerOrAdmin.has_permission]. *)
Definition check_authenticated (user : option User.t) : M User.t :=
  match user with
  | Some u => mret u
  | None => raise NotAuthenticated
  end.

Definition has_object_permission (user : User.t) (obj : ReviewRow.t) : bool :=
  if User.is_admin user then true
  else bool_decide (ReviewRow.user_id obj = User.id user).

(** [self.get_object()]: the review with key [pk] among the active reviews
    of the cafe, then the object-level permission check. *)
Definition get_object (user : User.t) (cafe_slug pk : positive) : M Review.t :=
  cafe ← get_cafe cafe_slug;
  db ← get_db;
  match reviews db !! pk with
  | Some r =>
      if bool_decide (active_review (Cafe.pk cafe) r) then
        if has_object_permission user r then mret (Review.mk pk r None)
        else raise PermissionDenied
      else raise Http404
  | None => raise Http404
  end.

(** [CafeReviewViewSet.create]; [id] is the key the new row will get. *)
Definition CafeReviewViewSet_create (id : positive) (user : option User.t)
    (cafe_slug : positive) (data : ReviewData.t) : M Review.t :=
  user ← check_authenticated user;
  cafe ← get_cafe cafe_slug;
  validated_data ← ReviewCreateSerializer_is_valid user cafe data;
  ReviewCreateSerializer_create id user cafe validated_data.

(** [CafeReviewViewSet.destroy]. *)
Definition CafeReviewViewSet_destroy (user : option User.t)
    (cafe_slug pk : positive) : M unit :=
  user ← check_authenticated user;
  instance ← get_object user cafe_slug pk;
  let instance :=
    Review.mk (Review.pk instance)
      (ReviewRow.set_is_active false (Review.fields instance))
      (Review.cafe instance) in
  instance ← Review_save instance update_is_active;
  cafe ← Review_get_cafe instance;
  update_rating_stats cafe;;
  mret tt.

(** ** backend/apps/reviews/api/views.py: the querysets behind the lists *)

(** [CafeReviewViewSet.get_queryset]: the active reviews of the active cafe
    behind the slug. The rows are given as a finite map; the order
    ([-created_at]) is not modelled. *)
Definition CafeReviewViewSet_get_queryset (cafe_slug : positive)
    : M (gmap positive ReviewRow.t) :=
  cafe ← get_cafe cafe_slug;
  db ← get_db;
  mret (filter (λ kr, active_review (Cafe.pk cafe) kr.2) (reviews db)).

(** [UserReviewViewSet.get_queryset] behind [IsAuthenticated]: the
    requesting user's active reviews. *)
Definition own_active_review (user : positive) (kr : positive * ReviewRow.t)
    : Prop :=
  ReviewRow.user_id kr.2 = user ∧ ReviewRow.is_active kr.2 = true.

#[global] Instance own_active_review_dec u kr : Decision (own_active_review u kr).
Proof. unfold own_active_review. apply _. Defined.

Definition UserReviewViewSet_get_queryset (user : option User.t)
    : M (gmap positive ReviewRow.t) :=
  user ← check_authenticated user;
  db ← get_db;
  mret (filter (own_active_review (User.id user)) (reviews db)).

(** ** backend/apps/reviews/api/serializers.py: [ReviewUpdateSerializer] *)

(** The body of an edit request, parsed. For each field: absent ([None]) or
    present; a present optional rating may be null. *)
Module ReviewPatch.
Record t : Type := mk {
  rating_overall : option Z;
  rating_wifi : option (option Z);
  rating_power : option (option Z);
  rating_noise : option (option Z);
  rating_coffee : option (option Z);
  text : option str
}.
End ReviewPatch.

(** Validation of one field that may be absent. *)
Definition validate_if_present {A B : Type} (validate : A → result B)
    (x : option A) : result (option B) :=
  match x with
  | Some a => match validate a with Ok b => Ok (Some b) | Raise e => Raise e end
  | None => Ok None
  end.

(** Field-level validation of [ReviewUpdateSerializer]. With [partial]
    (PATCH) only the fields present are validated; without (PUT)
    [rating_overall] and [text] are required. The result is
    [validated_data]: the fields to assign. As for a create request, the
    fields [language] and [photos] are outside this model. *)
Definition validate_patch (partial : bool) (d : ReviewPatch.t)
    : result ReviewPatch.t :=
  if negb partial
     && (negb (bool_decide (is_Some (ReviewPatch.rating_overall d)))
         || negb (bool_decide (is_Some (ReviewPatch.text d))))
  then Raise ValidationError
  else
    match validate_if_present validate_rating_overall
            (ReviewPatch.rating_overall d),
          validate_if_present validate_optional_rating (ReviewPatch.rating_wifi d),
          validate_if_present validate_optional_rating (ReviewPatch.rating_power d),
          validate_if_present validate_optional_rating (ReviewPatch.rating_noise d),
          validate_if_present validate_optional_rating (ReviewPatch.rating_coffee d),
          validate_if_present validate_text_field (ReviewPatch.text d) with
    | Ok o, Ok w, Ok p, Ok n, Ok c, Ok t => Ok (ReviewPatch.mk o w p n c t)
    | _, _, _, _, _, _ => Raise ValidationError
    end.

(** [ModelSerializer.update]: [setattr] for every validated field. *)
Definition apply_patch (v : ReviewPatch.t) (r : ReviewRow.t) : ReviewRow.t :=
  ReviewRow.mk (ReviewRow.cafe_id r) (ReviewRow.user_id r)
    (default (ReviewRow.rating_overall r) (ReviewPatch.rating_overall v))
    (default (ReviewRow.rating_wifi r) (ReviewPatch.rating_wifi v))
    (default (ReviewRow.rating_power r) (ReviewPatch.rating_power v))
    (default (ReviewRow.rating_noise r) (ReviewPatch.rating_noise v))
    (default (ReviewRow.rating_coffee r) (ReviewPatch.rating_coffee v))
    (default (ReviewRow.text r) (ReviewPatch.text v))
    (ReviewRow.is_active r).

(** [CafeReviewViewSet.update] and [partial_update] (inherited): the
    permissions of [get_permissions], [get_object], validation by
    [ReviewUpdateSerializer], then [instance.save()]. Of the two only
    [partial_update] (PATCH, [partial = true]) has a route in
    cafes/api/urls.py. *)
Definition CafeReviewViewSet_update (partial : bool) (user : option User.t)
    (cafe_slug pk : positive) (data : ReviewPatch.t) : M Review.t :=
  user ← check_authenticated user;
  instance ← get_object user cafe_slug pk;
  validated_data ← lift (validate_patch partial data);
  let instance :=
    Review.mk (Review.pk instance)
      (apply_patch validated_data (Review.fields instance))
      (Review.cafe instance) in
  Review_save instance plain_save.

(** ** backend/apps/reviews/admin.py and backend/apps/cafes/admin.py *)

(** The queryset an admin action receives: the WHERE clause over key and
    row (the selected keys and the filters of the change list). It is not
    evaluated until it is used, and evaluated again at each use. *)
Definition queryset (A : Type) : Type := positive → A → bool.

Definition queryset_rows {A : Type} (qs : queryset A) (m : gmap positive A)
    : list (positive * A) :=
  filter (λ kr, qs kr.1 kr.2 = true) (map_to_list m).

(** [queryset.update(is_active=b)] on reviews: one UPDATE statement;
    returns the number of rows matched. *)
Definition queryset_update_is_active (qs : queryset ReviewRow.t) (b : bool)
    : M Z :=
  db ← get_db;
  put_db (set_reviews
            (map_imap (λ k r, Some (if qs k r then ReviewRow.set_is_active b r
                                    else r)) (reviews db)) db);;
  mret (Z.of_nat (length (queryset_rows qs (reviews db)))).

(** A Python [for] loop over a list already fetched. *)
Fixpoint for_each {A : Type} (body : A → M unit) (l : list A) : M unit :=
  match l with
  | [] => mret tt
  | x :: l' => body x;; for_each body l'
  end.

(** [review.cafe.update_rating_stats()] for a review taken from a queryset:
    the cafe object is fetched when [review.cafe] is read. *)
Definition recompute_cafe_of (kr : positive * ReviewRow.t) : M unit :=
  cafe ← Cafe_objects_get (ReviewRow.cafe_id kr.2);
  update_rating_stats cafe;;
  mret tt.

(** [ReviewAdmin.activate_reviews] and [deactivate_reviews]: the UPDATE,
    then a loop over the queryset, which is evaluated after the UPDATE.
    The value is the [count] of the message. *)
Definition set_reviews_active (b : bool) (qs : queryset ReviewRow.t) : M Z :=
  count ← queryset_update_is_active qs b;
  db ← get_db;
  for_each recompute_cafe_of (queryset_rows qs (reviews db));;
  mret count.

Definition activate_reviews : queryset ReviewRow.t → M Z :=
  set_reviews_active true.

Definition deactivate_reviews : queryset ReviewRow.t → M Z :=
  set_reviews_active false.

(** [CafeAdmin.recalculate_ratings]: the loop runs over the cafe objects
    the queryset yields when the loop starts. The value is the
    [queryset.count()] of the message: after the loop has evaluated the
    queryset, [count] is the length of the rows it has fetched. *)
Definition recalculate_ratings (qs : queryset CafeRow.t) : M Z :=
  db ← get_db;
  let rows := queryset_rows qs (cafes db) in
  for_each (λ kr, update_rating_stats (Cafe.from_db kr.1 kr.2);; mret tt) rows;;
  mret (Z.of_nat (length rows)).

(** ** backend/apps/locations/api/filters.py and backend/apps/cafes/api/views.py:
       readers of the denormalised columns *)

(** [LocationFilter.filter_has_cafes]. *)
Definition filter_has_cafes (queryset : gmap positive LocationRow.t)
    (value : bool) : gmap positive LocationRow.t :=
  if value then filter (λ kl, 0 < LocationRow.cafe_count kl.2) queryset
  else queryset.

(** [CafeViewSet.popular]: the queryset
    [self.get_queryset().filter(rating_count__gte=1)] of a request without
    a search parameter, before [order_by] and the slice that pick the
    response out of it. *)
Definition popular_queryset (db : DB) : gmap positive CafeRow.t :=
  filter (λ kc, 1 ≤ CafeRow.rating_count kc.2)
    (filter (λ kc, CafeRow.is_active kc.2 = true) (cafes db)).

(** * Specification vocabulary *)

(** The arithmetic mean of a list of ratings, 0 for the empty list. *)
Definition mean (xs : list Z) : Q :=
  match xs with
  | [] => 0%Q
  | _ => (inject_Z (sum_Z xs) / inject_Z (Z.of_nat (length xs)))%Q
  end.

(** The values of one rating dimension over the reviews that set it. *)
Definition ratings_set (col : ReviewRow.t → option Z)
    (rows : list ReviewRow.t) : list Z :=
  omap col rows.

Definition overall (r : ReviewRow.t) : option Z :=
  Some (ReviewRow.rating_overall r).

(** A rating on the 1-5 scale, as the validators of [Review] demand. *)
Definition valid_rating (v : Z) : Prop := 1 ≤ v ≤ 5.

Definition valid_optional_rating (x : option Z) : Prop :=
  match x with Some v => valid_rating v | None => True end.

Definition valid_review (r : ReviewRow.t) : Prop :=
  valid_rating (ReviewRow.rating_overall r)
  ∧ valid_optional_rating (ReviewRow.rating_wifi r)
  ∧ valid_optional_rating (ReviewRow.rating_power r)
  ∧ valid_optional_rating (ReviewRow.rating_noise r)
  ∧ valid_optional_rating (ReviewRow.rating_coffee r).

(** The number of hundredths nearest to the mean of [xs] (ties to even), 0
    for the empty list. *)
Definition mean_hundredths (xs : list Z) : Z :=
  match xs with
  | [] => 0
  | _ => Decimal.round_half_even (100 * sum_Z xs) (Z.of_nat (length xs))
  end.

(** The Python object agrees with the stored row on the two columns the
    counter signals compare: it was loaded from the row and neither
    attribute has been reassigned since. *)
Definition in_sync (self : Cafe.t) (db : DB) : Prop :=
  ∃ row, cafes db !! Cafe.pk self = Some row
         ∧ Cafe.location_id self = Some (CafeRow.location_id row)
         ∧ Cafe.is_active self = CafeRow.is_active row.

(** What [update_rating_stats] assigns to the object's six attributes. *)
Definition with_stats (rows : list ReviewRow.t) (self : Cafe.t) : Cafe.t :=
  Cafe.set_ratings
    (or_0 (Avg (λ r, Some (ReviewRow.rating_overall r)) rows))
    (Count rows)
    (or_0 (Avg ReviewRow.rating_wifi rows))
    (or_0 (Avg ReviewRow.rating_power rows))
    (or_0 (Avg ReviewRow.rating_noise rows))
    (or_0 (Avg ReviewRow.rating_coffee rows)) self.

(** A cafe row with its six rating columns replaced. *)
Definition with_ratings (v : Z * Z * Z * Z * Z) (count : Z) (r : CafeRow.t)
    : CafeRow.t :=
  let '(avg, wifi, power, noise, coffee) := v in
  CafeRow.mk (CafeRow.location_id r) (CafeRow.is_active r)
    avg count wifi power noise coffee.

(** [h] hundredths is [m] rounded to two decimal places: no number of
    hundredths is nearer, and [m] itself when it has two decimals. *)
Definition rounded_to_hundredths (h : Z) (m : Q) : Prop :=
  (Qabs (Decimal.to_Q h - m) <= 1 # 200)%Q
  ∧ ∀ h', (m == Decimal.to_Q h')%Q → h = h'.

(** The five average columns hold the means rounded to two decimals, the
    count column the count. *)
Definition stores_rounded_means (rows : list ReviewRow.t) (r : CafeRow.t)
    : Prop :=
  rounded_to_hundredths (CafeRow.rating_avg r) (mean (ratings_set overall rows))
  ∧ rounded_to_hundredths (CafeRow.rating_wifi r)
      (mean (ratings_set ReviewRow.rating_wifi rows))
  ∧ rounded_to_hundredths (CafeRow.rating_power r)
      (mean (ratings_set ReviewRow.rating_power rows))
  ∧ rounded_to_hundredths (CafeRow.rating_noise r)
      (mean (ratings_set ReviewRow.rating_noise rows))
  ∧ rounded_to_hundredths (CafeRow.rating_coffee r)
      (mean (ratings_set ReviewRow.rating_coffee rows))
  ∧ CafeRow.rating_count r = Z.of_nat (length rows).

(** The row [update_rating_stats] writes when every active review is on the
    1-5 scale. *)
Definition recomputed_row (rows : list ReviewRow.t) (r : CafeRow.t)
    : CafeRow.t :=
  CafeRow.mk (CafeRow.location_id r) (CafeRow.is_active r)
    (mean_hundredths (ratings_set overall rows))
    (Count rows)
    (mean_hundredths (ratings_set ReviewRow.rating_wifi rows))
    (mean_hundredths (ratings_set ReviewRow.rating_power rows))
    (mean_hundredths (ratings_set ReviewRow.rating_noise rows))
    (mean_hundredths (ratings_set ReviewRow.rating_coffee rows)).

(** ** Example data: one location, one cafe, three reviewers *)

Definition review_5_5 : ReviewRow.t :=
  ReviewRow.mk 7 1 5 (Some 5) None None None (literal "Great wifi, great coffee") true.
Definition review_4_4 : ReviewRow.t :=
  ReviewRow.mk 7 2 4 (Some 4) None None None (literal "Good place to work from") true.
Definition review_2 : ReviewRow.t :=
  ReviewRow.mk 7 3 2 None None None None (literal "Too loud for my taste") true.

Definition example_cafe_row : CafeRow.t := CafeRow.mk 1 true 0 0 0 0 0 0.

(** The cafe as [Cafe.objects.get] returns it. *)
Definition example_cafe : Cafe.t := Cafe.from_db 7 example_cafe_row.

Definition example_db : DB :=
  mkDB {[ 7%positive := example_cafe_row ]}
       {[ 1%positive := LocationRow.mk 1 ]}
       (<[ 11%positive := review_5_5 ]>
          (<[ 12%positive := review_4_4 ]> {[ 13%positive := review_2 ]})).

(** ** Vocabulary of the location counter *)

(** The cafes that location [l] is meant to count: active, and located
    there. *)
Definition counted_at (l : positive) (kr : positive * CafeRow.t) : Prop :=
  CafeRow.is_active kr.2 = true ∧ CafeRow.location_id kr.2 = l.

#[global] Instance counted_at_dec l kr : Decision (counted_at l kr).
Proof. unfold counted_at. apply _. Defined.

Definition active_cafes_at (l : positive) (db : DB) : Z :=
  Z.of_nat (size (filter (counted_at l) (cafes db))).

(** [Location.objects.get(pk=l).cafe_count], if the location exists. *)
Definition cafe_count_of (l : positive) (db : DB) : option Z :=
  LocationRow.cafe_count <$> locations db !! l.

(** The invariant of [Location.cafe_count]. *)
Definition counts_consistent (db : DB) : Prop :=
  ∀ l n, cafe_count_of l db = Some n → n = active_cafes_at l db.

(** 1 when a cafe at [loc] with activity [act] counts for location [l]. *)
Definition counts_for (l : positive) (loc : option positive) (act : bool) : Z :=
  if act && bool_decide (loc = Some l) then 1 else 0.

(** 1 when the row counts for location [l]. *)
Definition indicator (l : positive) (kr : positive * CafeRow.t) : Z :=
  if decide (counted_at l kr) then 1 else 0.

(** The database after [update_location_cafe_count(location_id, delta)]
    has gone through. *)
Definition adjusted (location_id : option positive) (delta : Z) (db : DB)
    : DB :=
  match location_id with
  | Some l =>
      match locations db !! l with
      | Some r =>
          set_locations
            (<[l := LocationRow.mk (LocationRow.cafe_count r + delta)]>
               (locations db)) db
      | None => db
      end
  | None => db
  end.

(** 1 when the row a write replaces, if there is one, counted for [l]. *)
Definition old_counts_for (l : positive) (old : option CafeRow.t) : Z :=
  match old with
  | Some r => counts_for l (Some (CafeRow.location_id r)) (CafeRow.is_active r)
  | None => 0
  end.

(** The mutations of a cafe: [save()] of a cafe object, whatever its
    attributes (a creation when the key is new; an activation, a
    deactivation, a move or several at once when it is not), and
    [delete()] of an object that agrees with its row. *)
Inductive cafe_mutation (db : DB) : DB → Prop :=
  | mutation_save (self : Cafe.t) (r : result Cafe.t) (db' : DB) :
      Cafe_save self all_fields db = (r, db') → cafe_mutation db db'
  | mutation_delete (self : Cafe.t) (r : result unit) (db' : DB) :
      in_sync self db → Cafe_delete self db = (r, db') → cafe_mutation db db'.

(** The five mutations as the tests perform them. *)
Definition Cafe_objects_create (k l : positive) (is_active : bool) : M Cafe.t :=
  Cafe_save (Cafe.new k (Some l) is_active) all_fields.

Definition deactivate (cafe : Cafe.t) : M Cafe.t :=
  Cafe_save (Cafe.set_is_active false cafe) all_fields.

Definition activate (cafe : Cafe.t) : M Cafe.t :=
  Cafe_save (Cafe.set_is_active true cafe) all_fields.

Definition move (l : positive) (cafe : Cafe.t) : M Cafe.t :=
  Cafe_save (Cafe.set_location_id (Some l) cafe) all_fields.

(** The scenario of the counter tests at location [l], with [k] the key of
    the new cafe: create it active, deactivate it, reactivate it, delete
    it; the counter reads 1, 0, 1, 0. *)
Definition counter_scenario (l k : positive) (db : DB) : Prop :=
  ∃ c1 db1 c2 db2 c3 db3 db4,
    Cafe_objects_create k l true db = (Ok c1, db1)
    ∧ cafe_count_of l db1 = Some 1
    ∧ deactivate c1 db1 = (Ok c2, db2)
    ∧ cafe_count_of l db2 = Some 0
    ∧ activate c2 db2 = (Ok c3, db3)
    ∧ cafe_count_of l db3 = Some 1
    ∧ Cafe_delete c3 db3 = (Ok tt, db4)
    ∧ cafe_count_of l db4 = Some 0.

(** The first reviewer's review object, with the cafe object cached. *)
Definition example_review : Review.t :=
  Review.mk 11 review_5_5 (Some example_cafe).


(** ** Vocabulary of the review rules *)

(** At most one review row per (user, cafe) pair. *)
Definition unique_pairs (db : DB) : Prop :=
  ∀ k1 k2 r1 r2,
    reviews db !! k1 = Some r1 → reviews db !! k2 = Some r2 →
    ReviewRow.user_id r1 = ReviewRow.user_id r2 →
    ReviewRow.cafe_id r1 = ReviewRow.cafe_id r2 →
    k1 = k2.

(** The request is turned down by [serializer.is_valid], the step before
    [serializer.save]; nothing has been written and
    [update_rating_stats] has not been reached. *)
Definition rejected_by_validation (user : User.t) (cafe_slug : positive)
    (data : ReviewData.t) (db : DB) : Prop :=
  ∃ cafe,
    get_cafe cafe_slug db = (Ok cafe, db)
    ∧ ReviewCreateSerializer_is_valid user cafe data db
      = (Raise ValidationError, db).

(** The review [r] with key [pk] is the only active review of cafe [k]. *)
Definition only_active_review (k pk : positive) (r : ReviewRow.t) (db : DB)
    : Prop :=
  reviews db !! pk = Some r
  ∧ active_review k r
  ∧ ∀ pk' r', reviews db !! pk' = Some r' → active_review k r' → pk' = pk.

(** All five averages and the count are 0. *)
Definition ratings_all_zero (r : CafeRow.t) : Prop :=
  CafeRow.rating_avg r = 0 ∧ CafeRow.rating_wifi r = 0
  ∧ CafeRow.rating_power r = 0 ∧ CafeRow.rating_noise r = 0
  ∧ CafeRow.rating_coffee r = 0 ∧ CafeRow.rating_count r = 0.

(** The first reviewer and the body of a create request. *)
Definition example_user : User.t := User.mk 1 false.

Definition example_data : ReviewData.t :=
  ReviewData.mk (Some 5) (Some 5) None None None
    (literal "  Great wifi, great coffee ").

(** Cafe 7 with the first reviewer's review as its only review. *)
Definition one_review_db : DB :=
  mkDB {[ 7%positive := CafeRow.mk 1 true 500 1 500 0 0 0 ]}
       {[ 1%positive := LocationRow.mk 1 ]}
       {[ 11%positive := review_5_5 ]}.

(** The same database after the reviewer has deleted the review through
    the API. *)
Definition one_review_db_deleted : DB :=
  (CafeReviewViewSet_destroy (Some example_user) 7 11 one_review_db).2.

(** ** Example data: two locations *)

(** Two locations and no cafe yet. *)
Definition two_locations_db : DB :=
  mkDB ∅ {[ 1%positive := LocationRow.mk 0; 2%positive := LocationRow.mk 0 ]} ∅.

(** Cafe 7, active, at location 1. *)
Definition active_cafe_db : DB :=
  mkDB {[ 7%positive := example_cafe_row ]}
       {[ 1%positive := LocationRow.mk 1; 2%positive := LocationRow.mk 0 ]} ∅.

(** Cafe 7, inactive, at location 1, next to an active cafe at each
    location. *)
Definition inactive_cafe_row : CafeRow.t := CafeRow.mk 1 false 0 0 0 0 0 0.

Definition inactive_cafe_db : DB :=
  mkDB {[ 7%positive := inactive_cafe_row;
          8%positive := CafeRow.mk 1 true 0 0 0 0 0 0;
          9%positive := CafeRow.mk 2 true 0 0 0 0 0 0 ]}
       {[ 1%positive := LocationRow.mk 1; 2%positive := LocationRow.mk 1 ]} ∅.

(** An edit request that changes the overall rating only. *)
Definition example_patch : ReviewPatch.t :=
  ReviewPatch.mk (Some 3) None None None None None.

(** The example cafe's object after [cafe.is_active = False] in memory,
    not saved: an object that no longer agrees with its row. *)
Definition example_stale_cafe : Cafe.t := Cafe.set_is_active false example_cafe.

(** The querysets of the admin examples: every row, and the change list
    filtered on [is_active = True]. *)
Definition every_row {A : Type} : queryset A := λ _ _, true.

Definition active_rows : queryset ReviewRow.t := λ _ r, ReviewRow.is_active r.

(** The queryset of rows ticked in the change list. *)
Definition selected {A : Type} (ks : list positive) : queryset A :=
  λ k _, bool_decide (k ∈ ks).

(** ** Vocabulary of the further properties *)

(** Every review row is on the 1-5 scale. *)
Definition all_reviews_valid (db : DB) : Prop :=
  ∀ k r, reviews db !! k = Some r → valid_review r.

(** Every review row points to a cafe row (the foreign key holds). *)
Definition reviews_have_cafes (db : DB) : Prop :=
  ∀ k r, reviews db !! k = Some r → is_Some (cafes db !! ReviewRow.cafe_id r).

(** The database after the ratings of cafe [k] have been recomputed from
    its active reviews. *)
Definition recomputed (k : positive) (db : DB) : DB :=
  match cafes db !! k with
  | Some row =>
      set_cafes (<[k := recomputed_row (active_reviews k db) row]> (cafes db)) db
  | None => db
  end.

Definition recompute_all (ks : list positive) (db : DB) : DB :=
  foldl (λ d k, recomputed k d) db ks.

(** The rating columns of every cafe are up to date: they hold the rounded
    means and the count of the cafe's active reviews. *)
Definition ratings_up_to_date (db : DB) : Prop :=
  ∀ k row, cafes db !! k = Some row →
           stores_rounded_means (active_reviews k db) row.

(** Row [r] holds what the create request [data] of [user] for the cafe
    behind [cafe_slug] submitted: the ratings as sent, the text stripped. *)
Definition holds_request (user : User.t) (cafe_slug : positive)
    (data : ReviewData.t) (r : ReviewRow.t) : Prop :=
  ReviewRow.cafe_id r = cafe_slug
  ∧ ReviewRow.user_id r = User.id user
  ∧ ReviewData.rating_overall data = Some (ReviewRow.rating_overall r)
  ∧ ReviewRow.rating_wifi r = ReviewData.rating_wifi data
  ∧ ReviewRow.rating_power r = ReviewData.rating_power data
  ∧ ReviewRow.rating_noise r = ReviewData.rating_noise data
  ∧ ReviewRow.rating_coffee r = ReviewData.rating_coffee data
  ∧ ReviewRow.text r = strip (ReviewData.text data)
  ∧ ReviewRow.is_active r = true.

(** Row [r] is row [r0] after the edit request [data]: the fields sent
    replace the old values, the text stripped; the other fields, the cafe,
    the user and [is_active] are as in [r0]. *)
Definition edited (data : ReviewPatch.t) (r0 r : ReviewRow.t) : Prop :=
  ReviewRow.cafe_id r = ReviewRow.cafe_id r0
  ∧ ReviewRow.user_id r = ReviewRow.user_id r0
  ∧ ReviewRow.is_active r = ReviewRow.is_active r0
  ∧ ReviewRow.rating_overall r
    = default (ReviewRow.rating_overall r0) (ReviewPatch.rating_overall data)
  ∧ ReviewRow.rating_wifi r
    = default (ReviewRow.rating_wifi r0) (ReviewPatch.rating_wifi data)
  ∧ ReviewRow.rating_power r
    = default (ReviewRow.rating_power r0) (ReviewPatch.rating_power data)
  ∧ ReviewRow.rating_noise r
    = default (ReviewRow.rating_noise r0) (ReviewPatch.rating_noise data)
  ∧ ReviewRow.rating_coffee r
    = default (ReviewRow.rating_coffee r0) (ReviewPatch.rating_coffee data)
  ∧ ReviewRow.text r
    = default (ReviewRow.text r0) (strip <$> ReviewPatch.text data).

(** The write requests of the review API, whatever their outcome. *)
Inductive review_request (db : DB) : DB → Prop :=
  | request_create (id : positive) (user : option User.t)
      (cafe_slug : positive) (data : ReviewData.t) (r : result Review.t)
      (db' : DB) :
      CafeReviewViewSet_create id user cafe_slug data db = (r, db') →
      review_request db db'
  | request_update (partial : bool) (user : option User.t)
      (cafe_slug pk : positive) (data : ReviewPatch.t) (r : result Review.t)
      (db' : DB) :
      CafeReviewViewSet_update partial user cafe_slug pk data db = (r, db') →
      review_request db db'
  | request_destroy (user : option User.t) (cafe_slug pk : positive)
      (r : result unit) (db' : DB) :
      CafeReviewViewSet_destroy user cafe_slug pk db = (r, db') →
      review_request db db'.

(** A text the serializers take: stripped, it has between 10 and 2000
    characters and no NUL character. *)
Definition acceptable_text (t : str) : Prop :=
  10 ≤ len (strip t) ≤ 2000 ∧ 0%N ∉ strip t.

(** What a create request that passes field validation carries: an
    overall rating on the 1-5 scale, the other ratings on the scale or
    left out, and an acceptable text. *)
Definition acceptable_fields (data : ReviewData.t) : Prop :=
  (∃ v, ReviewData.rating_overall data = Some v ∧ valid_rating v)
  ∧ valid_optional_rating (ReviewData.rating_wifi data)
  ∧ valid_optional_rating (ReviewData.rating_power data)
  ∧ valid_optional_rating (ReviewData.rating_noise data)
  ∧ valid_optional_rating (ReviewData.rating_coffee data)
  ∧ acceptable_text (ReviewData.text data).

(** What an edit request that passes field validation carries: every
    field sent obeys the rule of its kind; a full update sends the overall
    rating and the text. *)
Definition acceptable_patch (partial : bool) (data : ReviewPatch.t) : Prop :=
  (partial = false →
   is_Some (ReviewPatch.rating_overall data) ∧ is_Some (ReviewPatch.text data))
  ∧ (∀ v, ReviewPatch.rating_overall data = Some v → valid_rating v)
  ∧ (∀ x, ReviewPatch.rating_wifi data = Some x → valid_optional_rating x)
  ∧ (∀ x, ReviewPatch.rating_power data = Some x → valid_optional_rating x)
  ∧ (∀ x, ReviewPatch.rating_noise data = Some x → valid_optional_rating x)
  ∧ (∀ x, ReviewPatch.rating_coffee data = Some x → valid_optional_rating x)
  ∧ (∀ t, ReviewPatch.text data = Some t → acceptable_text t).

(** The review object agrees with the database on its cafe: its
    [cafe_id] is that of its row, and the cafe object it has cached, if
    any, is that cafe and in sync with the cafe's row. *)
Definition review_in_sync (self : Review.t) (db : DB) : Prop :=
  (∃ r0, reviews db !! Review.pk self = Some r0
         ∧ ReviewRow.cafe_id (Review.fields self) = ReviewRow.cafe_id r0)
  ∧ is_Some (cafes db !! ReviewRow.cafe_id (Review.fields self))
  ∧ match Review.cafe self with
    | Some c => Cafe.pk c = ReviewRow.cafe_id (Review.fields self)
                ∧ in_sync c db
    | None => True
    end.

(** A review row after [queryset.update(is_active=b)]: changed when the
    queryset selects it. *)
Definition bulk_updated (b : bool) (qs : queryset ReviewRow.t) (k : positive)
    (r : ReviewRow.t) : ReviewRow.t :=
  if qs k r then ReviewRow.set_is_active b r else r.

(** The queryset selects rows without looking at [is_active]: the
    selection is by key, or by filters on other columns. *)
Definition ignores_is_active (qs : queryset ReviewRow.t) : Prop :=
  ∀ k r b, qs k (ReviewRow.set_is_active b r) = qs k r.

(** The queryset selects only rows whose [is_active] is [b]: the change
    list is filtered on [is_active]. *)
Definition selects_only (b : bool) (qs : queryset ReviewRow.t) : Prop :=
  ∀ k r, qs k r = true → ReviewRow.is_active r = b.

(** The cafe behind [cafe_slug] is there and active. *)
Definition active_cafe (cafe_slug : positive) (db : DB) : Prop :=
  ∃ row, cafes db !! cafe_slug = Some row ∧ CafeRow.is_active row = true.

(** A text that does not start with white space. *)
Definition trimmed (s : str) : Prop :=
  match s with
  | [] => True
  | a :: _ => is_space a = false
  end.

(** * Properties *)

(** ** Rounding to hundredths *)

Section rounding.

Import Decimal.

Lemma round_half_even_near (n d : Z) :
  0 < d → 2 * Z.abs (d * round_half_even n d - n) ≤ d.
Proof.
  intros Hd. unfold round_half_even.
  pose proof (Z.div_mod n d ltac:(lia)) as Hdm.
  pose proof (Z.mod_pos_bound n d Hd) as Hr.
  destruct (Z.ltb_spec (2 * (n mod d)) d);
    [|destruct (Z.ltb_spec d (2 * (n mod d)));
      [|destruct (Z.even (n / d))]]; lia.
Qed.

Lemma round_half_even_exact (h d : Z) :
  0 < d → round_half_even (h * d) d = h.
Proof.
  intros Hd. unfold round_half_even.
  rewrite Z.div_mul, Z.mod_mul by lia.
  destruct (Z.ltb_spec (2 * 0) d); lia.
Qed.

Lemma round_half_even_range (n d lo hi : Z) :
  0 < d → lo * d ≤ n ≤ hi * d → lo ≤ round_half_even n d ≤ hi.
Proof.
  intros Hd Hn.
  destruct (Z.eq_dec n (hi * d)) as [->|Hne].
  { rewrite round_half_even_exact by lia. nia. }
  pose proof (Z.div_mod n d ltac:(lia)) as Hdm.
  pose proof (Z.mod_pos_bound n d Hd) as Hr.
  assert (lo ≤ n / d) by (apply Z.div_le_lower_bound; lia).
  assert (n / d < hi) by (apply Z.div_lt_upper_bound; lia).
  unfold round_half_even.
  destruct (Z.ltb_spec (2 * (n mod d)) d);
    [|destruct (Z.ltb_spec d (2 * (n mod d)));
      [|destruct (Z.even (n / d))]]; lia.
Qed.

Lemma normalize_units (fuel : nat) (n d : Z) :
  0 < d → d ≤ n < 10 * d →
  normalize (S (S (S fuel))) n d 0 = (100 * n, d, -2).
Proof.
  intros Hd Hn. cbn [normalize].
  destruct (Z.ltb_spec n (100 * d)); [|lia].
  destruct (Z.ltb_spec (10 * n) (100 * d)); [|lia].
  destruct (Z.ltb_spec (10 * (10 * n)) (100 * d)); [lia|].
  destruct (Z.leb_spec (1000 * d) (10 * (10 * n))); [lia|].
  replace (10 * (10 * n)) with (100 * n) by lia. reflexivity.
Qed.

(** A value between 1 and 5 reaches the database as its nearest number
    of hundredths. *)
Lemma get_db_prep_save_units (n : Z) (d : positive) :
  Z.pos d ≤ n ≤ 5 * Z.pos d →
  get_db_prep_save (n # d) = Ok (round_half_even (100 * n) (Z.pos d)).
Proof.
  intros Hn. unfold get_db_prep_save, create_decimal_from_float.
  cbn [Qnum Qden].
  rewrite (Z.abs_eq n) by lia.
  destruct (Z.eqb_spec n 0); [lia|].
  change (3 + ?k)%nat with (S (S (S k))).
  rewrite normalize_units by lia.
  pose proof (round_half_even_range (100 * n) (Z.pos d) 100 500
                ltac:(lia) ltac:(lia)) as Hc.
  destruct (Z.eqb_spec (round_half_even (100 * n) (Z.pos d)) 1000); [lia|].
  rewrite Z.sgn_pos by lia. rewrite Z.mul_1_l.
  unfold quantize. cbn [coefficient exponent].
  change (-2 <=? -2) with true. cbn [Z.add Z.opp Z.pos_sub Z.pow Z.pow_pos
    Pos.iter Z.mul Pos.mul]. 
  rewrite Z.mul_1_r.
  destruct (Z.ltb_spec (Z.abs (round_half_even (100 * n) (Z.pos d))) 1000);
    [done|lia].
Qed.

Lemma get_db_prep_save_0 : get_db_prep_save 0 = Ok 0.
Proof. reflexivity. Qed.

End rounding.

(** ** Stepping through the monad *)

Ltac munfold :=
  unfold mbind, M_bind, mret, M_ret, raise, get_db, put_db, lift, try_except.

Lemma cafe_pre_save_found (self : Cafe.t) (db : DB) (row : CafeRow.t) :
  cafes db !! Cafe.pk self = Some row →
  cafe_pre_save self db
  = (Ok (Cafe.set_old (Some (CafeRow.location_id row))
                      (Some (CafeRow.is_active row)) self), db).
Proof.
  intros Hrow. unfold cafe_pre_save, Cafe_objects_get. munfold.
  by rewrite Hrow.
Qed.

Lemma cafe_pre_save_missing (self : Cafe.t) (db : DB) :
  cafes db !! Cafe.pk self = None →
  cafe_pre_save self db = (Ok (Cafe.set_old None None self), db).
Proof.
  intros Hrow. unfold cafe_pre_save, Cafe_objects_get. munfold.
  by rewrite Hrow.
Qed.

(** Converting the averages does not touch the database. *)
Lemma rating_values_state (self : Cafe.t) (db : DB) :
  (rating_values self db).2 = db.
Proof.
  unfold rating_values. munfold.
  repeat (match goal with
          | |- context [Decimal.get_db_prep_save ?q] =>
              destruct (Decimal.get_db_prep_save q)
          end; cbn [fst snd]; try reflexivity).
Qed.

Lemma rating_values_pure (self : Cafe.t) (db db' : DB) :
  (rating_values self db).1 = (rating_values self db').1.
Proof.
  unfold rating_values. munfold.
  repeat (match goal with
          | |- context [Decimal.get_db_prep_save ?q] =>
              destruct (Decimal.get_db_prep_save q)
          end; cbn [fst snd]; try reflexivity).
Qed.

Lemma rating_values_set_old (l : option positive) (a : option bool)
    (self : Cafe.t) (db : DB) :
  rating_values (Cafe.set_old l a self) db = rating_values self db.
Proof. reflexivity. Qed.

Lemma rating_values_ok (self : Cafe.t) (db : DB) (avg wifi power noise coffee : Z) :
  Decimal.get_db_prep_save (Cafe.rating_avg self) = Ok avg →
  Decimal.get_db_prep_save (Cafe.rating_wifi self) = Ok wifi →
  Decimal.get_db_prep_save (Cafe.rating_power self) = Ok power →
  Decimal.get_db_prep_save (Cafe.rating_noise self) = Ok noise →
  Decimal.get_db_prep_save (Cafe.rating_coffee self) = Ok coffee →
  rating_values self db = (Ok (avg, wifi, power, noise, coffee), db).
Proof.
  intros H1 H2 H3 H4 H5. unfold rating_values. munfold.
  by rewrite H1, H2, H3, H4, H5.
Qed.

(** ** [Cafe.save(update_fields=[rating fields])] *)

Lemma update_rating_stats_unfold (self : Cafe.t) (db : DB) :
  update_rating_stats self db
  = Model_save_Cafe (with_stats (active_reviews (Cafe.pk self) db) self)
      rating_fields db.
Proof. reflexivity. Qed.

Lemma Model_save_Cafe_rating_fields (self : Cafe.t) (db : DB)
    (row : CafeRow.t) (v : Z * Z * Z * Z * Z) :
  cafes db !! Cafe.pk self = Some row →
  (rating_values self db).1 = Ok v →
  0 ≤ Cafe.rating_count self →
  let self' := Cafe.set_old (Some (CafeRow.location_id row))
                 (Some (CafeRow.is_active row)) self in
  Model_save_Cafe self rating_fields db
  = (cafe_post_save self' false;; mret self')
      (set_cafes (<[Cafe.pk self := with_ratings v (Cafe.rating_count self) row]>
                    (cafes db)) db).
Proof.
  intros Hrow Hv Hcount self'.
  unfold Model_save_Cafe.
  unfold mbind at 1; unfold M_bind at 1.
  rewrite (cafe_pre_save_found _ _ _ Hrow). fold self'.
  unfold mbind at 1; unfold M_bind at 1.
  change (rating_values self' db) with (rating_values self db).
  pose proof (rating_values_state self db) as Hst.
  destruct (rating_values self db) as [[v'|e] db2]; cbn [fst snd] in *;
    [|discriminate].
  injection Hv as ->. subst db2.
  destruct v as [[[[avg wifi] power] noise] coffee].
  unfold write_cafe_row. munfold.
  change (Cafe.pk self') with (Cafe.pk self).
  change (Cafe.rating_count self') with (Cafe.rating_count self).
  rewrite Hrow. cbn [CafeRow.rating_count].
  destruct (Z.ltb_spec (Cafe.rating_count self) 0); [lia|].
  reflexivity.
Qed.

(** Without a row to update, [save(update_fields=...)] raises and nothing is
    written. *)
Lemma Model_save_Cafe_rating_fields_missing (self : Cafe.t) (db : DB) :
  cafes db !! Cafe.pk self = None →
  ∃ e, Model_save_Cafe self rating_fields db = (Raise e, db)
       ∧ (e = DatabaseError ∨ e = InvalidOperation).
Proof.
  intros Hrow. unfold Model_save_Cafe.
  unfold mbind at 1; unfold M_bind at 1.
  rewrite (cafe_pre_save_missing _ _ Hrow).
  unfold mbind at 1; unfold M_bind at 1.
  rewrite rating_values_set_old.
  pose proof (rating_values_state self db) as Hst.
  assert (Hexn : ∀ e, (rating_values self db).1 = Raise e → e = InvalidOperation).
  { unfold rating_values, Decimal.get_db_prep_save, Decimal.quantize. munfold.
    intros e.
    repeat (match goal with
            | |- context [if ?b then Ok _ else Raise _] => destruct b
            end; cbn [fst snd]); congruence. }
  destruct (rating_values self db) as [[v|e] db2]; cbn [fst snd] in *; subst db2.
  - destruct v as [[[[avg wifi] power] noise] coffee].
    munfold. cbn [Cafe.pk Cafe.set_old]. rewrite Hrow. eauto.
  - exists e. split; [done|]. right. by apply Hexn.
Qed.

(** What a successful [save(update_fields=...)] must have done. *)
Lemma Model_save_Cafe_rating_fields_inv (self self1 : Cafe.t) (db db1 : DB) :
  Model_save_Cafe self rating_fields db = (Ok self1, db1) →
  ∃ row v,
    cafes db !! Cafe.pk self = Some row
    ∧ (rating_values self db).1 = Ok v
    ∧ 0 ≤ Cafe.rating_count self.
Proof.
  intros Hrun.
  destruct (cafes db !! Cafe.pk self) as [row|] eqn:Hrow.
  - exists row.
    revert Hrun. unfold Model_save_Cafe.
    unfold mbind at 1; unfold M_bind at 1.
    rewrite (cafe_pre_save_found _ _ _ Hrow).
    unfold mbind at 1; unfold M_bind at 1.
    rewrite rating_values_set_old.
    pose proof (rating_values_state self db) as Hst.
    destruct (rating_values self db) as [[v|e] db2]; cbn [fst snd] in *;
      [|discriminate].
    subst db2. intros Hrun. exists v. split; [done|]. split; [done|].
    destruct v as [[[[avg wifi] power] noise] coffee].
    revert Hrun. unfold write_cafe_row. munfold.
    cbn [Cafe.pk Cafe.set_old]. rewrite Hrow.
    cbn [CafeRow.rating_count].
    change (Cafe.rating_count (Cafe.set_old ?l ?a self))
      with (Cafe.rating_count self).
    destruct (Z.ltb_spec (Cafe.rating_count self) 0); [discriminate 1|lia].
  - destruct (Model_save_Cafe_rating_fields_missing _ _ Hrow) as (e & He & _).
    congruence.
Qed.

(** ** Averages *)

Lemma sum_Z_valid (xs : list Z) :
  Forall valid_rating xs →
  Z.of_nat (length xs) ≤ sum_Z xs ≤ 5 * Z.of_nat (length xs).
Proof.
  unfold valid_rating. induction 1 as [|x xs Hx _ IH]; cbn [sum_Z foldr length].
  - lia.
  - fold (sum_Z xs). lia.
Qed.

Lemma mean_cons (x : Z) (xs : list Z) :
  (mean (x :: xs) == sum_Z (x :: xs) # Pos.of_nat (length (x :: xs)))%Q.
Proof.
  unfold mean. rewrite Qmake_Qdiv.
  replace (Z.pos (Pos.of_nat (length (x :: xs))))
    with (Z.of_nat (length (x :: xs))); [reflexivity|].
  cbn [length]. lia.
Qed.

(** For ratings on the 1-5 scale the database receives the hundredths
    nearest to the mean. *)
Lemma or_0_Avg_stored (col : ReviewRow.t → option Z) (rows : list ReviewRow.t) :
  Forall valid_rating (ratings_set col rows) →
  Decimal.get_db_prep_save (or_0 (Avg col rows))
  = Ok (mean_hundredths (ratings_set col rows)).
Proof.
  unfold Avg, ratings_set, mean_hundredths.
  destruct (omap col rows) as [|x xs] eqn:E; intros Hvalid.
  - reflexivity.
  - pose proof (sum_Z_valid _ Hvalid) as Hsum.
    assert (Hlen : Z.pos (Pos.of_nat (length (x :: xs)))
                   = Z.of_nat (length (x :: xs))) by (cbn [length]; lia).
    unfold or_0.
    destruct (Qeq_bool _ 0) eqn:Hz.
    { apply Qeq_bool_eq in Hz. unfold Qeq in Hz. cbn [Qnum Qden] in Hz.
      cbn [length] in Hsum. lia. }
    rewrite get_db_prep_save_units by lia.
    by rewrite Hlen.
Qed.

Lemma mean_hundredths_near (xs : list Z) :
  (Qabs (Decimal.to_Q (mean_hundredths xs) - mean xs) <= 1 # 200)%Q.
Proof.
  destruct xs as [|x xs]; [done|].
  rewrite mean_cons. unfold mean_hundredths, Decimal.to_Q.
  set (s := sum_Z (x :: xs)). set (n := length (x :: xs)).
  assert (Hn : Z.pos (Pos.of_nat n) = Z.of_nat n) by (subst n; cbn [length]; lia).
  assert (Hpos : 0 < Z.of_nat n) by lia.
  pose proof (round_half_even_near (100 * s) (Z.of_nat n) Hpos) as Hnear.
  set (h := Decimal.round_half_even (100 * s) (Z.of_nat n)) in *.
  unfold Qminus, Qplus, Qopp, Qabs, Qle. cbn [Qnum Qden].
  rewrite Pos2Z.inj_mul, Hn. lia.
Qed.

Lemma mean_hundredths_exact (xs : list Z) (h : Z) :
  (mean xs == Decimal.to_Q h)%Q → mean_hundredths xs = h.
Proof.
  destruct xs as [|x xs].
  - unfold mean, Decimal.to_Q, Qeq. cbn. lia.
  - rewrite mean_cons. unfold mean_hundredths, Decimal.to_Q, Qeq.
    cbn [Qnum Qden].
    set (s := sum_Z (x :: xs)). set (n := length (x :: xs)).
    assert (Hn : Z.pos (Pos.of_nat n) = Z.of_nat n) by (subst n; cbn [length]; lia).
    rewrite Hn. intros Heq.
    replace (100 * s) with (h * Z.of_nat n) by lia.
    apply round_half_even_exact. lia.
Qed.

Lemma valid_reviews_columns (rows : list ReviewRow.t) :
  Forall valid_review rows →
  Forall valid_rating (ratings_set overall rows)
  ∧ Forall valid_rating (ratings_set ReviewRow.rating_wifi rows)
  ∧ Forall valid_rating (ratings_set ReviewRow.rating_power rows)
  ∧ Forall valid_rating (ratings_set ReviewRow.rating_noise rows)
  ∧ Forall valid_rating (ratings_set ReviewRow.rating_coffee rows).
Proof.
  unfold ratings_set, overall.
  induction 1 as [|r rows (Ho & Hw & Hp & Hn & Hc) _ IH]; cbn [omap list_omap].
  - repeat split; constructor.
  - destruct IH as (IHo & IHw & IHp & IHn & IHc).
    repeat split.
    + by constructor.
    + destruct (ReviewRow.rating_wifi r); [by constructor|done].
    + destruct (ReviewRow.rating_power r); [by constructor|done].
    + destruct (ReviewRow.rating_noise r); [by constructor|done].
    + destruct (ReviewRow.rating_coffee r); [by constructor|done].
Qed.

(** ** The counter signal on an object that is in sync with its row *)

Lemma cafe_post_save_in_sync (self : Cafe.t) (db : DB) :
  Cafe._old_location_id self = Cafe.location_id self →
  Cafe._old_is_active self = Some (Cafe.is_active self) →
  cafe_post_save self false db = (Ok tt, db).
Proof.
  intros Hl Ha. unfold cafe_post_save.
  rewrite Hl, Ha.
  repeat case_bool_decide; cbn [andb negb]; try reflexivity; congruence.
Qed.

(** ** [Cafe.update_rating_stats] *)

Lemma mean_hundredths_rounded (xs : list Z) :
  rounded_to_hundredths (mean_hundredths xs) (mean xs).
Proof.
  split; [apply mean_hundredths_near|].
  intros h' Hh'. by apply mean_hundredths_exact.
Qed.

Lemma recomputed_row_rounded (rows : list ReviewRow.t) (r : CafeRow.t) :
  stores_rounded_means rows (recomputed_row rows r).
Proof.
  unfold stores_rounded_means, recomputed_row. cbn.
  repeat split; try apply mean_hundredths_near;
    intros h' Hh'; by apply mean_hundredths_exact.
Qed.

(** The run of [update_rating_stats] on an object in sync with its row,
    when every active review of the cafe is on the 1-5 scale. *)
Lemma update_rating_stats_valid (self : Cafe.t) (db : DB) (row : CafeRow.t) :
  cafes db !! Cafe.pk self = Some row →
  Cafe.location_id self = Some (CafeRow.location_id row) →
  Cafe.is_active self = CafeRow.is_active row →
  Forall valid_review (active_reviews (Cafe.pk self) db) →
  let rows := active_reviews (Cafe.pk self) db in
  update_rating_stats self db
  = (Ok (Cafe.set_old (Some (CafeRow.location_id row))
           (Some (CafeRow.is_active row)) (with_stats rows self)),
     set_cafes (<[Cafe.pk self := recomputed_row rows row]> (cafes db)) db).
Proof.
  intros Hrow Hloc Hact Hvalid rows.
  destruct (valid_reviews_columns _ Hvalid) as (Ho & Hw & Hp & Hn & Hc).
  rewrite update_rating_stats_unfold. fold rows.
  rewrite (Model_save_Cafe_rating_fields _ _ row
             (mean_hundredths (ratings_set overall rows),
              mean_hundredths (ratings_set ReviewRow.rating_wifi rows),
              mean_hundredths (ratings_set ReviewRow.rating_power rows),
              mean_hundredths (ratings_set ReviewRow.rating_noise rows),
              mean_hundredths (ratings_set ReviewRow.rating_coffee rows))).
  - unfold mbind, M_bind.
    rewrite cafe_post_save_in_sync; [reflexivity|by cbn|by cbn; rewrite Hact].
  - exact Hrow.
  - erewrite rating_values_ok; [reflexivity|..]; cbn;
      by apply or_0_Avg_stored.
  - cbn. unfold Count. lia.
Qed.

(** ** What the counter signals leave alone *)

Lemma update_location_cafe_count_frame (l : option positive) (delta : Z)
    (db : DB) :
  cafes (update_location_cafe_count l delta db).2 = cafes db
  ∧ reviews (update_location_cafe_count l delta db).2 = reviews db.
Proof.
  unfold update_location_cafe_count, Location_filter_update_cafe_count.
  munfold. destruct l as [l|]; [|done].
  destruct (locations db !! l) as [r|]; [|done].
  by destruct (LocationRow.cafe_count r + delta <? 0).
Qed.

Lemma cafe_post_save_frame (self : Cafe.t) (created : bool) (db : DB) :
  cafes (cafe_post_save self created db).2 = cafes db
  ∧ reviews (cafe_post_save self created db).2 = reviews db.
Proof.
  unfold cafe_post_save.
  pose proof update_location_cafe_count_frame as Hf.
  destruct created.
  { destruct (Cafe.is_active self); [apply Hf|done]. }
  destruct (_ && _).
  - unfold mbind, M_bind.
    destruct (bool_decide (Cafe._old_is_active self = Some true)).
    + pose proof (Hf (Cafe._old_location_id self) (-1) db) as [Hc Hr].
      destruct (update_location_cafe_count (Cafe._old_location_id self) (-1) db)
        as [[[]|e] db1]; cbn [snd] in *; [|done].
      destruct (Cafe.is_active self); [|done].
      destruct (Hf (Cafe.location_id self) 1 db1) as [Hc1 Hr1].
      split; congruence.
    + cbn. destruct (Cafe.is_active self); [apply Hf|done].
  - destruct (negb _); [apply Hf|done].
Qed.

(** ** Claims about the rating aggregation *)

Lemma sum_Z_Permutation (xs ys : list Z) : xs ≡ₚ ys → sum_Z xs = sum_Z ys.
Proof.
  unfold sum_Z. induction 1; cbn [foldr]; lia.
Qed.

Lemma mean_hundredths_Permutation (xs ys : list Z) :
  xs ≡ₚ ys → mean_hundredths xs = mean_hundredths ys.
Proof.
  intros Hp. unfold mean_hundredths.
  rewrite (sum_Z_Permutation _ _ Hp), (Permutation_length Hp).
  destruct xs as [|x xs]; destruct ys as [|y ys]; try reflexivity.
  all: exfalso; apply Permutation_length in Hp; discriminate.
Qed.

Lemma mean_hundredths_range (xs : list Z) :
  Forall valid_rating xs → 0 ≤ mean_hundredths xs ≤ 500.
Proof.
  intros Hvalid. pose proof (sum_Z_valid _ Hvalid) as Hsum.
  unfold mean_hundredths. destruct xs as [|x xs]; [lia|].
  pose proof (round_half_even_range (100 * sum_Z (x :: xs))
                (Z.of_nat (length (x :: xs))) 100 500) as Hr.
  cbn [length] in *. lia.
Qed.

Lemma example_active_reviews :
  active_reviews 7 example_db = [review_5_5; review_2; review_4_4].
Proof. vm_compute. reflexivity. Qed.

Lemma example_in_sync : in_sync example_cafe example_db.
Proof. exists example_cafe_row. repeat split. Qed.

Lemma example_valid_reviews :
  Forall valid_review (active_reviews 7 example_db).
Proof.
  rewrite example_active_reviews.
  repeat constructor; cbn; unfold valid_rating; lia.
Qed.

(** Claim C5. A cafe whose active reviews are rated overall 5, 4 and 2, with
    wifi rated on two of them, 5 and 4: after the recompute the stored
    [rating_avg] is 3.67 (11/3 rounded to two decimals), [rating_wifi] is
    4.50 and [rating_count] is 3; each of the five stored averages is a
    number of hundredths between 0.00 and 5.00, which three digits with
    two decimals can hold. *)
Theorem rating_scenario_5_4_2 (self : Cafe.t) (db : DB) (a b c : ReviewRow.t) :
  in_sync self db →
  active_reviews (Cafe.pk self) db ≡ₚ [a; b; c] →
  valid_review a ∧ valid_review b ∧ valid_review c →
  ReviewRow.rating_overall a = 5 ∧ ReviewRow.rating_wifi a = Some 5 →
  ReviewRow.rating_overall b = 4 ∧ ReviewRow.rating_wifi b = Some 4 →
  ReviewRow.rating_overall c = 2 ∧ ReviewRow.rating_wifi c = None →
  ∃ self' row',
    update_rating_stats self db
    = (Ok self', set_cafes (<[Cafe.pk self := row']> (cafes db)) db)
    ∧ CafeRow.rating_avg row' = 367
    ∧ CafeRow.rating_wifi row' = 450
    ∧ CafeRow.rating_count row' = 3
    ∧ Forall (λ h, 0 ≤ h ≤ 500)
        [CafeRow.rating_avg row'; CafeRow.rating_wifi row';
         CafeRow.rating_power row'; CafeRow.rating_noise row';
         CafeRow.rating_coffee row'].
Proof.
  intros (row & Hrow & Hloc & Hact) Hp (Ha & Hb & Hc) [Hao Haw] [Hbo Hbw]
    [Hco Hcw].
  assert (Hvalid : Forall valid_review (active_reviews (Cafe.pk self) db)).
  { rewrite Hp. repeat (constructor; [assumption|]). constructor. }
  destruct (valid_reviews_columns _ Hvalid) as (Vo & Vw & Vp & Vn & Vc).
  eexists _, _. split; [by apply update_rating_stats_valid|].
  unfold recomputed_row. cbn [CafeRow.rating_avg CafeRow.rating_wifi
    CafeRow.rating_count CafeRow.rating_power CafeRow.rating_noise
    CafeRow.rating_coffee].
  split; [|split; [|split]].
  - rewrite (mean_hundredths_Permutation _ [5; 4; 2]); [reflexivity|].
    unfold ratings_set. rewrite Hp. unfold overall. cbn.
    by rewrite Hao, Hbo, Hco.
  - rewrite (mean_hundredths_Permutation _ [5; 4]); [reflexivity|].
    unfold ratings_set. rewrite Hp. cbn.
    by rewrite Haw, Hbw, Hcw.
  - unfold Count. by rewrite (Permutation_length Hp).
  - repeat constructor; by apply mean_hundredths_range.
Qed.

Lemma rating_scenario_5_4_2_witness :
  ∃ self' row',
    update_rating_stats example_cafe example_db
    = (Ok self',
       set_cafes (<[Cafe.pk example_cafe := row']> (cafes example_db))
         example_db)
    ∧ CafeRow.rating_avg row' = 367
    ∧ CafeRow.rating_wifi row' = 450
    ∧ CafeRow.rating_count row' = 3
    ∧ Forall (λ h, 0 ≤ h ≤ 500)
        [CafeRow.rating_avg row'; CafeRow.rating_wifi row';
         CafeRow.rating_power row'; CafeRow.rating_noise row';
         CafeRow.rating_coffee row'].
Proof.
  apply (rating_scenario_5_4_2 example_cafe example_db
           review_5_5 review_4_4 review_2).
  - exact example_in_sync.
  - change (Cafe.pk example_cafe) with 7%positive.
    rewrite example_active_reviews. apply Permutation_skip, Permutation_swap.
  - repeat split; cbn; unfold valid_rating; lia.
  - split; reflexivity.
  - split; reflexivity.
  - split; reflexivity.
Defined.

(** Claim C10. Once [update_rating_stats] has returned, running it again on
    the object it returned leaves table [cafes] and table [reviews] as the
    first run left them: the six columns are recomputed from the reviews,
    which the recompute does not touch. When the object was in sync with
    its row, the second run returns the same object and the same
    database. *)
Theorem update_rating_stats_idempotent (self self1 : Cafe.t) (db db1 : DB) :
  update_rating_stats self db = (Ok self1, db1) →
  cafes (update_rating_stats self1 db1).2 = cafes db1
  ∧ reviews (update_rating_stats self1 db1).2 = reviews db1
  ∧ (in_sync self db → update_rating_stats self1 db1 = (Ok self1, db1)).
Proof.
  intros Hrun. rewrite update_rating_stats_unfold in Hrun.
  set (rows := active_reviews (Cafe.pk self) db) in *.
  destruct (Model_save_Cafe_rating_fields_inv _ _ _ _ Hrun)
    as (row & v & Hrow & Hv & Hcount).
  rewrite (Model_save_Cafe_rating_fields _ _ row v Hrow Hv Hcount) in Hrun.
  set (self' := Cafe.set_old (Some (CafeRow.location_id row))
                  (Some (CafeRow.is_active row)) (with_stats rows self)) in *.
  set (row1 := with_ratings v (Cafe.rating_count (with_stats rows self)) row)
    in *.
  set (dbm := set_cafes (<[Cafe.pk (with_stats rows self) := row1]> (cafes db))
                db) in *.
  unfold mbind, M_bind in Hrun.
  destruct (cafe_post_save_frame self' false dbm) as [Hfc Hfr].
  destruct (cafe_post_save self' false dbm) as [[[]|e] db1'] eqn:Hpost;
    [|discriminate].
  injection Hrun as <- <-. cbn [snd] in Hfc, Hfr.
  (* the second run *)
  assert (Hrows : active_reviews (Cafe.pk self') db1' = rows).
  { unfold active_reviews. by rewrite Hfr. }
  assert (Hrow1 : cafes db1' !! Cafe.pk self' = Some row1).
  { rewrite Hfc. apply lookup_insert_eq. }
  assert (Hv1 : (rating_values (with_stats rows self') db1').1 = Ok v).
  { rewrite <- Hv.
    change (rating_values (with_stats rows self') db1')
      with (rating_values (with_stats rows self) db1').
    apply rating_values_pure. }
  assert (Hrun2 : update_rating_stats self' db1'
                  = (cafe_post_save self' false;; mret self') db1').
  { rewrite update_rating_stats_unfold, Hrows.
    rewrite (Model_save_Cafe_rating_fields (with_stats rows self') db1'
               row1 v Hrow1 Hv1 Hcount).
    change (Cafe.pk (with_stats rows self')) with (Cafe.pk self').
    replace (with_ratings v (Cafe.rating_count (with_stats rows self')) row1)
      with row1
      by (subst row1; by destruct v as [[[[? ?] ?] ?] ?]).
    rewrite (insert_id _ _ _ Hrow1).
    replace (set_cafes (cafes db1') db1') with db1' by by destruct db1'.
    subst row1. by destruct v as [[[[? ?] ?] ?] ?]. }
  rewrite Hrun2. unfold mbind, M_bind.
  destruct (cafe_post_save_frame self' false db1') as [Hfc2 Hfr2].
  split; [|split].
  - by destruct (cafe_post_save self' false db1') as [[[]|?] ?].
  - by destruct (cafe_post_save self' false db1') as [[[]|?] ?].
  - intros (row0 & Hrow0 & Hloc & Hact).
    change (Cafe.pk (with_stats rows self)) with (Cafe.pk self) in Hrow.
    assert (row0 = row) as -> by congruence.
    rewrite cafe_post_save_in_sync; [reflexivity|by cbn|by cbn; rewrite Hact].
Qed.

Lemma update_rating_stats_idempotent_witness :
  ∃ self1 db1,
    update_rating_stats example_cafe example_db = (Ok self1, db1)
    ∧ cafes (update_rating_stats self1 db1).2 = cafes db1
    ∧ reviews (update_rating_stats self1 db1).2 = reviews db1
    ∧ (in_sync example_cafe example_db →
       update_rating_stats self1 db1 = (Ok self1, db1)).
Proof.
  eexists _, _. split; [vm_compute; reflexivity|].
  apply (update_rating_stats_idempotent example_cafe _ example_db).
  vm_compute. reflexivity.
Defined.





(** Without another request in between, the interleaved save is
    [Review.save]. *)
Lemma Review_save_interleaved_alone (self : Review.t)
    (mode : review_save_mode) (db : DB) :
  Review_save_interleaved self mode (mret tt) db = Review_save self mode db.
Proof.
  unfold Review_save_interleaved, Review_save, mbind, M_bind.
  by destruct (Model_save_Review self mode db) as [[[]|?] ?].
Qed.

(** ** Counting the active cafes of a location *)

Section counting.

Context (l : positive).

Lemma size_filter_insert_fresh (m : gmap positive CafeRow.t) (k : positive)
    (r : CafeRow.t) :
  m !! k = None →
  Z.of_nat (size (filter (counted_at l) (<[k := r]> m)))
  = Z.of_nat (size (filter (counted_at l) m)) + indicator l (k, r).
Proof.
  intros Hk. unfold indicator. rewrite map_filter_insert.
  destruct (decide (counted_at l (k, r))).
  - rewrite map_size_insert_None; [lia|].
    apply map_lookup_filter_None. by left.
  - rewrite delete_id by done. lia.
Qed.

Lemma size_filter_insert (m : gmap positive CafeRow.t) (k : positive)
    (r : CafeRow.t) :
  Z.of_nat (size (filter (counted_at l) (<[k := r]> m)))
  = Z.of_nat (size (filter (counted_at l) (delete k m))) + indicator l (k, r).
Proof.
  rewrite <- insert_delete_eq. apply size_filter_insert_fresh.
  apply lookup_delete_eq.
Qed.

Lemma size_filter_lookup (m : gmap positive CafeRow.t) (k : positive)
    (r : CafeRow.t) :
  m !! k = Some r →
  Z.of_nat (size (filter (counted_at l) m))
  = Z.of_nat (size (filter (counted_at l) (delete k m))) + indicator l (k, r).
Proof.
  intros Hk. rewrite <- (insert_delete_id m k r Hk) at 1.
  apply size_filter_insert_fresh, lookup_delete_eq.
Qed.

End counting.

Lemma indicator_counts_for (l k : positive) (r : CafeRow.t) :
  indicator l (k, r)
  = counts_for l (Some (CafeRow.location_id r)) (CafeRow.is_active r).
Proof.
  unfold indicator, counts_for.
  destruct (decide (counted_at l (k, r))) as [[Ha Hl]|Hn]; cbn [snd] in *.
  - rewrite Ha, Hl. cbn [andb]. by rewrite bool_decide_eq_true_2.
  - destruct (CafeRow.is_active r) eqn:Ha; cbn [andb]; [|done].
    case_bool_decide; [|done]. destruct Hn. split; [done|]. cbn. congruence.
Qed.

Lemma indicator_nonneg (l : positive) (kr : positive * CafeRow.t) :
  0 ≤ indicator l kr ≤ 1.
Proof. unfold indicator. case_decide; lia. Qed.

(** ** [update_location_cafe_count] *)

Lemma update_location_cafe_count_ok (location_id : option positive)
    (delta : Z) (db : DB) :
  (∀ l n, location_id = Some l → cafe_count_of l db = Some n → 0 ≤ n + delta) →
  update_location_cafe_count location_id delta db
  = (Ok tt, adjusted location_id delta db).
Proof.
  intros Hcheck.
  unfold update_location_cafe_count, Location_filter_update_cafe_count,
    adjusted, cafe_count_of in *. munfold.
  destruct location_id as [l|]; [|done].
  specialize (Hcheck l). destruct (locations db !! l) as [r|]; [|done].
  specialize (Hcheck _ eq_refl eq_refl).
  destruct (Z.ltb_spec (LocationRow.cafe_count r + delta) 0); [lia|done].
Qed.

Lemma cafe_count_of_adjusted (l : positive) (location_id : option positive)
    (delta : Z) (db : DB) :
  cafe_count_of l (adjusted location_id delta db)
  = (λ n, n + (if bool_decide (location_id = Some l) then delta else 0))
      <$> cafe_count_of l db.
Proof.
  unfold adjusted, cafe_count_of.
  destruct location_id as [l'|].
  - destruct (locations db !! l') as [r|] eqn:Hl'.
    + cbn [locations set_locations].
      destruct (decide (l' = l)) as [->|Hne].
      * rewrite lookup_insert_eq, Hl'. cbn.
        rewrite bool_decide_eq_true_2 by done. done.
      * rewrite lookup_insert_ne by done.
        rewrite bool_decide_eq_false_2 by congruence.
        destruct (locations db !! l); cbn; [|done]. f_equal. lia.
    + case_bool_decide.
      * simplify_eq. by rewrite Hl'.
      * destruct (locations db !! l); cbn; [|done]. f_equal. lia.
  - rewrite bool_decide_eq_false_2 by done.
    destruct (locations db !! l); cbn; [|done]. f_equal. lia.
Qed.

Lemma adjusted_frame (location_id : option positive) (delta : Z) (db : DB) :
  cafes (adjusted location_id delta db) = cafes db
  ∧ reviews (adjusted location_id delta db) = reviews db.
Proof.
  unfold adjusted. destruct location_id as [l|]; [|done].
  by destruct (locations db !! l).
Qed.

(** ** [cafe_post_save] and [cafe_post_delete] *)

Ltac counts_cases :=
  unfold old_counts_for, counts_for;
  repeat match goal with
         | H : CafeRow.is_active _ = _ |- _ => rewrite H
         | H : Cafe.is_active _ = _ |- _ => rewrite H
         end;
  repeat match goal with
         | |- context [cafe_count_of ?l ?db] =>
             destruct (cafe_count_of l db); cbn [fmap option_fmap option_map]
         end;
  try reflexivity; f_equal;
  repeat case_bool_decide; simplify_eq; cbn [andb]; try lia.

(** What [cafe_post_save] does to the counters after a write that replaced
    row [old] (or inserted, when there was none): every counter loses the
    old row's contribution and gains the new one's. The two side conditions
    are what the CHECK constraint of [cafe_count] needs. *)
Lemma cafe_post_save_counts (self : Cafe.t) (old : option CafeRow.t) (db : DB)
    (l1 : positive) :
  Cafe.location_id self = Some l1 →
  Cafe._old_location_id self = CafeRow.location_id <$> old →
  Cafe._old_is_active self = CafeRow.is_active <$> old →
  (∀ r0 n, old = Some r0 → CafeRow.is_active r0 = true →
           cafe_count_of (CafeRow.location_id r0) db = Some n → 1 ≤ n) →
  (∀ n, cafe_count_of l1 db = Some n → 0 ≤ n) →
  ∃ db',
    cafe_post_save self (bool_decide (old = None)) db = (Ok tt, db')
    ∧ cafes db' = cafes db ∧ reviews db' = reviews db
    ∧ ∀ l, cafe_count_of l db'
           = (λ n, n - old_counts_for l old
                     + counts_for l (Some l1) (Cafe.is_active self))
               <$> cafe_count_of l db.
Proof.
  intros Hl1 Hol Hoa Hdec Hinc. unfold cafe_post_save.
  rewrite Hl1, Hol, Hoa.
  destruct old as [r0|]; cbn [fmap option_fmap option_map].
  2:{ rewrite bool_decide_eq_true_2 by done.
      destruct (Cafe.is_active self).
      - rewrite update_location_cafe_count_ok
          by (intros ? ? [= <-] ?%Hinc; lia).
        eexists. split; [done|].
        destruct (adjusted_frame (Some l1) 1 db) as [-> ->].
        repeat split. intros l. rewrite cafe_count_of_adjusted. counts_cases.
      - eexists. split; [done|]. repeat split. intros l. counts_cases. }
  rewrite bool_decide_eq_false_2 by done.
  rewrite (bool_decide_eq_true_2 (is_Some _)) by eauto.
  cbn [andb].
  specialize (Hdec r0).
  destruct (decide (CafeRow.location_id r0 = l1)) as [Heq|Hne].
  - rewrite (bool_decide_eq_true_2 (Some _ = Some _)) by congruence.
    cbn [negb].
    destruct (CafeRow.is_active r0) eqn:Ha0, (Cafe.is_active self) eqn:Ha1.
    + rewrite bool_decide_eq_true_2 by done. cbn [negb].
      eexists. split; [done|]. repeat split. intros l. counts_cases.
    + rewrite bool_decide_eq_false_2 by done. cbn [negb].
      rewrite update_location_cafe_count_ok.
      2:{ intros l n [= <-] Hn. rewrite <- Heq in Hn.
          specialize (Hdec n eq_refl eq_refl Hn). lia. }
      eexists. split; [done|].
      destruct (adjusted_frame (Some l1) (-1) db) as [-> ->].
      repeat split. intros l. rewrite cafe_count_of_adjusted. counts_cases.
    + rewrite bool_decide_eq_false_2 by done. cbn [negb].
      rewrite update_location_cafe_count_ok
        by (intros ? ? [= <-] ?%Hinc; lia).
      eexists. split; [done|].
      destruct (adjusted_frame (Some l1) 1 db) as [-> ->].
      repeat split. intros l. rewrite cafe_count_of_adjusted. counts_cases.
    + rewrite bool_decide_eq_true_2 by done. cbn [negb].
      eexists. split; [done|]. repeat split. intros l. counts_cases.
  - rewrite (bool_decide_eq_false_2 (Some _ = Some _)) by congruence.
    cbn [negb]. unfold mbind, M_bind.
    destruct (CafeRow.is_active r0) eqn:Ha0.
    + rewrite bool_decide_eq_true_2 by done.
      rewrite update_location_cafe_count_ok.
      2:{ intros l n [= <-] Hn. specialize (Hdec n eq_refl eq_refl Hn). lia. }
      set (db1 := adjusted (Some (CafeRow.location_id r0)) (-1) db).
      destruct (adjusted_frame (Some (CafeRow.location_id r0)) (-1) db)
        as [Hc1 Hr1]. fold db1 in Hc1, Hr1.
      destruct (Cafe.is_active self) eqn:Ha1.
      * rewrite update_location_cafe_count_ok.
        2:{ intros l n [= <-]. subst db1. rewrite cafe_count_of_adjusted.
            rewrite bool_decide_eq_false_2 by congruence.
            destruct (cafe_count_of l1 db) as [m|] eqn:Hm; [|done].
            intros [= <-]. specialize (Hinc m eq_refl). lia. }
        eexists. split; [done|].
        destruct (adjusted_frame (Some l1) 1 db1) as [-> ->].
        repeat split; [done..|]. intros l.
        rewrite cafe_count_of_adjusted. subst db1.
        rewrite cafe_count_of_adjusted. counts_cases.
      * eexists. split; [done|]. repeat split; [done..|]. intros l.
        subst db1. rewrite cafe_count_of_adjusted. counts_cases.
    + rewrite bool_decide_eq_false_2 by done.
      unfold mret at 1; unfold M_ret at 1.
      destruct (Cafe.is_active self) eqn:Ha1.
      * rewrite update_location_cafe_count_ok
          by (intros ? ? [= <-] ?%Hinc; lia).
        eexists. split; [done|].
        destruct (adjusted_frame (Some l1) 1 db) as [-> ->].
        repeat split. intros l. rewrite cafe_count_of_adjusted. counts_cases.
      * eexists. split; [done|]. repeat split. intros l. counts_cases.
Qed.

Lemma cafe_post_delete_counts (self : Cafe.t) (db : DB) (l1 : positive) :
  Cafe.location_id self = Some l1 →
  (Cafe.is_active self = true → ∀ n, cafe_count_of l1 db = Some n → 1 ≤ n) →
  ∃ db',
    cafe_post_delete self db = (Ok tt, db')
    ∧ cafes db' = cafes db ∧ reviews db' = reviews db
    ∧ ∀ l, cafe_count_of l db'
           = (λ n, n - counts_for l (Some l1) (Cafe.is_active self))
               <$> cafe_count_of l db.
Proof.
  intros Hl1 Hdec. unfold cafe_post_delete. rewrite Hl1.
  destruct (Cafe.is_active self) eqn:Ha.
  - rewrite update_location_cafe_count_ok.
    2:{ intros l n [= <-] Hn. specialize (Hdec eq_refl n Hn). lia. }
    eexists. split; [done|].
    destruct (adjusted_frame (Some l1) (-1) db) as [-> ->].
    repeat split. intros l. rewrite cafe_count_of_adjusted. counts_cases.
  - eexists. split; [done|]. repeat split. intros l. counts_cases.
Qed.

(** ** [Cafe.save()] without [update_fields] *)

Lemma cafe_pre_save_run (self : Cafe.t) (db : DB) :
  cafe_pre_save self db
  = (Ok (Cafe.set_old (CafeRow.location_id <$> cafes db !! Cafe.pk self)
           (CafeRow.is_active <$> cafes db !! Cafe.pk self) self), db).
Proof.
  destruct (cafes db !! Cafe.pk self) as [row|] eqn:Hrow.
  - by apply cafe_pre_save_found.
  - by apply cafe_pre_save_missing.
Qed.

Lemma Model_save_Cafe_all_fields (self : Cafe.t) (db : DB) (l1 : positive)
    (avg wifi power noise coffee : Z) :
  Cafe.location_id self = Some l1 →
  is_Some (locations db !! l1) →
  (rating_values self db).1 = Ok (avg, wifi, power, noise, coffee) →
  0 ≤ Cafe.rating_count self →
  let old := cafes db !! Cafe.pk self in
  let self' := Cafe.set_old (CafeRow.location_id <$> old)
                 (CafeRow.is_active <$> old) self in
  Model_save_Cafe self all_fields db
  = (cafe_post_save self' (bool_decide (old = None));; mret self')
      (set_cafes
         (<[Cafe.pk self :=
              CafeRow.mk l1 (Cafe.is_active self) avg (Cafe.rating_count self)
                wifi power noise coffee]> (cafes db)) db).
Proof.
  intros Hl1 Hloc Hv Hcount old self'.
  unfold Model_save_Cafe.
  unfold mbind at 1; unfold M_bind at 1.
  rewrite cafe_pre_save_run. fold old. fold self'.
  unfold mbind at 1; unfold M_bind at 1.
  change (rating_values self' db) with (rating_values self db).
  pose proof (rating_values_state self db) as Hst.
  destruct (rating_values self db) as [[v'|e] db2]; cbn [fst snd] in *;
    [|discriminate].
  injection Hv as ->. subst db2.
  unfold write_cafe_row. munfold.
  change (Cafe.location_id self') with (Cafe.location_id self).
  change (Cafe.pk self') with (Cafe.pk self).
  change (Cafe.is_active self') with (Cafe.is_active self).
  change (Cafe.rating_count self') with (Cafe.rating_count self).
  rewrite Hl1. rewrite bool_decide_eq_true_2 by done.
  cbn [CafeRow.rating_count].
  destruct (Z.ltb_spec (Cafe.rating_count self) 0); [lia|].
  reflexivity.
Qed.

(** A [save()] raises before anything is written unless the object has a
    location that exists, averages that fit the columns and a count that
    is not negative. *)
Lemma Model_save_Cafe_all_fields_raises (self : Cafe.t) (db : DB) :
  (∃ e, Model_save_Cafe self all_fields db = (Raise e, db))
  ∨ (∃ l1 v,
       Cafe.location_id self = Some l1
       ∧ is_Some (locations db !! l1)
       ∧ (rating_values self db).1 = Ok v
       ∧ 0 ≤ Cafe.rating_count self).
Proof.
  destruct (Cafe.location_id self) as [l1|] eqn:Hl1;
    [destruct ((rating_values self db).1) as [v|e] eqn:Hv;
     [destruct (decide (is_Some (locations db !! l1))) as [Hloc|Hloc];
      [destruct (Z.ltb_spec (Cafe.rating_count self) 0) as [Hneg|Hcount];
       [|right; by eauto 10]|]|]|].
  all: left; unfold Model_save_Cafe.
  all: unfold mbind at 1; unfold M_bind at 1; rewrite cafe_pre_save_run.
  all: unfold mbind at 1; unfold M_bind at 1; rewrite rating_values_set_old.
  all: pose proof (rating_values_state self db) as Hst.
  all: destruct (rating_values self db) as [[v'|e'] db2]; cbn [fst snd] in *;
    subst db2; try discriminate; eauto.
  all: destruct v' as [[[[avg wifi] power] noise] coffee].
  all: unfold write_cafe_row; munfold.
  all: cbn [Cafe.location_id Cafe.set_old Cafe.rating_count
            CafeRow.rating_count]; rewrite Hl1.
  - rewrite bool_decide_eq_true_2 by done.
    destruct (Z.ltb_spec (Cafe.rating_count self) 0); [eauto|lia].
  - rewrite bool_decide_eq_false_2 by done. eauto.
  - eauto.
Qed.

(** A [save()] that gets past those checks, on counters that can take the
    adjustment: the row is written, and every counter loses what the old
    row contributed and gains what the new row contributes. *)
Lemma Cafe_save_counts (self : Cafe.t) (db : DB) (l1 : positive)
    (v : Z * Z * Z * Z * Z) :
  Cafe.location_id self = Some l1 →
  is_Some (locations db !! l1) →
  (rating_values self db).1 = Ok v →
  0 ≤ Cafe.rating_count self →
  (∀ r0 n, cafes db !! Cafe.pk self = Some r0 → CafeRow.is_active r0 = true →
           cafe_count_of (CafeRow.location_id r0) db = Some n → 1 ≤ n) →
  (∀ n, cafe_count_of l1 db = Some n → 0 ≤ n) →
  ∃ db',
    Cafe_save self all_fields db
    = (Ok (Cafe.set_old (CafeRow.location_id <$> cafes db !! Cafe.pk self)
             (CafeRow.is_active <$> cafes db !! Cafe.pk self) self), db')
    ∧ cafes db'
      = <[Cafe.pk self :=
            with_ratings v (Cafe.rating_count self)
              (CafeRow.mk l1 (Cafe.is_active self) 0 0 0 0 0 0)]> (cafes db)
    ∧ reviews db' = reviews db
    ∧ ∀ l, cafe_count_of l db'
           = (λ n, n - old_counts_for l (cafes db !! Cafe.pk self)
                     + counts_for l (Some l1) (Cafe.is_active self))
               <$> cafe_count_of l db.
Proof.
  intros Hl1 Hloc Hv Hcount Hdec Hinc.
  destruct v as [[[[avg wifi] power] noise] coffee].
  unfold Cafe_save.
  rewrite (Model_save_Cafe_all_fields _ _ l1 _ _ _ _ _ Hl1 Hloc Hv Hcount).
  set (old := cafes db !! Cafe.pk self) in *.
  set (self' := Cafe.set_old _ _ self).
  set (dbw := set_cafes _ db).
  destruct (cafe_post_save_counts self' old dbw l1 Hl1 eq_refl eq_refl)
    as (db' & Hpost & Hc & Hr & Hcounts).
  { intros r0 n Hold Ha. by apply Hdec. }
  { exact Hinc. }
  exists db'. unfold mbind, M_bind. rewrite Hpost.
  split; [done|]. split; [by rewrite Hc|]. split; [by rewrite Hr|].
  exact Hcounts.
Qed.

Lemma Cafe_delete_counts (self : Cafe.t) (db : DB) (l1 : positive) :
  Cafe.location_id self = Some l1 →
  (Cafe.is_active self = true → ∀ n, cafe_count_of l1 db = Some n → 1 ≤ n) →
  ∃ db',
    Cafe_delete self db = (Ok tt, db')
    ∧ cafes db' = delete (Cafe.pk self) (cafes db)
    ∧ ∀ l, cafe_count_of l db'
           = (λ n, n - counts_for l (Some l1) (Cafe.is_active self))
               <$> cafe_count_of l db.
Proof.
  intros Hl1 Hdec. unfold Cafe_delete, atomic. munfold.
  set (dbd := mkDB _ _ _).
  destruct (cafe_post_delete_counts self dbd l1 Hl1 Hdec)
    as (db' & -> & Hc & _ & Hcounts).
  exists db'. split; [done|]. split; [by rewrite Hc|]. exact Hcounts.
Qed.

(** ** The invariant of [Location.cafe_count] *)

Lemma active_cafes_at_split (l k : positive) (db : DB) :
  active_cafes_at l db
  = Z.of_nat (size (filter (counted_at l) (delete k (cafes db))))
    + old_counts_for l (cafes db !! k).
Proof.
  unfold active_cafes_at, old_counts_for.
  destruct (cafes db !! k) as [r0|] eqn:Hk.
  - rewrite <- indicator_counts_for with (k := k).
    by apply size_filter_lookup.
  - rewrite delete_id by done. lia.
Qed.

Lemma active_cafes_at_insert (l k : positive) (r : CafeRow.t) (db db' : DB) :
  cafes db' = <[k := r]> (cafes db) →
  active_cafes_at l db'
  = Z.of_nat (size (filter (counted_at l) (delete k (cafes db))))
    + counts_for l (Some (CafeRow.location_id r)) (CafeRow.is_active r).
Proof.
  intros Hc. unfold active_cafes_at. rewrite Hc.
  rewrite <- indicator_counts_for with (k := k).
  apply size_filter_insert.
Qed.

Lemma old_counts_for_own (r0 : CafeRow.t) :
  CafeRow.is_active r0 = true →
  old_counts_for (CafeRow.location_id r0) (Some r0) = 1.
Proof.
  intros Ha. unfold old_counts_for, counts_for. rewrite Ha.
  by rewrite bool_decide_eq_true_2.
Qed.

Lemma counts_consistent_at_least_one (db : DB) (k : positive) (r0 : CafeRow.t)
    (n : Z) :
  counts_consistent db →
  cafes db !! k = Some r0 → CafeRow.is_active r0 = true →
  cafe_count_of (CafeRow.location_id r0) db = Some n → 1 ≤ n.
Proof.
  intros Hinv Hk Ha Hn. rewrite (Hinv _ _ Hn).
  rewrite (active_cafes_at_split _ k), Hk, old_counts_for_own by done. lia.
Qed.

Lemma counts_consistent_nonneg (db : DB) (l : positive) (n : Z) :
  counts_consistent db → cafe_count_of l db = Some n → 0 ≤ n.
Proof.
  intros Hinv Hn. rewrite (Hinv _ _ Hn). unfold active_cafes_at. lia.
Qed.

Lemma Cafe_save_preserves (self : Cafe.t) (db db' : DB) (r : result Cafe.t) :
  counts_consistent db →
  Cafe_save self all_fields db = (r, db') →
  counts_consistent db'.
Proof.
  intros Hinv Hsave.
  destruct (Model_save_Cafe_all_fields_raises self db)
    as [[e He]|(l1 & v & Hl1 & Hloc & Hv & Hcount)].
  { unfold Cafe_save in Hsave. rewrite He in Hsave. by injection Hsave as _ <-. }
  destruct (Cafe_save_counts self db l1 v Hl1 Hloc Hv Hcount)
    as (db'' & Hrun & Hc & _ & Hcounts).
  { intros r0 n. by apply counts_consistent_at_least_one. }
  { intros n. by apply counts_consistent_nonneg. }
  rewrite Hrun in Hsave. injection Hsave as _ <-.
  intros l n Hn. rewrite Hcounts in Hn.
  destruct (cafe_count_of l db) as [m|] eqn:Hm; [|discriminate].
  injection Hn as <-.
  rewrite (Hinv _ _ Hm), (active_cafes_at_split l (Cafe.pk self) db).
  rewrite (active_cafes_at_insert l _ _ _ _ Hc).
  destruct v as [[[[avg wifi] power] noise] coffee].
  cbn [with_ratings CafeRow.location_id CafeRow.is_active]. lia.
Qed.

Lemma Cafe_delete_preserves (self : Cafe.t) (db db' : DB) (r : result unit) :
  counts_consistent db →
  in_sync self db →
  Cafe_delete self db = (r, db') →
  counts_consistent db'.
Proof.
  intros Hinv (r0 & Hk & Hl1 & Ha) Hdel.
  destruct (Cafe_delete_counts self db _ Hl1) as (db'' & Hrun & Hc & Hcounts).
  { rewrite Ha. intros Hact n. by apply (counts_consistent_at_least_one _ _ _ _ Hinv Hk). }
  rewrite Hrun in Hdel. injection Hdel as _ <-.
  intros l n Hn. rewrite Hcounts in Hn.
  destruct (cafe_count_of l db) as [m|] eqn:Hm; [|discriminate].
  injection Hn as <-.
  rewrite (Hinv _ _ Hm), (active_cafes_at_split l (Cafe.pk self) db), Hk.
  unfold active_cafes_at at 1. rewrite Hc. rewrite Ha.
  unfold old_counts_for. lia.
Qed.

(** One [save()] of an object whose ratings are all 0, seen from the
    counter of the object's location [l], when the row it replaces (if
    any) is at [l] too. *)
Lemma Cafe_save_own_counter (self : Cafe.t) (db : DB) (l : positive) (n : Z) :
  Cafe.location_id self = Some l →
  cafe_count_of l db = Some n →
  (rating_values self db).1 = Ok (0, 0, 0, 0, 0) →
  Cafe.rating_count self = 0 →
  (∀ r0, cafes db !! Cafe.pk self = Some r0 → CafeRow.location_id r0 = l) →
  0 ≤ n - old_counts_for l (cafes db !! Cafe.pk self) →
  ∃ db',
    Cafe_save self all_fields db
    = (Ok (Cafe.set_old (CafeRow.location_id <$> cafes db !! Cafe.pk self)
             (CafeRow.is_active <$> cafes db !! Cafe.pk self) self), db')
    ∧ cafes db' !! Cafe.pk self
      = Some (CafeRow.mk l (Cafe.is_active self) 0 0 0 0 0 0)
    ∧ cafe_count_of l db'
      = Some (n - old_counts_for l (cafes db !! Cafe.pk self)
              + counts_for l (Some l) (Cafe.is_active self)).
Proof.
  intros Hl Hn Hv Hcount Hold Hge.
  destruct (Cafe_save_counts self db l (0, 0, 0, 0, 0) Hl)
    as (db' & Hrun & Hc & _ & Hcounts).
  - unfold cafe_count_of in Hn. by destruct (locations db !! l).
  - exact Hv.
  - lia.
  - intros r0 m Hk Ha Hm. rewrite Hk in Hge.
    rewrite (Hold _ Hk) in Hm.
    rewrite <- (Hold _ Hk), old_counts_for_own in Hge by done.
    rewrite Hn in Hm. injection Hm as <-. lia.
  - intros m Hm. rewrite Hn in Hm. injection Hm as <-.
    pose proof (indicator_nonneg l (Cafe.pk self, CafeRow.mk l true 0 0 0 0 0 0)).
    destruct (cafes db !! Cafe.pk self) as [r0|]; cbn [old_counts_for] in Hge;
      [|lia].
    rewrite <- (indicator_counts_for l (Cafe.pk self)) in Hge.
    pose proof (indicator_nonneg l (Cafe.pk self, r0)). lia.
  - exists db'. split; [done|]. split.
    + rewrite Hc, lookup_insert_eq, Hcount. reflexivity.
    + by rewrite Hcounts, Hn.
Qed.

Lemma counts_for_here (l : positive) (a : bool) :
  counts_for l (Some l) a = if a then 1 else 0.
Proof.
  unfold counts_for. rewrite bool_decide_eq_true_2 by done.
  by destruct a.
Qed.

Lemma counter_scenario_holds (l k : positive) (db : DB) :
  cafe_count_of l db = Some 0 → cafes db !! k = None →
  counter_scenario l k db.
Proof.
  intros Hn Hk. unfold counter_scenario.
  (* create *)
  destruct (Cafe_save_own_counter (Cafe.new k (Some l) true) db l 0)
    as (db1 & Hrun1 & Hk1 & Hn1); try done.
  { cbn [Cafe.pk Cafe.new]. by rewrite Hk. }
  { cbn [Cafe.pk Cafe.new]. by rewrite Hk. }
  cbn [Cafe.pk Cafe.new Cafe.is_active] in Hrun1, Hk1, Hn1.
  rewrite Hk in Hrun1, Hn1. cbn in Hn1.
  rewrite ?counts_for_here in Hn1. cbn in Hn1.
  set (c1 := Cafe.set_old None None (Cafe.new k (Some l) true)) in *.
  (* deactivate *)
  destruct (Cafe_save_own_counter (Cafe.set_is_active false c1) db1 l 1)
    as (db2 & Hrun2 & Hk2 & Hn2); try done.
  { cbn [Cafe.pk Cafe.set_is_active Cafe.set_old Cafe.new c1].
    rewrite Hk1. by intros r0 [= <-]. }
  { cbn [Cafe.pk Cafe.set_is_active Cafe.set_old Cafe.new c1].
    rewrite Hk1. cbn. by rewrite counts_for_here. }
  cbn [Cafe.pk Cafe.set_is_active Cafe.set_old Cafe.new c1 Cafe.is_active]
    in Hrun2, Hk2, Hn2.
  rewrite Hk1 in Hrun2, Hn2. cbn in Hn2.
  rewrite ?counts_for_here in Hn2. cbn in Hn2.
  set (c2 := Cafe.set_old _ _ (Cafe.set_is_active false c1)) in *.
  (* reactivate *)
  destruct (Cafe_save_own_counter (Cafe.set_is_active true c2) db2 l 0)
    as (db3 & Hrun3 & Hk3 & Hn3); try done.
  { cbn [Cafe.pk Cafe.set_is_active Cafe.set_old Cafe.new c1 c2].
    rewrite Hk2. by intros r0 [= <-]. }
  { cbn [Cafe.pk Cafe.set_is_active Cafe.set_old Cafe.new c1 c2].
    rewrite Hk2. cbn. lia. }
  cbn [Cafe.pk Cafe.set_is_active Cafe.set_old Cafe.new c1 c2 Cafe.is_active]
    in Hrun3, Hk3, Hn3.
  rewrite Hk2 in Hrun3, Hn3. cbn in Hn3.
  rewrite ?counts_for_here in Hn3. cbn in Hn3.
  set (c3 := Cafe.set_old _ _ (Cafe.set_is_active true c2)) in *.
  (* delete *)
  destruct (Cafe_delete_counts c3 db3 l) as (db4 & Hrun4 & _ & Hn4); try done.
  { intros _ n. rewrite Hn3. intros [= <-]. lia. }
  specialize (Hn4 l). rewrite Hn3 in Hn4. cbn in Hn4.
  rewrite ?counts_for_here in Hn4. cbn in Hn4.
  by exists c1, db1, c2, db2, c3, db3, db4.
Qed.

(** Claim C2. When every location's [cafe_count] equals the number of its
    active cafes, it still does after any cafe mutation and its counter
    adjustment: a [save()] of a cafe object (create, activate, deactivate,
    move) or a [delete()]. In particular, at a location whose counter
    reads 0: creating an active cafe there makes it 1, deactivating the
    cafe 0, reactivating it 1, deleting it 0. *)
Theorem cafe_count_invariant (db : DB) :
  counts_consistent db →
  (∀ db', cafe_mutation db db' → counts_consistent db')
  ∧ (∀ l k, cafe_count_of l db = Some 0 → cafes db !! k = None →
            counter_scenario l k db).
Proof.
  intros Hinv. split.
  - intros db' [self r db1 Hsave|self r db1 Hsync Hdel].
    + by eapply Cafe_save_preserves.
    + by eapply Cafe_delete_preserves.
  - intros l k. apply counter_scenario_holds.
Qed.

Lemma cafe_count_invariant_witness :
  counts_consistent two_locations_db
  ∧ (∀ db', cafe_mutation two_locations_db db' → counts_consistent db')
  ∧ (∀ l k, cafe_count_of l two_locations_db = Some 0 →
            cafes two_locations_db !! k = None →
            counter_scenario l k two_locations_db).
Proof.
  assert (H : counts_consistent two_locations_db).
  { intros l n Hn. unfold active_cafes_at.
    change (cafes two_locations_db) with (∅ : gmap positive CafeRow.t).
    rewrite map_filter_empty, map_size_empty.
    unfold cafe_count_of in Hn. cbn [locations two_locations_db] in Hn.
    destruct (decide (l = 1%positive)) as [->|];
      [|destruct (decide (l = 2%positive)) as [->|]].
    - vm_compute in Hn. injection Hn as <-. reflexivity.
    - vm_compute in Hn. injection Hn as <-. reflexivity.
    - rewrite lookup_insert_ne, lookup_singleton_ne in Hn by done.
      discriminate. }
  split; [exact H|]. exact (cafe_count_invariant two_locations_db H).
Defined.

(** ** Moving a cafe between locations *)

Lemma update_location_cafe_count_inv (location_id : option positive)
    (delta : Z) (db db' : DB) (u : unit) :
  update_location_cafe_count location_id delta db = (Ok u, db') →
  db' = adjusted location_id delta db.
Proof.
  unfold update_location_cafe_count, Location_filter_update_cafe_count,
    adjusted. munfold.
  destruct location_id as [l|]; [|congruence].
  destruct (locations db !! l) as [r|]; [|congruence].
  destruct (LocationRow.cafe_count r + delta <? 0); congruence.
Qed.

Lemma move_steps_counts (a0 a : bool) (l1 l2 : positive) (db db' : DB)
    (n1 n2 : Z) :
  l1 ≠ l2 →
  cafe_count_of l1 db = Some n1 →
  cafe_count_of l2 db = Some n2 →
  ((if a0 then update_location_cafe_count (Some l1) (-1) else mret tt);;
   (if a then update_location_cafe_count (Some l2) 1 else mret tt)) db
  = (Ok tt, db') →
  cafe_count_of l1 db' = Some (if a0 then n1 - 1 else n1)
  ∧ cafe_count_of l2 db' = Some (if a then n2 + 1 else n2).
Proof.
  intros Hne Hn1 Hn2. unfold mbind, M_bind.
  assert (H1 : ∀ d, cafe_count_of l1 (adjusted (Some l1) d db) = Some (n1 + d)).
  { intros d. rewrite cafe_count_of_adjusted, Hn1.
    by rewrite bool_decide_eq_true_2. }
  assert (H2 : ∀ d, cafe_count_of l2 (adjusted (Some l1) d db) = Some n2).
  { intros d. rewrite cafe_count_of_adjusted, Hn2.
    rewrite bool_decide_eq_false_2 by congruence. cbn. f_equal. lia. }
  assert (H3 : ∀ d x m, cafe_count_of l1 x = Some m →
                        cafe_count_of l1 (adjusted (Some l2) d x) = Some m).
  { intros d x m Hm. rewrite cafe_count_of_adjusted, Hm.
    rewrite bool_decide_eq_false_2 by congruence. cbn. f_equal. lia. }
  assert (H4 : ∀ d x m, cafe_count_of l2 x = Some m →
                        cafe_count_of l2 (adjusted (Some l2) d x) = Some (m + d)).
  { intros d x m Hm. rewrite cafe_count_of_adjusted, Hm.
    by rewrite bool_decide_eq_true_2. }
  destruct a0.
  - destruct (update_location_cafe_count (Some l1) (-1) db) as [[[]|e] db1]
      eqn:Hu1; [|discriminate].
    apply update_location_cafe_count_inv in Hu1. subst db1.
    destruct a.
    + intros Hu2. apply update_location_cafe_count_inv in Hu2. subst db'.
      split; [by apply H3|by apply H4].
    + intros [= <-]. split; [apply H1|apply H2].
  - unfold mret at 1; unfold M_ret at 1. destruct a.
    + intros Hu2. apply update_location_cafe_count_inv in Hu2. subst db'.
      split; [by apply H3|by apply H4].
    + intros [= <-]. done.
Qed.

(** Claim C3. A cafe update that changes [location_id] from [l1] to another
    location [l2] and completes: the counter of [l1] has gone down by
    exactly 1 if the cafe was active before the write and is unchanged if
    not; the counter of [l2] has gone up by exactly 1 if the cafe is
    active after the write and is unchanged if not. So a cafe that is
    active throughout takes 1 from [l1] to [l2]. *)
Theorem cafe_move_adjusts_both_counts (self self' : Cafe.t) (db db' : DB)
    (r0 : CafeRow.t) (l1 l2 : positive) (n1 n2 : Z) :
  cafes db !! Cafe.pk self = Some r0 →
  CafeRow.location_id r0 = l1 →
  Cafe.location_id self = Some l2 →
  l1 ≠ l2 →
  cafe_count_of l1 db = Some n1 →
  cafe_count_of l2 db = Some n2 →
  Cafe_save self all_fields db = (Ok self', db') →
  cafe_count_of l1 db' = Some (if CafeRow.is_active r0 then n1 - 1 else n1)
  ∧ cafe_count_of l2 db' = Some (if Cafe.is_active self then n2 + 1 else n2)
  ∧ CafeRow.location_id <$> cafes db' !! Cafe.pk self = Some l2.
Proof.
  intros Hk Hr0 Hl2 Hne Hn1 Hn2 Hsave. unfold Cafe_save in Hsave.
  destruct (Model_save_Cafe_all_fields_raises self db)
    as [[e He]|(l2' & v & Hl2' & Hloc & Hv & Hcount)]; [congruence|].
  assert (l2' = l2) as -> by congruence.
  destruct v as [[[[avg wifi] power] noise] coffee].
  rewrite (Model_save_Cafe_all_fields _ _ l2 _ _ _ _ _ Hl2 Hloc Hv Hcount)
    in Hsave.
  rewrite Hk in Hsave.
  cbn [fmap option_fmap option_map] in Hsave.
  rewrite bool_decide_eq_false_2 in Hsave by done.
  set (dbw := set_cafes _ db) in Hsave.
  set (s := Cafe.set_old _ _ self) in Hsave.
  assert (Hw1 : cafe_count_of l1 dbw = Some n1) by exact Hn1.
  assert (Hw2 : cafe_count_of l2 dbw = Some n2) by exact Hn2.
  assert (Hwk : CafeRow.location_id <$> cafes dbw !! Cafe.pk self = Some l2).
  { subst dbw. cbn [cafes set_cafes]. by rewrite lookup_insert_eq. }
  clearbody dbw.
  unfold mbind, M_bind in Hsave.
  destruct (cafe_post_save s false dbw) as [[[]|e] db''] eqn:Hpost;
    [|discriminate].
  injection Hsave as _ <-.
  destruct (cafe_post_save_frame s false dbw) as [Hfc _].
  rewrite Hpost in Hfc. cbn [snd] in Hfc. rewrite Hfc.
  cut (cafe_count_of l1 db''
         = Some (if CafeRow.is_active r0 then n1 - 1 else n1)
       ∧ cafe_count_of l2 db''
         = Some (if Cafe.is_active self then n2 + 1 else n2));
    [by intros []|].
  apply (move_steps_counts _ _ l1 l2 dbw); try done.
  rewrite <- Hpost. unfold cafe_post_save.
  change (Cafe._old_location_id s) with (Some (CafeRow.location_id r0)).
  change (Cafe._old_is_active s) with (Some (CafeRow.is_active r0)).
  change (Cafe.location_id s) with (Cafe.location_id self).
  change (Cafe.is_active s) with (Cafe.is_active self).
  rewrite Hl2, Hr0.
  rewrite (bool_decide_eq_true_2 (is_Some _)) by eauto.
  rewrite (bool_decide_eq_false_2 (Some l1 = Some l2)) by congruence.
  cbn [andb negb].
  by destruct (CafeRow.is_active r0).
Qed.

Lemma cafe_move_adjusts_both_counts_witness :
  ∃ self' db',
    move 2 example_cafe active_cafe_db = (Ok self', db')
    ∧ cafe_count_of 1 db' = Some 0
    ∧ cafe_count_of 2 db' = Some 1
    ∧ CafeRow.location_id <$> cafes db' !! 7%positive = Some 2%positive.
Proof.
  eexists _, _. split; [vm_compute; reflexivity|].
  eapply (cafe_move_adjusts_both_counts
            (Cafe.set_location_id (Some 2%positive) example_cafe) _
            active_cafe_db _ example_cafe_row 1 2 1 0).
  - reflexivity.
  - reflexivity.
  - reflexivity.
  - discriminate.
  - reflexivity.
  - reflexivity.
  - vm_compute. reflexivity.
Defined.

(** Claim C7. Saving an inactive cafe with a new location while it stays
    inactive goes through, moves the row, and leaves table [locations]
    as it was: neither the old nor the new location's [cafe_count]
    changes. *)
Theorem move_inactive_cafe_keeps_counts (self : Cafe.t) (db : DB)
    (r0 : CafeRow.t) (l2 : positive) (v : Z * Z * Z * Z * Z) :
  cafes db !! Cafe.pk self = Some r0 →
  CafeRow.is_active r0 = false →
  Cafe.is_active self = false →
  Cafe.location_id self = Some l2 →
  CafeRow.location_id r0 ≠ l2 →
  is_Some (locations db !! l2) →
  (rating_values self db).1 = Ok v →
  0 ≤ Cafe.rating_count self →
  ∃ self' db',
    Cafe_save self all_fields db = (Ok self', db')
    ∧ CafeRow.location_id <$> cafes db' !! Cafe.pk self = Some l2
    ∧ CafeRow.is_active <$> cafes db' !! Cafe.pk self = Some false
    ∧ locations db' = locations db
    ∧ cafe_count_of (CafeRow.location_id r0) db'
      = cafe_count_of (CafeRow.location_id r0) db
    ∧ cafe_count_of l2 db' = cafe_count_of l2 db.
Proof.
  intros Hk Ha0 Ha Hl2 Hne Hloc Hv Hcount.
  destruct v as [[[[avg wifi] power] noise] coffee].
  unfold Cafe_save.
  rewrite (Model_save_Cafe_all_fields _ _ l2 _ _ _ _ _ Hl2 Hloc Hv Hcount).
  rewrite Hk. cbn [fmap option_fmap option_map].
  rewrite bool_decide_eq_false_2 by done.
  set (s := Cafe.set_old _ _ self).
  assert (Hpost : ∀ x, cafe_post_save s false x = (Ok tt, x)).
  { intros x. unfold cafe_post_save.
    change (Cafe._old_location_id s) with (Some (CafeRow.location_id r0)).
    change (Cafe._old_is_active s) with (Some (CafeRow.is_active r0)).
    change (Cafe.location_id s) with (Cafe.location_id self).
    change (Cafe.is_active s) with (Cafe.is_active self).
    rewrite Hl2, Ha0, Ha.
    rewrite (bool_decide_eq_true_2 (is_Some _)) by eauto.
    rewrite (bool_decide_eq_false_2 (Some _ = Some l2)) by congruence.
    cbn [andb negb].
    by rewrite (bool_decide_eq_false_2 (Some false = Some true)). }
  unfold mbind, M_bind. rewrite Hpost.
  eexists _, _. split; [reflexivity|].
  cbn [cafes set_cafes locations]. rewrite lookup_insert_eq.
  cbn [fmap option_fmap option_map CafeRow.location_id CafeRow.is_active].
  by rewrite Ha.
Qed.

Lemma move_inactive_cafe_keeps_counts_witness :
  ∃ self' db',
    move 2 (Cafe.from_db 7 inactive_cafe_row) inactive_cafe_db = (Ok self', db')
    ∧ CafeRow.location_id <$> cafes db' !! 7%positive = Some 2%positive
    ∧ CafeRow.is_active <$> cafes db' !! 7%positive = Some false
    ∧ locations db' = locations inactive_cafe_db
    ∧ cafe_count_of 1 db' = cafe_count_of 1 inactive_cafe_db
    ∧ cafe_count_of 2 db' = cafe_count_of 2 inactive_cafe_db.
Proof.
  apply (move_inactive_cafe_keeps_counts
           (Cafe.set_location_id (Some 2%positive)
              (Cafe.from_db 7 inactive_cafe_row))
           inactive_cafe_db inactive_cafe_row 2 (0, 0, 0, 0, 0)).
  - reflexivity.
  - reflexivity.
  - reflexivity.
  - reflexivity.
  - discriminate.
  - vm_compute. eauto.
  - reflexivity.
  - vm_compute. discriminate.
Defined.

(** ** What a recompute can and cannot change *)

Lemma Model_save_Cafe_rating_fields_outcome (self : Cafe.t) (db : DB) :
  (∃ e, Model_save_Cafe self rating_fields db = (Raise e, db))
  ∨ (∃ row v,
       cafes db !! Cafe.pk self = Some row
       ∧ (rating_values self db).1 = Ok v
       ∧ 0 ≤ Cafe.rating_count self).
Proof.
  destruct (cafes db !! Cafe.pk self) as [row|] eqn:Hrow.
  2:{ left. destruct (Model_save_Cafe_rating_fields_missing _ _ Hrow)
        as (e & He & _). eauto. }
  destruct ((rating_values self db).1) as [v|e] eqn:Hv;
    [destruct (Z.ltb_spec (Cafe.rating_count self) 0) as [Hneg|Hcount];
     [|right; by eauto 10]|].
  all: left; unfold Model_save_Cafe.
  all: unfold mbind at 1; unfold M_bind at 1; rewrite cafe_pre_save_run.
  all: unfold mbind at 1; unfold M_bind at 1; rewrite rating_values_set_old.
  all: pose proof (rating_values_state self db) as Hst.
  all: destruct (rating_values self db) as [[v'|e'] db2]; cbn [fst snd] in *;
    subst db2; try discriminate; eauto.
  destruct v' as [[[[avg wifi] power] noise] coffee].
  unfold write_cafe_row; munfold.
  cbn [Cafe.pk Cafe.set_old Cafe.rating_count CafeRow.rating_count].
  rewrite Hrow.
  destruct (Z.ltb_spec (Cafe.rating_count self) 0); [eauto|lia].
Qed.

(** A recompute never touches table [reviews], whatever its outcome. *)
Lemma update_rating_stats_reviews (self : Cafe.t) (db : DB) :
  reviews (update_rating_stats self db).2 = reviews db.
Proof.
  rewrite update_rating_stats_unfold.
  set (s := with_stats _ self).
  destruct (Model_save_Cafe_rating_fields_outcome s db)
    as [[e ->]|(row & v & Hrow & Hv & Hcount)]; [done|].
  rewrite (Model_save_Cafe_rating_fields _ _ row v Hrow Hv Hcount).
  unfold mbind, M_bind.
  set (s' := Cafe.set_old _ _ s). set (dbw := set_cafes _ db).
  destruct (cafe_post_save_frame s' false dbw) as [_ Hr].
  by destruct (cafe_post_save s' false dbw) as [[[]|?] ?].
Qed.

(** A recompute that returns has rewritten the six rating columns of the
    cafe's row and nothing else in tables [cafes] and [reviews]. *)
Lemma update_rating_stats_inv (self self1 : Cafe.t) (db db1 : DB) :
  update_rating_stats self db = (Ok self1, db1) →
  ∃ row v n,
    cafes db !! Cafe.pk self = Some row
    ∧ cafes db1 = <[Cafe.pk self := with_ratings v n row]> (cafes db)
    ∧ reviews db1 = reviews db
    ∧ Cafe.pk self1 = Cafe.pk self.
Proof.
  intros Hrun.
  pose proof (update_rating_stats_reviews self db) as Hrev.
  rewrite Hrun in Hrev. cbn [snd] in Hrev.
  rewrite update_rating_stats_unfold in Hrun.
  set (s := with_stats _ self) in *.
  destruct (Model_save_Cafe_rating_fields_inv _ _ _ _ Hrun)
    as (row & v & Hrow & Hv & Hcount).
  rewrite (Model_save_Cafe_rating_fields _ _ row v Hrow Hv Hcount) in Hrun.
  unfold mbind, M_bind in Hrun.
  set (s' := Cafe.set_old _ _ s) in *. set (dbw := set_cafes _ db) in *.
  destruct (cafe_post_save_frame s' false dbw) as [Hc _].
  destruct (cafe_post_save s' false dbw) as [[[]|?] db2]; [|discriminate].
  injection Hrun as <- <-. cbn [snd] in Hc.
  exists row, v, (Cafe.rating_count s). by rewrite Hc.
Qed.

Lemma with_ratings_is_active (v : Z * Z * Z * Z * Z) (n : Z) (r : CafeRow.t) :
  CafeRow.is_active (with_ratings v n r) = CafeRow.is_active r
  ∧ CafeRow.location_id (with_ratings v n r) = CafeRow.location_id r.
Proof. by destruct v as [[[[? ?] ?] ?] ?]. Qed.

(** ** Creating a review *)

Lemma get_cafe_run (cafe_slug : positive) (db : DB) (row : CafeRow.t) :
  cafes db !! cafe_slug = Some row → CafeRow.is_active row = true →
  get_cafe cafe_slug db = (Ok (Cafe.from_db cafe_slug row), db).
Proof. intros Hrow Ha. unfold get_cafe. munfold. by rewrite Hrow, Ha. Qed.

Lemma get_cafe_inv (cafe_slug : positive) (db db' : DB) (cafe : Cafe.t) :
  get_cafe cafe_slug db = (Ok cafe, db') →
  db' = db
  ∧ ∃ row, cafes db !! cafe_slug = Some row ∧ CafeRow.is_active row = true
           ∧ cafe = Cafe.from_db cafe_slug row.
Proof.
  unfold get_cafe. munfold.
  destruct (cafes db !! cafe_slug) as [row|]; [|discriminate].
  destruct (CafeRow.is_active row) eqn:Ha; [|discriminate].
  intros [= <- <-]. eauto.
Qed.

Lemma get_cafe_state (cafe_slug : positive) (db : DB) :
  (get_cafe cafe_slug db).2 = db.
Proof.
  unfold get_cafe. munfold.
  destruct (cafes db !! cafe_slug) as [row|]; [|done].
  by destruct (CafeRow.is_active row).
Qed.

Lemma validate_fields_exn (data : ReviewData.t) (e : exn) :
  validate_fields data = Raise e → e = ValidationError.
Proof.
  unfold validate_fields.
  repeat match goal with
         | |- context [match ?x with _ => _ end] => destruct x
         end; congruence.
Qed.

Lemma is_valid_state (user : User.t) (cafe : Cafe.t) (data : ReviewData.t)
    (db : DB) :
  (ReviewCreateSerializer_is_valid user cafe data db).2 = db.
Proof.
  unfold ReviewCreateSerializer_is_valid, ReviewCreateSerializer_validate.
  munfold. destruct (validate_fields data); [|done].
  by destruct (Review_exists _ _ db).
Qed.

(** With a row for the pair in the table, whatever its [is_active],
    validation turns the request down. *)
Lemma is_valid_rejects_existing (user : User.t) (cafe : Cafe.t)
    (data : ReviewData.t) (db : DB) :
  Review_exists (User.id user) (Cafe.pk cafe) db = true →
  ReviewCreateSerializer_is_valid user cafe data db
  = (Raise ValidationError, db).
Proof.
  intros Hex.
  unfold ReviewCreateSerializer_is_valid, ReviewCreateSerializer_validate.
  munfold. destruct (validate_fields data) as [attrs|e] eqn:Hf.
  - by rewrite Hex.
  - by rewrite (validate_fields_exn _ _ Hf).
Qed.

Lemma is_valid_inv (user : User.t) (cafe : Cafe.t) (data : ReviewData.t)
    (db db' : DB) (attrs : ValidatedData.t) :
  ReviewCreateSerializer_is_valid user cafe data db = (Ok attrs, db') →
  db' = db ∧ Review_exists (User.id user) (Cafe.pk cafe) db = false.
Proof.
  unfold ReviewCreateSerializer_is_valid, ReviewCreateSerializer_validate.
  munfold. destruct (validate_fields data); [|discriminate].
  destruct (Review_exists _ _ db); [discriminate|].
  by intros [= <- <-].
Qed.

Lemma Review_exists_true (user cafe k : positive) (r : ReviewRow.t) (db : DB) :
  reviews db !! k = Some r →
  ReviewRow.user_id r = user → ReviewRow.cafe_id r = cafe →
  Review_exists user cafe db = true.
Proof.
  intros Hk Hu Hc. unfold Review_exists.
  apply bool_decide_eq_true_2. by exists k, r.
Qed.

Lemma create_rejects_existing (id : positive) (user : User.t)
    (cafe_slug : positive) (data : ReviewData.t) (db : DB) (row : CafeRow.t) :
  cafes db !! cafe_slug = Some row → CafeRow.is_active row = true →
  Review_exists (User.id user) cafe_slug db = true →
  CafeReviewViewSet_create id (Some user) cafe_slug data db
  = (Raise ValidationError, db)
  ∧ rejected_by_validation user cafe_slug data db.
Proof.
  intros Hrow Ha Hex.
  assert (Hvalid : ReviewCreateSerializer_is_valid user
                     (Cafe.from_db cafe_slug row) data db
                   = (Raise ValidationError, db))
    by by apply is_valid_rejects_existing.
  split.
  - unfold CafeReviewViewSet_create, check_authenticated.
    unfold mbind at 1; unfold M_bind at 1. unfold mret at 1; unfold M_ret at 1.
    unfold mbind at 1; unfold M_bind at 1. rewrite (get_cafe_run _ _ _ Hrow Ha).
    unfold mbind at 1; unfold M_bind at 1. by rewrite Hvalid.
  - exists (Cafe.from_db cafe_slug row). split; [by apply get_cafe_run|done].
Qed.

Lemma write_review_row_outcome (k : positive) (r : ReviewRow.t) (db : DB) :
  (∃ e, write_review_row k r db = (Raise e, db))
  ∨ (¬ unique_together_taken k r (reviews db)
     ∧ write_review_row k r db
       = (Ok tt, set_reviews (<[k := r]> (reviews db)) db)).
Proof.
  unfold write_review_row. munfold.
  destruct (bool_decide (cafes db !! ReviewRow.cafe_id r = None)); [eauto|].
  case_bool_decide; [eauto|].
  destruct (ratings_nonnegative r); cbn [negb]; eauto.
Qed.

Lemma Model_save_Review_force_insert_outcome (self : Review.t) (db : DB) :
  (∃ e, Model_save_Review self force_insert db = (Raise e, db))
  ∨ (reviews db !! Review.pk self = None
     ∧ ¬ unique_together_taken (Review.pk self) (Review.fields self)
           (reviews db)
     ∧ Model_save_Review self force_insert db
       = (Ok tt, set_reviews (<[Review.pk self := Review.fields self]>
                                (reviews db)) db)).
Proof.
  unfold Model_save_Review. munfold.
  destruct (decide (is_Some (reviews db !! Review.pk self))) as [Hk|Hk].
  { left. rewrite bool_decide_eq_true_2 by done. by eexists. }
  rewrite bool_decide_eq_false_2 by done.
  destruct (write_review_row_outcome (Review.pk self) (Review.fields self) db)
    as [[e He]|[Hu Hw]]; [eauto|].
  right. split; [|split; [exact Hu|exact Hw]].
  destruct (reviews db !! Review.pk self); [|done]. by destruct Hk.
Qed.

(** The rows of table [reviews] after a create request, whatever its
    outcome: as before, or with one new row whose pair was free. *)
Lemma create_reviews_outcome (id : positive) (user : option User.t)
    (cafe_slug : positive) (data : ReviewData.t) (db db' : DB)
    (r : result Review.t) :
  CafeReviewViewSet_create id user cafe_slug data db = (r, db') →
  reviews db' = reviews db
  ∨ ∃ row, reviews db' = <[id := row]> (reviews db)
           ∧ reviews db !! id = None
           ∧ ¬ unique_together_taken id row (reviews db).
Proof.
  unfold CafeReviewViewSet_create, check_authenticated.
  destruct user as [user|]; [|intros [= <- <-]; by left].
  unfold mbind at 1; unfold M_bind at 1. unfold mret at 1; unfold M_ret at 1.
  unfold mbind at 1; unfold M_bind at 1.
  pose proof (get_cafe_state cafe_slug db) as Hg.
  destruct (get_cafe cafe_slug db) as [[cafe|e] db1]; cbn [snd] in Hg; subst db1;
    [|intros [= <- <-]; by left].
  unfold mbind at 1; unfold M_bind at 1.
  pose proof (is_valid_state user cafe data db) as Hv.
  destruct (ReviewCreateSerializer_is_valid user cafe data db)
    as [[attrs|e] db1]; cbn [snd] in Hv; subst db1;
    [|intros [= <- <-]; by left].
  unfold ReviewCreateSerializer_create, Review_save.
  set (self := Review.mk id _ (Some cafe)).
  unfold mbind at 1; unfold M_bind at 1.
  destruct (Model_save_Review_force_insert_outcome self db)
    as [[e ->]|(Hk & Hu & ->)]; [intros [= <- <-]; by left|].
  unfold Review_update_cafe, Review_get_cafe. cbn [Review.cafe self].
  unfold mbind at 1; unfold M_bind at 1. unfold mret at 1; unfold M_ret at 1.
  unfold mbind at 1; unfold M_bind at 1.
  set (dbr := set_reviews _ db).
  pose proof (update_rating_stats_reviews cafe dbr) as Hr.
  intros Hrun. right. exists (Review.fields self).
  split; [|split; [exact Hk|exact Hu]].
  destruct (update_rating_stats cafe dbr) as [[?|?] ?]; cbn [snd] in Hr;
    injection Hrun as _ <-; by rewrite Hr.
Qed.

Lemma unique_pairs_insert (id : positive) (row : ReviewRow.t) (db db' : DB) :
  unique_pairs db →
  reviews db' = <[id := row]> (reviews db) →
  ¬ unique_together_taken id row (reviews db) →
  unique_pairs db'.
Proof.
  intros Huniq Hr Hfree k1 k2 r1 r2. rewrite Hr.
  rewrite !lookup_insert_Some.
  intros [[<- <-]|[Hne1 Hk1]] [[<- <-]|[Hne2 Hk2]] Hu Hc; try done.
  - destruct Hfree. exists k2, r2. by repeat split.
  - destruct Hfree. exists k1, r1. by repeat split.
  - by eapply Huniq.
Qed.

Lemma create_preserves_unique_pairs (id : positive) (user : option User.t)
    (cafe_slug : positive) (data : ReviewData.t) (db : DB) :
  unique_pairs db →
  unique_pairs (CafeReviewViewSet_create id user cafe_slug data db).2.
Proof.
  intros Huniq.
  destruct (CafeReviewViewSet_create id user cafe_slug data db) as [r db']
    eqn:Hrun.
  destruct (create_reviews_outcome _ _ _ _ _ _ _ Hrun)
    as [Hr|(row & Hr & _ & Hfree)]; cbn [snd].
  - intros k1 k2 r1 r2. rewrite Hr. apply Huniq.
  - by eapply unique_pairs_insert.
Qed.

(** What a create request that went through has done. *)
Lemma create_inv (id : positive) (user : User.t) (cafe_slug : positive)
    (data : ReviewData.t) (db db1 : DB) (review : Review.t) :
  CafeReviewViewSet_create id (Some user) cafe_slug data db = (Ok review, db1) →
  ∃ row1 new,
    cafes db1 !! cafe_slug = Some row1
    ∧ CafeRow.is_active row1 = true
    ∧ reviews db1 !! id = Some new
    ∧ ReviewRow.user_id new = User.id user
    ∧ ReviewRow.cafe_id new = cafe_slug.
Proof.
  unfold CafeReviewViewSet_create, check_authenticated.
  unfold mbind at 1; unfold M_bind at 1. unfold mret at 1; unfold M_ret at 1.
  unfold mbind at 1; unfold M_bind at 1.
  destruct (get_cafe cafe_slug db) as [[cafe|e] db0] eqn:Hg; [|discriminate].
  apply get_cafe_inv in Hg as (-> & row & Hrow & Ha & ->).
  unfold mbind at 1; unfold M_bind at 1.
  destruct (ReviewCreateSerializer_is_valid user _ data db)
    as [[attrs|e] db0] eqn:Hv; [|discriminate].
  apply is_valid_inv in Hv as (-> & _).
  unfold ReviewCreateSerializer_create, Review_save.
  set (self := Review.mk id _ (Some (Cafe.from_db cafe_slug row))).
  unfold mbind at 1; unfold M_bind at 1.
  destruct (Model_save_Review_force_insert_outcome self db)
    as [[e ->]|(Hk & Hu & ->)]; [discriminate|].
  unfold Review_update_cafe, Review_get_cafe. cbn [Review.cafe self].
  unfold mbind at 1; unfold M_bind at 1. unfold mret at 1; unfold M_ret at 1.
  unfold mbind at 1; unfold M_bind at 1.
  set (dbr := set_reviews _ db).
  destruct (update_rating_stats (Cafe.from_db cafe_slug row) dbr)
    as [[cafe1|e] db2] eqn:Hu1; [|discriminate].
  intros [= <- <-].
  apply update_rating_stats_inv in Hu1 as (row' & v & n & Hrow' & Hc & Hr & _).
  cbn [Cafe.pk Cafe.from_db] in Hrow', Hc.
  assert (row' = row) as -> by (cbn in Hrow'; congruence).
  exists (with_ratings v n row), (Review.fields self).
  rewrite Hc, Hr, lookup_insert_eq.
  destruct (with_ratings_is_active v n row) as [-> _].
  repeat split; [done|]. subst dbr. cbn [reviews set_reviews Review.pk self].
  by rewrite lookup_insert_eq.
Qed.

(** Claim C8. A create request leaves table [reviews] with at most one
    row per (user, cafe) pair, whatever its outcome. After one that went
    through, every further create request of the same user for the same
    cafe is turned down with a ValidationError by [serializer.is_valid],
    before [serializer.save] and the recompute it leads to; the database
    stays as it was. *)
Theorem second_review_is_rejected (id : positive) (user : User.t)
    (cafe_slug : positive) (data : ReviewData.t) (db db1 : DB)
    (r : result Review.t) :
  unique_pairs db →
  CafeReviewViewSet_create id (Some user) cafe_slug data db = (r, db1) →
  unique_pairs db1
  ∧ ∀ review, r = Ok review →
      ∀ id' data',
        CafeReviewViewSet_create id' (Some user) cafe_slug data' db1
        = (Raise ValidationError, db1)
        ∧ rejected_by_validation user cafe_slug data' db1.
Proof.
  intros Huniq Hrun. split.
  - pose proof (create_preserves_unique_pairs id (Some user) cafe_slug data db
                  Huniq) as H.
    by rewrite Hrun in H.
  - intros review -> id' data'.
    destruct (create_inv _ _ _ _ _ _ _ Hrun)
      as (row1 & new & Hrow1 & Ha & Hnew & Hu & Hc).
    apply (create_rejects_existing _ _ _ _ _ row1); [done..|].
    by eapply Review_exists_true.
Qed.

Lemma second_review_is_rejected_witness :
  ∃ review db1,
    CafeReviewViewSet_create 11 (Some example_user) 7 example_data
      active_cafe_db = (Ok review, db1)
    ∧ unique_pairs db1
    ∧ ∀ id' data',
        CafeReviewViewSet_create id' (Some example_user) 7 data' db1
        = (Raise ValidationError, db1)
        ∧ rejected_by_validation example_user 7 data' db1.
Proof.
  destruct (CafeReviewViewSet_create 11 (Some example_user) 7 example_data
              active_cafe_db) as [r db1] eqn:Hrun.
  assert (Hunique : unique_pairs active_cafe_db).
  { intros k1 k2 r1 r2 H1. cbn in H1. by rewrite lookup_empty in H1. }
  destruct (second_review_is_rejected _ _ _ _ _ _ _ Hunique Hrun) as [H1 H2].
  vm_compute in Hrun. injection Hrun as <- <-.
  eexists _, _. split; [reflexivity|].
  split; [exact H1|exact (H2 _ eq_refl)].
Defined.

(** ** Soft-deleting a review *)

Lemma filter_none {A} (P : A → Prop) `{!∀ x, Decision (P x)} (l : list A) :
  (∀ x, x ∈ l → ¬ P x) → filter P l = [].
Proof.
  induction l as [|x l IH]; intros Hnone; [done|].
  rewrite filter_cons_False by (apply Hnone; left).
  apply IH. intros y Hy. apply Hnone. by right.
Qed.

Lemma active_reviews_nil (k : positive) (db : DB) :
  (∀ pk r, reviews db !! pk = Some r → ¬ active_review k r) →
  active_reviews k db = [].
Proof.
  intros Hnone. unfold active_reviews. apply filter_none.
  intros r [[pk r'] [-> Hin]]%list_elem_of_fmap.
  apply elem_of_map_to_list in Hin. by eapply Hnone.
Qed.

(** The recompute for a cafe without active reviews writes six zeros. *)
Lemma update_rating_stats_no_reviews (self : Cafe.t) (db : DB)
    (row : CafeRow.t) :
  cafes db !! Cafe.pk self = Some row →
  Cafe.location_id self = Some (CafeRow.location_id row) →
  Cafe.is_active self = CafeRow.is_active row →
  active_reviews (Cafe.pk self) db = [] →
  update_rating_stats self db
  = (Ok (Cafe.set_old (Some (CafeRow.location_id row))
           (Some (CafeRow.is_active row)) (with_stats [] self)),
     set_cafes
       (<[Cafe.pk self :=
            CafeRow.mk (CafeRow.location_id row) (CafeRow.is_active row)
              0 0 0 0 0 0]> (cafes db)) db).
Proof.
  intros Hrow Hloc Hact Hnil.
  rewrite (update_rating_stats_valid self db row Hrow Hloc Hact)
    by (rewrite Hnil; constructor).
  by rewrite Hnil.
Qed.

Lemma get_object_run (user : User.t) (cafe_slug pk : positive) (db : DB)
    (row : CafeRow.t) (r : ReviewRow.t) :
  cafes db !! cafe_slug = Some row → CafeRow.is_active row = true →
  reviews db !! pk = Some r → active_review cafe_slug r →
  has_object_permission user r = true →
  get_object user cafe_slug pk db = (Ok (Review.mk pk r None), db).
Proof.
  intros Hrow Ha Hr Hactive Hperm. unfold get_object.
  unfold mbind at 1; unfold M_bind at 1. rewrite (get_cafe_run _ _ _ Hrow Ha).
  munfold. rewrite Hr. cbn [Cafe.pk Cafe.from_db].
  by rewrite bool_decide_eq_true_2, Hperm.
Qed.

Lemma get_object_inv (user : User.t) (cafe_slug pk : positive) (db db' : DB)
    (instance : Review.t) :
  get_object user cafe_slug pk db = (Ok instance, db') →
  db' = db
  ∧ ∃ row r,
      cafes db !! cafe_slug = Some row ∧ CafeRow.is_active row = true
      ∧ reviews db !! pk = Some r ∧ active_review cafe_slug r
      ∧ instance = Review.mk pk r None.
Proof.
  unfold get_object. unfold mbind at 1; unfold M_bind at 1.
  destruct (get_cafe cafe_slug db) as [[cafe|e] db0] eqn:Hg; [|discriminate].
  apply get_cafe_inv in Hg as (-> & row & Hrow & Ha & ->).
  munfold. destruct (reviews db !! pk) as [r|]; [|discriminate].
  cbn [Cafe.pk Cafe.from_db].
  case_bool_decide; [|discriminate].
  destruct (has_object_permission user r); [|discriminate].
  intros [= <- <-]. split; [done|]. by exists row, r.
Qed.

(** Claim C6. A cafe has exactly one active review. When its author (or an
    admin) deletes it through the API, the request goes through; the
    cafe's row then holds 0 in all five averages and in [rating_count];
    the review's row is still there, with [is_active] false, and no other
    review row has changed. *)
Theorem soft_delete_only_review_zeroes_ratings (user : User.t)
    (cafe_slug pk : positive) (db : DB) (row : CafeRow.t) (r : ReviewRow.t) :
  cafes db !! cafe_slug = Some row →
  CafeRow.is_active row = true →
  only_active_review cafe_slug pk r db →
  has_object_permission user r = true →
  ∃ db' row',
    CafeReviewViewSet_destroy (Some user) cafe_slug pk db = (Ok tt, db')
    ∧ cafes db' !! cafe_slug = Some row'
    ∧ ratings_all_zero row'
    ∧ reviews db' = <[pk := ReviewRow.set_is_active false r]> (reviews db).
Proof.
  intros Hrow Ha (Hr & Hactive & Honly) Hperm.
  unfold CafeReviewViewSet_destroy, check_authenticated.
  unfold mbind at 1; unfold M_bind at 1. unfold mret at 1; unfold M_ret at 1.
  unfold mbind at 1; unfold M_bind at 1.
  rewrite (get_object_run _ _ _ _ _ _ Hrow Ha Hr Hactive Hperm).
  cbn [Review.pk Review.fields Review.cafe].
  (* instance.save(update_fields=["is_active"]) *)
  unfold Review_save, Model_save_Review.
  unfold mbind at 1; unfold M_bind at 1.
  unfold mbind at 1; unfold M_bind at 1.
  unfold mbind at 1; unfold M_bind at 1. unfold get_db at 1.
  cbn [Review.pk Review.fields]. rewrite Hr. unfold put_db at 1.
  set (r' := ReviewRow.set_is_active false r).
  change (ReviewRow.set_is_active (ReviewRow.is_active r') r) with r'.
  set (dba := set_reviews (<[pk := r']> (reviews db)) db).
  assert (Hnil : ∀ x, reviews x = reviews dba → active_reviews cafe_slug x = []).
  { intros x Hx. apply active_reviews_nil. intros pk' r0. rewrite Hx.
    subst dba. cbn [reviews set_reviews]. rewrite lookup_insert_Some.
    intros [[<- <-]|[Hne Hr0]] Hact0.
    - destruct Hact0 as [_ Hact0]. by subst r'.
    - by apply Hne, eq_sym, (Honly _ _ Hr0). }
  destruct Hactive as [Hcafe _].
  (* the recompute inside Review.save *)
  unfold Review_update_cafe, Review_get_cafe, Cafe_objects_get.
  cbn [Review.cafe Review.fields Review.pk].
  change (ReviewRow.cafe_id r') with (ReviewRow.cafe_id r). rewrite Hcafe.
  unfold mbind at 1; unfold M_bind at 1.
  unfold mbind at 1; unfold M_bind at 1.
  unfold mbind at 1; unfold M_bind at 1. unfold get_db at 1.
  change (cafes dba) with (cafes db). rewrite Hrow.
  unfold mret at 1; unfold M_ret at 1.
  unfold mbind at 1; unfold M_bind at 1.
  rewrite (update_rating_stats_no_reviews (Cafe.from_db cafe_slug row) dba row)
    by (try done; by apply Hnil).
  cbn [Cafe.pk Cafe.from_db].
  set (cafe1 := Cafe.set_old _ _ _).
  set (row1 := CafeRow.mk _ _ 0 0 0 0 0 0).
  set (dbb := set_cafes _ dba).
  unfold mret at 1; unfold M_ret at 1.
  (* the recompute in the view *)
  unfold mbind at 1; unfold M_bind at 1. unfold mret at 1; unfold M_ret at 1.
  unfold mbind at 1; unfold M_bind at 1.
  cbn [Review.cafe Review.fields Review.pk].
  rewrite (update_rating_stats_no_reviews cafe1 dbb row1).
  - eexists _, _. split; [reflexivity|].
    cbn [cafes set_cafes reviews Cafe.pk cafe1 Cafe.set_old with_stats
         Cafe.set_ratings Cafe.from_db].
    rewrite lookup_insert_eq. split; [reflexivity|]. split; [|done].
    by repeat split.
  - subst dbb. cbn [cafes set_cafes Cafe.pk cafe1 Cafe.set_old with_stats
                    Cafe.set_ratings Cafe.from_db].
    by rewrite lookup_insert_eq.
  - reflexivity.
  - reflexivity.
  - by apply Hnil.
Qed.

Lemma soft_delete_only_review_zeroes_ratings_witness :
  ∃ db' row',
    CafeReviewViewSet_destroy (Some example_user) 7 11 one_review_db
    = (Ok tt, db')
    ∧ cafes db' !! 7%positive = Some row'
    ∧ ratings_all_zero row'
    ∧ reviews db'
      = <[11%positive := ReviewRow.set_is_active false review_5_5]>
          (reviews one_review_db).
Proof.
  apply (soft_delete_only_review_zeroes_ratings example_user 7 11
           one_review_db (CafeRow.mk 1 true 500 1 500 0 0 0) review_5_5).
  - reflexivity.
  - reflexivity.
  - split; [reflexivity|]. split; [split; reflexivity|].
    intros pk' r' Hr' _. cbn in Hr'.
    apply lookup_singleton_Some in Hr'. by destruct Hr'.
  - reflexivity.
Defined.

(** Claim C9. The existence check of [ReviewCreateSerializer.validate] looks
    at the pair only: when table [reviews] has a row for (user, cafe),
    whatever its [is_active], a create request of that user for that cafe
    is turned down with a ValidationError and the database stays as it
    was. *)
Theorem existing_review_blocks_create (id k : positive) (author : User.t)
    (cafe_slug : positive) (data : ReviewData.t) (db : DB)
    (r : ReviewRow.t) (row : CafeRow.t) :
  reviews db !! k = Some r →
  ReviewRow.user_id r = User.id author →
  ReviewRow.cafe_id r = cafe_slug →
  cafes db !! cafe_slug = Some row →
  CafeRow.is_active row = true →
  CafeReviewViewSet_create id (Some author) cafe_slug data db
  = (Raise ValidationError, db)
  ∧ rejected_by_validation author cafe_slug data db.
Proof.
  intros Hr Hu Hc Hrow Ha.
  apply (create_rejects_existing _ _ _ _ _ row); [done..|].
  by eapply Review_exists_true.
Qed.

(** The soft-deleted review of the example still blocks its author. *)
Lemma existing_review_blocks_create_witness :
  reviews one_review_db_deleted !! 11%positive
  = Some (ReviewRow.set_is_active false review_5_5)
  ∧ CafeReviewViewSet_create 12 (Some example_user) 7 example_data
      one_review_db_deleted
    = (Raise ValidationError, one_review_db_deleted)
  ∧ rejected_by_validation example_user 7 example_data one_review_db_deleted.
Proof.
  split; [vm_compute; reflexivity|].
  apply (existing_review_blocks_create 12 11 example_user 7 example_data
           one_review_db_deleted (ReviewRow.set_is_active false review_5_5)
           (CafeRow.mk 1 true 0 0 0 0 0 0)).
  - vm_compute. reflexivity.
  - reflexivity.
  - reflexivity.
  - vm_compute. reflexivity.
  - reflexivity.
Defined.

(** The same for any soft delete that went through: the author cannot
    create a replacement. *)
Lemma soft_deleted_review_blocks_replacement (user author : User.t)
    (cafe_slug pk id : positive) (data : ReviewData.t) (db db1 : DB)
    (r : ReviewRow.t) :
  reviews db !! pk = Some r →
  ReviewRow.user_id r = User.id author →
  CafeReviewViewSet_destroy (Some user) cafe_slug pk db = (Ok tt, db1) →
  reviews db1 !! pk = Some (ReviewRow.set_is_active false r)
  ∧ CafeReviewViewSet_create id (Some author) cafe_slug data db1
    = (Raise ValidationError, db1).
Proof.
  intros Hr Hu. unfold CafeReviewViewSet_destroy, check_authenticated.
  unfold mbind at 1; unfold M_bind at 1. unfold mret at 1; unfold M_ret at 1.
  unfold mbind at 1; unfold M_bind at 1.
  destruct (get_object user cafe_slug pk db) as [[instance|e] db0] eqn:Hg;
    [|discriminate].
  apply get_object_inv in Hg
    as (-> & row & r0 & Hrow & Ha & Hr0 & [Hcafe Hact] & ->).
  assert (r0 = r) as -> by congruence.
  cbn [Review.pk Review.fields Review.cafe].
  unfold Review_save, Model_save_Review.
  unfold mbind at 1; unfold M_bind at 1.
  unfold mbind at 1; unfold M_bind at 1.
  unfold mbind at 1; unfold M_bind at 1. unfold get_db at 1.
  cbn [Review.pk Review.fields]. rewrite Hr. unfold put_db at 1.
  set (r' := ReviewRow.set_is_active false r).
  change (ReviewRow.set_is_active (ReviewRow.is_active r') r) with r'.
  set (dba := set_reviews (<[pk := r']> (reviews db)) db).
  unfold Review_update_cafe, Review_get_cafe, Cafe_objects_get.
  cbn [Review.cafe Review.fields Review.pk].
  change (ReviewRow.cafe_id r') with (ReviewRow.cafe_id r). rewrite Hcafe.
  unfold mbind at 1; unfold M_bind at 1.
  unfold mbind at 1; unfold M_bind at 1.
  unfold mbind at 1; unfold M_bind at 1. unfold get_db at 1.
  change (cafes dba) with (cafes db). rewrite Hrow.
  unfold mret at 1; unfold M_ret at 1.
  unfold mbind at 1; unfold M_bind at 1.
  destruct (update_rating_stats (Cafe.from_db cafe_slug row) dba)
    as [[cafe1|e] dbb] eqn:Hu1; [|discriminate].
  apply update_rating_stats_inv in Hu1
    as (row0 & v & n & Hrow0 & Hc1 & Hr1 & Hpk1).
  cbn [Cafe.pk Cafe.from_db] in Hrow0, Hc1, Hpk1.
  assert (row0 = row) as -> by (cbn in Hrow0; congruence).
  unfold mret at 1; unfold M_ret at 1.
  unfold mbind at 1; unfold M_bind at 1. unfold mret at 1; unfold M_ret at 1.
  unfold mbind at 1; unfold M_bind at 1.
  cbn [Review.cafe Review.fields Review.pk].
  destruct (update_rating_stats cafe1 dbb) as [[cafe2|e] dbc] eqn:Hu2;
    [|discriminate].
  apply update_rating_stats_inv in Hu2
    as (row1 & v2 & n2 & Hrow1 & Hc2 & Hr2 & _).
  intros [= <-].
  assert (Hpk : reviews dbc !! pk = Some r').
  { rewrite Hr2, Hr1. subst dba. cbn [reviews set_reviews].
    by rewrite lookup_insert_eq. }
  split; [exact Hpk|].
  apply (create_rejects_existing id author cafe_slug data dbc
           (with_ratings v2 n2 row1)).
  - by rewrite Hc2, Hpk1, lookup_insert_eq.
  - destruct (with_ratings_is_active v2 n2 row1) as [-> _].
    rewrite Hpk1, Hc1, lookup_insert_eq in Hrow1. injection Hrow1 as <-.
    by destruct (with_ratings_is_active v n row) as [-> _].
  - by apply (Review_exists_true _ _ pk r').
Qed.

(** ** The recompute, whenever it returns *)

Lemma update_rating_stats_inv_values (self self1 : Cafe.t) (db db1 : DB) :
  update_rating_stats self db = (Ok self1, db1) →
  let rows := active_reviews (Cafe.pk self) db in
  ∃ row v,
    cafes db !! Cafe.pk self = Some row
    ∧ (rating_values (with_stats rows self) db).1 = Ok v
    ∧ cafes db1 = <[Cafe.pk self := with_ratings v (Count rows) row]> (cafes db)
    ∧ reviews db1 = reviews db
    ∧ self1 = Cafe.set_old (Some (CafeRow.location_id row))
                (Some (CafeRow.is_active row)) (with_stats rows self).
Proof.
  intros Hrun rows.
  pose proof (update_rating_stats_reviews self db) as Hrev.
  rewrite Hrun in Hrev. cbn [snd] in Hrev.
  rewrite update_rating_stats_unfold in Hrun. fold rows in Hrun.
  destruct (Model_save_Cafe_rating_fields_inv _ _ _ _ Hrun)
    as (row & v & Hrow & Hv & Hcount).
  rewrite (Model_save_Cafe_rating_fields _ _ row v Hrow Hv Hcount) in Hrun.
  unfold mbind, M_bind in Hrun.
  set (s' := Cafe.set_old _ _ (with_stats rows self)) in *.
  set (dbw := set_cafes _ db) in *.
  destruct (cafe_post_save_frame s' false dbw) as [Hc _].
  destruct (cafe_post_save s' false dbw) as [[[]|?] db2]; [|discriminate].
  injection Hrun as <- <-. cbn [snd] in Hc.
  exists row, v. by rewrite Hc.
Qed.

(** Claim C1. For a cafe whose active reviews are all on the 1-5 scale,
    [update_rating_stats] returns when called on an object in sync with
    its row, and whenever it returns: each of the five stored average
    columns holds the arithmetic mean (of [rating_overall] over the active
    reviews, of each other dimension over the active reviews that set it,
    0 where there is none) rounded to the two decimal places of the column
    (within 0.005 of the mean, and the mean itself when it has two
    decimals); the stored [rating_count] and the [rating_count] of the
    object are the number of active reviews; no review row has changed. *)
Theorem update_rating_stats_rounded_means (self : Cafe.t) (db : DB) :
  Forall valid_review (active_reviews (Cafe.pk self) db) →
  (in_sync self db → ∃ self' db', update_rating_stats self db = (Ok self', db'))
  ∧ ∀ self' db',
      update_rating_stats self db = (Ok self', db') →
      Cafe.rating_count self'
      = Z.of_nat (length (active_reviews (Cafe.pk self) db))
      ∧ (∃ row', cafes db' !! Cafe.pk self = Some row'
                 ∧ stores_rounded_means (active_reviews (Cafe.pk self) db) row')
      ∧ reviews db' = reviews db.
Proof.
  intros Hvalid. split.
  - intros (row & Hrow & Hloc & Hact). eexists _, _.
    by apply (update_rating_stats_valid self db row).
  - intros self' db' Hrun.
    destruct (update_rating_stats_inv_values _ _ _ _ Hrun)
      as (row & v & Hrow & Hv & Hc & Hr & ->).
    set (rows := active_reviews (Cafe.pk self) db) in *.
    destruct (valid_reviews_columns _ Hvalid) as (Ho & Hw & Hp & Hn & Hco).
    erewrite rating_values_ok in Hv; [|cbn; by apply or_0_Avg_stored..].
    cbn [fst] in Hv. injection Hv as <-.
    split; [reflexivity|]. split; [|done].
    exists (recomputed_row rows row). split.
    + rewrite Hc. apply lookup_insert_eq.
    + apply recomputed_row_rounded.
Qed.

Lemma update_rating_stats_rounded_means_witness :
  ∃ self' db' row',
    update_rating_stats example_cafe example_db = (Ok self', db')
    ∧ Cafe.rating_count self' = 3
    ∧ cafes db' !! 7%positive = Some row'
    ∧ stores_rounded_means (active_reviews 7 example_db) row'.
Proof.
  destruct (update_rating_stats_rounded_means example_cafe example_db
              example_valid_reviews) as [Hreturns Hmeans].
  destruct (update_rating_stats example_cafe example_db) as [r db'] eqn:Hrun.
  vm_compute in Hrun. injection Hrun as <- <-.
  destruct (Hmeans _ _ eq_refl) as (Hm & (row' & Hrow' & Hs) & _).
  eexists _, _, row'. split; [reflexivity|]. split; [exact Hm|].
  split; [exact Hrow'|exact Hs].
Defined.

(** * Further properties of the code *)

(** ** [validate_text] *)

Lemma lstrip_trimmed (l : str) : trimmed (lstrip l).
Proof.
  induction l as [|a l IH]; cbn [lstrip]; [done|].
  destruct (is_space a) eqn:Ha; [done|]. exact Ha.
Qed.

Lemma lstrip_id (l : str) : trimmed l → lstrip l = l.
Proof. destruct l as [|a l]; cbn; [done|]. by intros ->. Qed.

Lemma lstrip_snoc (l : str) (a : N) :
  is_space a = false → ∃ m, lstrip (l ++ [a]) = m ++ [a].
Proof.
  intros Ha. induction l as [|b l [m IH]]; cbn [lstrip app].
  - rewrite Ha. by exists [].
  - destruct (is_space b); [by exists m|]. by exists (b :: l).
Qed.

Lemma strip_trimmed (l : str) : trimmed (strip l) ∧ trimmed (rev (strip l)).
Proof.
  unfold strip. split.
  - pose proof (lstrip_trimmed l) as Ht.
    destruct (lstrip l) as [|a k]; [done|]. cbn [rev].
    destruct (lstrip_snoc (rev k) a Ht) as [m ->].
    rewrite rev_app_distr. exact Ht.
  - rewrite rev_involutive. apply lstrip_trimmed.
Qed.

Lemma strip_strip (s : str) : strip (strip s) = strip s.
Proof.
  destruct (strip_trimmed s) as [H1 H2].
  unfold strip at 1. rewrite (lstrip_id _ H1), (lstrip_id _ H2).
  apply rev_involutive.
Qed.

Lemma validate_text_ok (value t : str) :
  validate_text value = Ok t → t = strip value ∧ 10 ≤ len t.
Proof.
  unfold validate_text.
  destruct (Z.ltb_spec (len (strip value)) 10); [discriminate|].
  by intros [= <-].
Qed.

Lemma validate_text_field_ok (data t : str) :
  validate_text_field data = Ok t →
  t = strip data ∧ 10 ≤ len t ∧ acceptable_text data.
Proof.
  unfold validate_text_field, text_field, acceptable_text.
  destruct (Z.eqb_spec (len (strip data)) 0) as [|_]; [discriminate|].
  destruct (Z.ltb_spec 2000 (len (strip data))) as [|Hmax]; [discriminate|].
  case_bool_decide as Hnul; [discriminate|]. cbn [orb].
  intros [-> Hlen]%validate_text_ok. rewrite strip_strip in *. done.
Qed.

(** X1. A text that [validate_text] accepts comes back stripped of the
    white space at both ends (Unicode white space included), has at least
    10 characters left, and is accepted unchanged when validated again. *)
Theorem validate_text_accepted (value t : str) :
  validate_text value = Ok t →
  t = strip value
  ∧ 10 ≤ len t
  ∧ trimmed t
  ∧ trimmed (rev t)
  ∧ validate_text t = Ok t.
Proof.
  unfold validate_text.
  destruct (Z.ltb_spec (len (strip value)) 10) as [|Hlen]; [discriminate|].
  intros [= <-]. split; [done|]. split; [done|].
  rewrite strip_strip.
  destruct (Z.ltb_spec (len (strip value)) 10); [lia|].
  destruct (strip_trimmed value) as [H1 H2].
  by repeat split.
Qed.

Lemma validate_text_accepted_witness :
  strip (160%N :: literal "  Great wifi, great coffee " ++ [8232%N])
  = literal "Great wifi, great coffee"
  ∧ 10 ≤ len (literal "Great wifi, great coffee")
  ∧ validate_text (literal "Great wifi, great coffee")
    = Ok (literal "Great wifi, great coffee").
Proof.
  destruct (validate_text_accepted
              (160%N :: literal "  Great wifi, great coffee " ++ [8232%N])
              (literal "Great wifi, great coffee") eq_refl)
    as (H1 & H2 & _ & _ & H3).
  split; [by rewrite <- H1|]. split; [exact H2|exact H3].
Defined.

(** ** Recomputing the ratings of a cafe *)

Lemma all_valid_active_reviews (k : positive) (db : DB) :
  all_reviews_valid db → Forall valid_review (active_reviews k db).
Proof.
  intros Hvalid. unfold active_reviews. apply Forall_forall.
  intros r [_ [[pk r'] [-> Hin]]%list_elem_of_fmap]%list_elem_of_filter.
  apply elem_of_map_to_list in Hin. by eapply Hvalid.
Qed.

Lemma recomputed_frame (k : positive) (db : DB) :
  reviews (recomputed k db) = reviews db
  ∧ locations (recomputed k db) = locations db.
Proof. unfold recomputed. by destruct (cafes db !! k). Qed.

Lemma active_reviews_ext (k : positive) (db db' : DB) :
  reviews db' = reviews db → active_reviews k db' = active_reviews k db.
Proof. unfold active_reviews. by intros ->. Qed.

Lemma recomputed_lookup (k k' : positive) (db : DB) :
  cafes (recomputed k db) !! k'
  = if decide (k' = k)
    then recomputed_row (active_reviews k db) <$> cafes db !! k'
    else cafes db !! k'.
Proof.
  unfold recomputed. destruct (decide (k' = k)) as [->|Hne].
  - destruct (cafes db !! k) as [row|] eqn:Hrow; cbn [cafes set_cafes].
    + by rewrite lookup_insert_eq.
    + by rewrite Hrow.
  - destruct (cafes db !! k) as [row|]; cbn [cafes set_cafes]; [|done].
    by rewrite lookup_insert_ne.
Qed.

Lemma recomputed_row_idempotent (rows : list ReviewRow.t) (row : CafeRow.t) :
  recomputed_row rows (recomputed_row rows row) = recomputed_row rows row.
Proof. reflexivity. Qed.

(** On an object in sync with its row, and with every review on the 1-5
    scale, [update_rating_stats] returns and leaves the database
    [recomputed]. *)
Lemma update_rating_stats_recomputed (self : Cafe.t) (db : DB) :
  all_reviews_valid db → in_sync self db →
  ∃ self', update_rating_stats self db = (Ok self', recomputed (Cafe.pk self) db)
           ∧ Cafe.pk self' = Cafe.pk self
           ∧ in_sync self' (recomputed (Cafe.pk self) db).
Proof.
  intros Hvalid (row & Hrow & Hloc & Hact).
  rewrite (update_rating_stats_valid self db row Hrow Hloc Hact)
    by by apply all_valid_active_reviews.
  eexists. split; [unfold recomputed; by rewrite Hrow|].
  split; [reflexivity|].
  exists (recomputed_row (active_reviews (Cafe.pk self) db) row).
  cbn [Cafe.pk Cafe.set_old with_stats Cafe.set_ratings].
  rewrite recomputed_lookup, decide_True, Hrow by done.
  by repeat split.
Qed.

Lemma recompute_all_frame (ks : list positive) (db : DB) :
  reviews (recompute_all ks db) = reviews db
  ∧ locations (recompute_all ks db) = locations db.
Proof.
  revert db. induction ks as [|k ks IH]; intros db; [done|].
  change (recompute_all (k :: ks) db) with (recompute_all ks (recomputed k db)).
  destruct (IH (recomputed k db)) as [-> ->].
  apply recomputed_frame.
Qed.

Lemma recompute_all_lookup (ks : list positive) (k : positive) (db : DB) :
  cafes (recompute_all ks db) !! k
  = if decide (k ∈ ks)
    then recomputed_row (active_reviews k db) <$> cafes db !! k
    else cafes db !! k.
Proof.
  revert db. induction ks as [|k0 ks IH]; intros db.
  { rewrite decide_False by apply not_elem_of_nil. done. }
  change (recompute_all (k0 :: ks) db) with (recompute_all ks (recomputed k0 db)).
  rewrite IH, recomputed_lookup.
  rewrite (active_reviews_ext k db _ (proj1 (recomputed_frame k0 db))).
  destruct (decide (k = k0)) as [->|Hne].
  - rewrite (decide_True (P := k0 ∈ k0 :: ks)) by left.
    destruct (decide (k0 ∈ ks)); [|done].
    by destruct (cafes db !! k0).
  - destruct (decide (k ∈ ks)) as [Hin|Hnin].
    + by rewrite decide_True by by right.
    + rewrite decide_False; [done|]. by intros [?|?]%elem_of_cons.
Qed.

(** ** Writing a review row *)

Ltac mstep := unfold mbind at 1; unfold M_bind at 1.
Ltac mval := unfold mret at 1; unfold M_ret at 1.

Lemma from_db_in_sync (k : positive) (row : CafeRow.t) (db : DB) :
  cafes db !! k = Some row → in_sync (Cafe.from_db k row) db.
Proof. intros Hrow. by exists row. Qed.

Lemma in_sync_set_reviews (self : Cafe.t) (m : gmap positive ReviewRow.t)
    (db : DB) :
  in_sync self db → in_sync self (set_reviews m db).
Proof. done. Qed.

Lemma valid_ratings_nonnegative (r : ReviewRow.t) :
  valid_review r → ratings_nonnegative r = true.
Proof.
  intros (Ho & Hw & Hp & Hn & Hc). unfold ratings_nonnegative.
  unfold valid_optional_rating, valid_rating in *. cbn [forallb].
  destruct (ReviewRow.rating_wifi r), (ReviewRow.rating_power r),
    (ReviewRow.rating_noise r), (ReviewRow.rating_coffee r);
    repeat (apply andb_true_intro; split); try done; apply Z.leb_le; lia.
Qed.

Lemma write_review_row_run (k : positive) (r : ReviewRow.t) (db : DB) :
  is_Some (cafes db !! ReviewRow.cafe_id r) →
  ¬ unique_together_taken k r (reviews db) →
  valid_review r →
  write_review_row k r db = (Ok tt, set_reviews (<[k := r]> (reviews db)) db).
Proof.
  intros [row Hrow] Hfree Hvalid. unfold write_review_row. munfold.
  rewrite bool_decide_eq_false_2 by (rewrite Hrow; done).
  rewrite bool_decide_eq_false_2 by done.
  by rewrite valid_ratings_nonnegative.
Qed.

Lemma all_reviews_valid_insert (k : positive) (r : ReviewRow.t) (db : DB) :
  all_reviews_valid db → valid_review r →
  all_reviews_valid (set_reviews (<[k := r]> (reviews db)) db).
Proof.
  intros Hvalid Hr k' r'. cbn [reviews set_reviews].
  rewrite lookup_insert_Some. intros [[_ <-]|[_ Hk']]; [done|].
  by eapply Hvalid.
Qed.

Lemma all_reviews_valid_ext (db db' : DB) :
  reviews db' = reviews db → all_reviews_valid db → all_reviews_valid db'.
Proof. intros Hr Hvalid k r. rewrite Hr. apply Hvalid. Qed.

(** The recompute at the end of [Review.save], for a review whose cafe
    object, if cached, is in sync with the cafe's row. *)
Lemma Review_update_cafe_recomputed (self : Review.t) (db : DB) :
  all_reviews_valid db →
  match Review.cafe self with
  | Some c => Cafe.pk c = ReviewRow.cafe_id (Review.fields self) ∧ in_sync c db
  | None => is_Some (cafes db !! ReviewRow.cafe_id (Review.fields self))
  end →
  ∃ c', Review_update_cafe self db
        = (Ok (Review.mk (Review.pk self) (Review.fields self) (Some c')),
           recomputed (ReviewRow.cafe_id (Review.fields self)) db)
        ∧ Cafe.pk c' = ReviewRow.cafe_id (Review.fields self)
        ∧ in_sync c' (recomputed (ReviewRow.cafe_id (Review.fields self)) db).
Proof.
  intros Hvalid Hcafe. unfold Review_update_cafe, Review_get_cafe.
  destruct (Review.cafe self) as [c|].
  - destruct Hcafe as [Hpk Hsync].
    destruct (update_rating_stats_recomputed c db Hvalid Hsync)
      as (c' & Hrun & Hpk' & Hsync').
    exists c'. rewrite <- Hpk. split; [|split; [congruence|done]].
    mstep. mval. mstep. by rewrite Hrun.
  - destruct Hcafe as [row Hrow].
    set (k := ReviewRow.cafe_id (Review.fields self)) in *.
    destruct (update_rating_stats_recomputed (Cafe.from_db k row) db Hvalid
                (from_db_in_sync _ _ _ Hrow)) as (c' & Hrun & Hpk' & Hsync').
    exists c'. split; [|split; done].
    mstep. unfold Cafe_objects_get. munfold. rewrite Hrow.
    by rewrite Hrun.
Qed.

Lemma validate_optional_rating_ok (x y : option Z) :
  validate_optional_rating x = Ok y → y = x ∧ valid_optional_rating y.
Proof.
  unfold validate_optional_rating. destruct x as [v|]; [|by intros [= <-]].
  destruct (Z.leb_spec 1 v), (Z.leb_spec v 5); cbn [andb]; intros [= <-].
  split; [done|]. cbn. unfold valid_rating. lia.
Qed.

Lemma validate_rating_overall_ok (v w : Z) :
  validate_rating_overall v = Ok w → w = v ∧ valid_rating w.
Proof.
  unfold validate_rating_overall.
  destruct (Z.leb_spec 1 v), (Z.leb_spec v 5); cbn [andb negb]; intros [= <-].
  split; [done|]. unfold valid_rating. lia.
Qed.

(** ** A create request, step by step *)

Lemma validate_fields_ok (data : ReviewData.t) (attrs : ValidatedData.t) :
  validate_fields data = Ok attrs →
  ReviewData.rating_overall data = Some (ValidatedData.rating_overall attrs)
  ∧ ValidatedData.rating_wifi attrs = ReviewData.rating_wifi data
  ∧ ValidatedData.rating_power attrs = ReviewData.rating_power data
  ∧ ValidatedData.rating_noise attrs = ReviewData.rating_noise data
  ∧ ValidatedData.rating_coffee attrs = ReviewData.rating_coffee data
  ∧ ValidatedData.text attrs = strip (ReviewData.text data)
  ∧ 10 ≤ len (ValidatedData.text attrs)
  ∧ valid_rating (ValidatedData.rating_overall attrs)
  ∧ valid_optional_rating (ValidatedData.rating_wifi attrs)
  ∧ valid_optional_rating (ValidatedData.rating_power attrs)
  ∧ valid_optional_rating (ValidatedData.rating_noise attrs)
  ∧ valid_optional_rating (ValidatedData.rating_coffee attrs).
Proof.
  unfold validate_fields.
  destruct (ReviewData.rating_overall data) as [v|]; [|discriminate].
  destruct (validate_rating_overall v) as [o|] eqn:Ho; [|discriminate].
  destruct (validate_optional_rating (ReviewData.rating_wifi data))
    as [w|] eqn:Hw; [|discriminate].
  destruct (validate_optional_rating (ReviewData.rating_power data))
    as [p|] eqn:Hp; [|discriminate].
  destruct (validate_optional_rating (ReviewData.rating_noise data))
    as [n|] eqn:Hn; [|discriminate].
  destruct (validate_optional_rating (ReviewData.rating_coffee data))
    as [c|] eqn:Hc; [|discriminate].
  destruct (validate_text_field (ReviewData.text data)) as [t|] eqn:Ht;
    [|discriminate].
  intros [= <-]. cbn.
  apply validate_rating_overall_ok in Ho as [-> Ho].
  apply validate_optional_rating_ok in Hw as [-> Hw].
  apply validate_optional_rating_ok in Hp as [-> Hp].
  apply validate_optional_rating_ok in Hn as [-> Hn].
  apply validate_optional_rating_ok in Hc as [-> Hc].
  apply validate_text_field_ok in Ht as (-> & Hlen & _).
  do 11 (split; [done|]). done.
Qed.

Lemma Review_exists_false (user cafe k : positive) (r : ReviewRow.t) (db : DB) :
  Review_exists user cafe db = false →
  ReviewRow.user_id r = user → ReviewRow.cafe_id r = cafe →
  ¬ unique_together_taken k r (reviews db).
Proof.
  intros Hex Hu Hc (k' & r' & Hk' & _ & Hc' & Hu').
  apply bool_decide_eq_false in Hex. apply Hex.
  exists k', r'. split; [done|]. split; congruence.
Qed.

Lemma get_cafe_cases (cafe_slug : positive) (db : DB) :
  (¬ active_cafe cafe_slug db ∧ get_cafe cafe_slug db = (Raise Http404, db))
  ∨ (∃ row, cafes db !! cafe_slug = Some row ∧ CafeRow.is_active row = true
            ∧ get_cafe cafe_slug db = (Ok (Cafe.from_db cafe_slug row), db)).
Proof.
  unfold get_cafe, active_cafe. munfold.
  destruct (cafes db !! cafe_slug) as [row|] eqn:Hrow.
  - destruct (CafeRow.is_active row) eqn:Ha; [right; by eauto|].
    left. split; [|done]. intros (row' & [= <-] & Ha'). congruence.
  - left. split; [|done]. by intros (row' & [=] & _).
Qed.

(** The two ways a create request ends on a database whose reviews are
    all on the 1-5 scale: refused with nothing written, or gone through
    with the new row inserted and the cafe recomputed. *)
Lemma create_cases (id : positive) (user : option User.t)
    (cafe_slug : positive) (data : ReviewData.t) (db db1 : DB)
    (r : result Review.t) :
  all_reviews_valid db →
  CafeReviewViewSet_create id user cafe_slug data db = (r, db1) →
  (∃ e, r = Raise e ∧ db1 = db
        ∧ (e = NotAuthenticated ∧ user = None
           ∨ e = Http404 ∧ ¬ active_cafe cafe_slug db
           ∨ e = ValidationError
             ∧ (validate_fields data = Raise ValidationError
                ∨ ∃ u, user = Some u
                       ∧ Review_exists (User.id u) cafe_slug db = true)
           ∨ e = IntegrityError ∧ is_Some (reviews db !! id)))
  ∨ (∃ u new c',
       user = Some u
       ∧ active_cafe cafe_slug db
       ∧ (∃ attrs, validate_fields data = Ok attrs)
       ∧ Review_exists (User.id u) cafe_slug db = false
       ∧ reviews db !! id = None
       ∧ holds_request u cafe_slug data new
       ∧ valid_review new
       ∧ 10 ≤ len (ReviewRow.text new)
       ∧ r = Ok (Review.mk id new (Some c'))
       ∧ db1 = recomputed cafe_slug
                 (set_reviews (<[id := new]> (reviews db)) db)).
Proof.
  intros Hvalid. unfold CafeReviewViewSet_create, check_authenticated.
  destruct user as [u|];
    [|intros [= <- <-]; left; exists NotAuthenticated; by eauto].
  mstep. mval. mstep.
  destruct (get_cafe_cases cafe_slug db) as [[Hno ->]|(row & Hrow & Ha & ->)];
    [intros [= <- <-]; left; exists Http404; by eauto 10|].
  mstep. unfold ReviewCreateSerializer_is_valid at 1. mstep. unfold lift at 1.
  destruct (validate_fields data) as [attrs|e] eqn:Hf.
  2:{ intros [= <- <-]. left. exists e. split; [done|]. split; [done|].
      rewrite (validate_fields_exn _ _ Hf) in *. by eauto 10. }
  unfold ReviewCreateSerializer_validate at 1. mstep. unfold get_db at 1.
  cbn [Cafe.pk Cafe.from_db].
  destruct (Review_exists (User.id u) cafe_slug db) eqn:Hex.
  { intros [= <- <-]. left. exists ValidationError. by eauto 10. }
  mval. unfold ReviewCreateSerializer_create, Review_save.
  cbn [Cafe.pk Cafe.from_db].
  set (new := ReviewRow.mk cafe_slug _ _ _ _ _ _ _ true).
  set (self := Review.mk id new _).
  mstep. unfold Model_save_Review at 1. mstep. unfold get_db at 1.
  cbn [Review.pk Review.fields self].
  destruct (reviews db !! id) as [old|] eqn:Hid.
  { rewrite bool_decide_eq_true_2 by done.
    intros [= <- <-]. left. exists IntegrityError. by eauto 10. }
  rewrite bool_decide_eq_false_2 by by intros [? ?].
  destruct (validate_fields_ok _ _ Hf)
    as (Ho & Hw & Hp & Hn & Hc & Ht & Hlen & Hvo & Hvw & Hvp & Hvn & Hvc).
  assert (Hnew : valid_review new) by done.
  rewrite (write_review_row_run id new db); [|exists row; exact Hrow| |done].
  2:{ by apply (Review_exists_false (User.id u) cafe_slug). }
  set (dbr := set_reviews _ db).
  destruct (Review_update_cafe_recomputed self dbr) as (c' & Hrun & _).
  { by apply all_reviews_valid_insert. }
  { cbn. split; [done|]. by apply from_db_in_sync. }
  rewrite Hrun. intros [= <- <-].
  right. exists u, new, c'.
  split; [done|]. split; [by exists row|]. split; [by exists attrs|].
  do 3 (split; [done|]). split; [exact Hnew|done].
Qed.

(** ** The active reviews of a cafe when one row changes *)

Lemma active_reviews_insert_fresh (k id : positive) (new : ReviewRow.t)
    (db : DB) :
  reviews db !! id = None →
  active_reviews k (set_reviews (<[id := new]> (reviews db)) db)
  ≡ₚ filter (active_review k) [new] ++ active_reviews k db.
Proof.
  intros Hid. unfold active_reviews. cbn [reviews set_reviews].
  rewrite (map_to_list_insert _ _ _ Hid). cbn [fmap list_fmap snd].
  change (new :: ?l) with ([new] ++ l). by rewrite filter_app.
Qed.

Lemma active_reviews_delete (k pk : positive) (r : ReviewRow.t) (db : DB) :
  reviews db !! pk = Some r →
  active_reviews k db
  ≡ₚ filter (active_review k) [r]
     ++ active_reviews k (set_reviews (delete pk (reviews db)) db).
Proof.
  intros Hpk. unfold active_reviews. cbn [reviews set_reviews].
  rewrite <- (map_to_list_delete _ _ _ Hpk). cbn [fmap list_fmap snd].
  change (r :: ?l) with ([r] ++ l). by rewrite filter_app.
Qed.

Lemma active_reviews_replace (k pk : positive) (r r' : ReviewRow.t) (db : DB) :
  reviews db !! pk = Some r →
  filter (active_review k) [r]
  ++ active_reviews k (set_reviews (<[pk := r']> (reviews db)) db)
  ≡ₚ filter (active_review k) [r'] ++ active_reviews k db.
Proof.
  intros Hpk. rewrite (active_reviews_delete k pk r db Hpk).
  rewrite <- (insert_delete_eq (reviews db)).
  set (dbd := set_reviews (delete pk (reviews db)) db).
  change (set_reviews (<[pk := r']> (delete pk (reviews db))) db)
    with (set_reviews (<[pk := r']> (reviews dbd)) dbd).
  rewrite (active_reviews_insert_fresh k pk r' dbd)
    by apply lookup_delete_eq.
  rewrite !app_assoc.
  by rewrite (Permutation_app_comm (filter _ [r])).
Qed.

Lemma active_reviews_other_cafe (k pk : positive) (r' : ReviewRow.t) (db : DB) :
  (∀ r, reviews db !! pk = Some r → ReviewRow.cafe_id r ≠ k) →
  ReviewRow.cafe_id r' ≠ k →
  active_reviews k (set_reviews (<[pk := r']> (reviews db)) db)
  ≡ₚ active_reviews k db.
Proof.
  intros Hold Hnew.
  assert (Hno : ∀ x, ReviewRow.cafe_id x ≠ k → filter (active_review k) [x] = []).
  { intros x Hx. apply filter_none. intros y ->%list_elem_of_singleton [Hy _].
    done. }
  destruct (reviews db !! pk) as [r|] eqn:Hpk.
  - pose proof (active_reviews_replace k pk r r' db Hpk) as Hp.
    by rewrite (Hno r), (Hno r') in Hp by eauto.
  - rewrite (active_reviews_insert_fresh k pk r' db Hpk).
    by rewrite (Hno r').
Qed.

Lemma recomputed_eq (k : positive) (db : DB) (row : CafeRow.t) :
  cafes db !! k = Some row →
  recomputed k db
  = set_cafes (<[k := recomputed_row (active_reviews k db) row]> (cafes db)) db.
Proof. intros Hrow. unfold recomputed. by rewrite Hrow. Qed.

Lemma mean_Permutation (xs ys : list Z) : xs ≡ₚ ys → mean xs = mean ys.
Proof.
  intros Hp. unfold mean.
  rewrite (sum_Z_Permutation _ _ Hp), (Permutation_length Hp).
  destruct xs as [|x xs]; destruct ys as [|y ys]; try done.
  by apply Permutation_nil_cons in Hp.
Qed.

Lemma stores_rounded_means_Permutation (rows rows' : list ReviewRow.t)
    (row : CafeRow.t) :
  rows ≡ₚ rows' →
  stores_rounded_means rows row → stores_rounded_means rows' row.
Proof.
  intros Hp. unfold stores_rounded_means, ratings_set.
  rewrite (Permutation_length Hp).
  by rewrite !(mean_Permutation _ _ (omap_Permutation _ _ _ Hp)).
Qed.

Lemma all_reviews_valid_example : all_reviews_valid one_review_db.
Proof.
  intros k r. cbn [reviews one_review_db].
  intros [<- <-]%lookup_singleton_Some.
  unfold valid_review, valid_optional_rating, valid_rating, review_5_5.
  cbn. repeat split; lia.
Qed.

(** ** Create requests *)

Lemma validate_fields_acceptable (data : ReviewData.t)
    (attrs : ValidatedData.t) :
  validate_fields data = Ok attrs → acceptable_fields data.
Proof.
  unfold validate_fields, acceptable_fields.
  destruct (ReviewData.rating_overall data) as [v|]; [|discriminate].
  destruct (validate_rating_overall v) as [o|] eqn:Ho; [|discriminate].
  destruct (validate_optional_rating (ReviewData.rating_wifi data))
    as [w|] eqn:Hw; [|discriminate].
  destruct (validate_optional_rating (ReviewData.rating_power data))
    as [p|] eqn:Hp; [|discriminate].
  destruct (validate_optional_rating (ReviewData.rating_noise data))
    as [n|] eqn:Hn; [|discriminate].
  destruct (validate_optional_rating (ReviewData.rating_coffee data))
    as [c|] eqn:Hc; [|discriminate].
  destruct (validate_text_field (ReviewData.text data)) as [t|] eqn:Ht;
    [|discriminate].
  intros _.
  apply validate_rating_overall_ok in Ho as [-> Ho].
  apply validate_optional_rating_ok in Hw as [-> Hw].
  apply validate_optional_rating_ok in Hp as [-> Hp].
  apply validate_optional_rating_ok in Hn as [-> Hn].
  apply validate_optional_rating_ok in Hc as [-> Hc].
  apply validate_text_field_ok in Ht as (_ & _ & Ht).
  split; [by exists v|]. by do 4 (split; [done|]).
Qed.

(** X2. The [create] method on a database whose reviews are all on the
    1-5 scale, for a fresh key. If the request goes through, the user is
    logged in, the cafe behind the slug is there and active, the fields
    are acceptable, and the user had no review row for the cafe. If it
    does not, the database is as it was and the answer is
    NotAuthenticated without a login, Http404 without such a cafe, and
    a ValidationError otherwise: once validation has passed nothing
    fails. (The rate limit that runs before the method is not part of
    it.) *)
Theorem create_review_outcomes (id : positive) (user : option User.t)
    (cafe_slug : positive) (data : ReviewData.t) (db : DB) :
  all_reviews_valid db →
  reviews db !! id = None →
  (∀ review db1,
     CafeReviewViewSet_create id user cafe_slug data db = (Ok review, db1) →
     ∃ u,
       user = Some u
       ∧ active_cafe cafe_slug db
       ∧ acceptable_fields data
       ∧ Review_exists (User.id u) cafe_slug db = false)
  ∧ ∀ e db1,
      CafeReviewViewSet_create id user cafe_slug data db = (Raise e, db1) →
      db1 = db
      ∧ (e = NotAuthenticated ∧ user = None
         ∨ e = Http404 ∧ is_Some user ∧ ¬ active_cafe cafe_slug db
         ∨ e = ValidationError ∧ is_Some user ∧ active_cafe cafe_slug db).
Proof.
  intros Hvalid Hid. split.
  - intros review db1 Hrun.
    destruct (create_cases _ _ _ _ _ _ _ Hvalid Hrun)
      as [(e & [=] & _)|(u & new & c' & -> & Hc & [attrs Hf] & Hex & _)].
    exists u. do 2 (split; [done|]). split; [|done].
    by eapply validate_fields_acceptable.
  - intros e db1 Hrun. pose proof Hrun as Hrun'.
    destruct (create_cases _ _ _ _ _ _ _ Hvalid Hrun)
      as [(e' & [= <-] & -> & He)
         |(? & ? & ? & _ & _ & _ & _ & _ & _ & _ & _ & [=] & _)].
    split; [done|].
    destruct He as [[-> ->]|[[-> Hno]|[[-> _]|[_ Hsome]]]].
    + by left.
    + right. left. split; [done|]. split; [|done].
      destruct user; [done|]. by vm_compute in Hrun'.
    + right. right. split; [done|].
      destruct user as [u|]; [|by vm_compute in Hrun'].
      split; [done|].
      destruct (get_cafe_cases cafe_slug db) as [[_ Hg]|(row & Hrow & Ha & _)];
        [|by exists row].
      revert Hrun'. unfold CafeReviewViewSet_create, check_authenticated.
      mstep. mval. mstep. by rewrite Hg.
    + rewrite Hid in Hsome. by destruct Hsome.
Qed.

Lemma create_review_outcomes_witness :
  ∃ review db1,
    CafeReviewViewSet_create 12 (Some (User.mk 2 false)) 7 example_data
      one_review_db = (Ok review, db1)
    ∧ acceptable_fields example_data
    ∧ Review_exists 2 7 one_review_db = false.
Proof.
  assert (∃ review db1,
            CafeReviewViewSet_create 12 (Some (User.mk 2 false)) 7 example_data
              one_review_db = (Ok review, db1)) as (review & db1 & Hrun)
    by (eexists _, _; vm_compute; reflexivity).
  destruct (create_review_outcomes 12 (Some (User.mk 2 false)) 7 example_data
              one_review_db all_reviews_valid_example eq_refl)
    as [Hok _].
  destruct (Hok review db1 Hrun) as (u & [= <-] & _ & Hacc & Hex).
  by exists review, db1.
Defined.

(** X3. A create request that goes through, on a database whose reviews
    are all on the 1-5 scale, has added one review row and rewritten the
    cafe's row, and nothing else. The new row holds the submitted ratings,
    the text stripped (at least 10 characters), the user, the cafe and
    [is_active] true, and is on the 1-5 scale. The cafe's row keeps its
    location and is active; its averages are the means over the cafe's
    active reviews, the new one included, rounded to two decimals; its
    [rating_count] is the former number of active reviews plus one. *)
Theorem create_review_effect (id : positive) (user : option User.t)
    (cafe_slug : positive) (data : ReviewData.t) (db db1 : DB)
    (review : Review.t) :
  all_reviews_valid db →
  CafeReviewViewSet_create id user cafe_slug data db = (Ok review, db1) →
  ∃ u new row row1,
    user = Some u
    ∧ Review.pk review = id ∧ Review.fields review = new
    ∧ reviews db !! id = None
    ∧ reviews db1 = <[id := new]> (reviews db)
    ∧ holds_request u cafe_slug data new
    ∧ valid_review new
    ∧ 10 ≤ len (ReviewRow.text new)
    ∧ cafes db !! cafe_slug = Some row
    ∧ cafes db1 = <[cafe_slug := row1]> (cafes db)
    ∧ CafeRow.location_id row1 = CafeRow.location_id row
    ∧ CafeRow.is_active row1 = true
    ∧ stores_rounded_means (active_reviews cafe_slug db1) row1
    ∧ CafeRow.rating_count row1 = Count (active_reviews cafe_slug db) + 1
    ∧ locations db1 = locations db.
Proof.
  intros Hvalid Hrun.
  destruct (create_cases _ _ _ _ _ _ _ Hvalid Hrun)
    as [(e & [=] & _)|(u & new & c' & -> & (row & Hrow & Ha) & _ & Hex & Hid
                       & Hreq & Hnew & Hlen & [= ->] & ->)].
  set (dbr := set_reviews (<[id := new]> (reviews db)) db).
  rewrite (recomputed_eq cafe_slug dbr row Hrow).
  exists u, new, row, (recomputed_row (active_reviews cafe_slug dbr) row).
  do 11 (split; [done|]). split; [exact Ha|].
  split; [apply recomputed_row_rounded|]. split; [|done].
  cbn [CafeRow.rating_count recomputed_row]. unfold Count. subst dbr.
  rewrite (Permutation_length (active_reviews_insert_fresh _ _ _ _ Hid)).
  destruct Hreq as (Hc & _ & _ & _ & _ & _ & _ & _ & Hact).
  rewrite filter_cons_True by done. cbn [length app filter]. 
  rewrite filter_nil. cbn [length app]. lia.
Qed.

Lemma create_review_effect_witness :
  ∃ review db1 new row1,
    CafeReviewViewSet_create 12 (Some (User.mk 2 false)) 7 example_data
      one_review_db = (Ok review, db1)
    ∧ reviews db1 = <[12%positive := new]> (reviews one_review_db)
    ∧ ReviewRow.text new = literal "Great wifi, great coffee"
    ∧ cafes db1 = <[7%positive := row1]> (cafes one_review_db)
    ∧ stores_rounded_means (active_reviews 7 db1) row1
    ∧ CafeRow.rating_count row1 = 2.
Proof.
  assert (∃ review db1,
            CafeReviewViewSet_create 12 (Some (User.mk 2 false)) 7 example_data
              one_review_db = (Ok review, db1)) as (review & db1 & Hrun)
    by (eexists _, _; vm_compute; reflexivity).
  destruct (create_review_effect _ _ _ _ _ _ _ all_reviews_valid_example Hrun)
    as (u & new & row & row1 & _ & _ & _ & _ & Hr & Hreq & _ & _ & _ & Hc & _
        & _ & Hs & Hn & _).
  exists review, db1, new, row1. split; [exact Hrun|].
  split; [exact Hr|]. split; [|split; [exact Hc|split; [exact Hs|exact Hn]]].
  destruct Hreq as (_ & _ & _ & _ & _ & _ & _ & Ht & _). exact Ht.
Defined.

(** ** Delete and edit requests, step by step *)

Lemma recomputed_idempotent (k : positive) (db : DB) :
  recomputed k (recomputed k db) = recomputed k db.
Proof.
  destruct (cafes db !! k) as [row|] eqn:Hrow.
  - rewrite (recomputed_eq k db row Hrow).
    set (row1 := recomputed_row _ row).
    erewrite recomputed_eq by apply lookup_insert_eq.
    cbn [cafes set_cafes]. unfold set_cafes at 1. cbn [locations reviews set_cafes].
    by rewrite insert_insert_eq.
  - unfold recomputed. by rewrite !Hrow.
Qed.

Lemma all_reviews_valid_recomputed (k : positive) (db : DB) :
  all_reviews_valid db → all_reviews_valid (recomputed k db).
Proof. apply all_reviews_valid_ext, recomputed_frame. Qed.

(** How [get_object] ends: 404 when the cafe is not there or not active,
    or the review is not an active review of the cafe; 403 when the user is
    neither the author nor an admin; the review otherwise. *)
Lemma get_object_cases (user : User.t) (cafe_slug pk : positive) (db db1 : DB)
    (r : result Review.t) :
  get_object user cafe_slug pk db = (r, db1) →
  db1 = db
  ∧ (r = Raise Http404
       ∧ (¬ active_cafe cafe_slug db
          ∨ ∀ r0, reviews db !! pk = Some r0 → ¬ active_review cafe_slug r0)
     ∨ r = Raise PermissionDenied
       ∧ (∃ r0, reviews db !! pk = Some r0 ∧ active_review cafe_slug r0
                ∧ has_object_permission user r0 = false)
     ∨ ∃ r0, active_cafe cafe_slug db
             ∧ reviews db !! pk = Some r0 ∧ active_review cafe_slug r0
             ∧ has_object_permission user r0 = true
             ∧ r = Ok (Review.mk pk r0 None)).
Proof.
  unfold get_object. mstep.
  destruct (get_cafe_cases cafe_slug db) as [[Hno ->]|(row & Hrow & Ha & ->)];
    [intros [= <- <-]; by eauto|].
  munfold. cbn [Cafe.pk Cafe.from_db].
  destruct (reviews db !! pk) as [r0|] eqn:Hpk;
    [|intros [= <- <-]; split; [done|]; left; split; [done|]; right;
      by intros ? [=]].
  case_bool_decide as Hact.
  2:{ intros [= <- <-]. split; [done|]. left. split; [done|]. right.
      by intros ? [= <-]. }
  destruct (has_object_permission user r0) eqn:Hperm; intros [= <- <-].
  - split; [done|]. right. right. exists r0. split; [by exists row|]. done.
  - split; [done|]. right. left. split; [done|]. by exists r0.
Qed.

Lemma Model_save_Review_update_is_active (self : Review.t) (db : DB)
    (r0 : ReviewRow.t) :
  reviews db !! Review.pk self = Some r0 →
  Model_save_Review self update_is_active db
  = (Ok tt,
     set_reviews
       (<[Review.pk self :=
            ReviewRow.set_is_active (ReviewRow.is_active (Review.fields self))
              r0]> (reviews db)) db).
Proof. intros Hpk. unfold Model_save_Review. munfold. by rewrite Hpk. Qed.

Lemma valid_review_set_is_active (b : bool) (r : ReviewRow.t) :
  valid_review r → valid_review (ReviewRow.set_is_active b r).
Proof. done. Qed.

(** The ways a delete request ends on a database whose reviews are all on
    the 1-5 scale: refused with nothing written, or gone through with the
    review's [is_active] false and the cafe recomputed. *)
Lemma destroy_cases (user : option User.t) (cafe_slug pk : positive)
    (db db1 : DB) (r : result unit) :
  all_reviews_valid db →
  CafeReviewViewSet_destroy user cafe_slug pk db = (r, db1) →
  (db1 = db
   ∧ (r = Raise NotAuthenticated ∧ user = None
      ∨ r = Raise Http404
        ∧ (¬ active_cafe cafe_slug db
           ∨ ∀ r0, reviews db !! pk = Some r0 → ¬ active_review cafe_slug r0)
      ∨ r = Raise PermissionDenied
        ∧ ∃ u r0, user = Some u
                  ∧ reviews db !! pk = Some r0 ∧ active_review cafe_slug r0
                  ∧ has_object_permission u r0 = false))
  ∨ (∃ u r0,
       user = Some u
       ∧ active_cafe cafe_slug db
       ∧ reviews db !! pk = Some r0 ∧ active_review cafe_slug r0
       ∧ has_object_permission u r0 = true
       ∧ r = Ok tt
       ∧ db1 = recomputed cafe_slug
                 (set_reviews
                    (<[pk := ReviewRow.set_is_active false r0]> (reviews db))
                    db)).
Proof.
  intros Hvalid. unfold CafeReviewViewSet_destroy, check_authenticated.
  destruct user as [u|]; [|intros [= <- <-]; left; by eauto].
  mstep. mval. mstep.
  destruct (get_object u cafe_slug pk db) as [r1 db0] eqn:Hget.
  apply get_object_cases in Hget
    as [-> [[-> H404]|[[-> H403]|(r0 & Hcafe & Hpk & Hact & Hperm & ->)]]].
  { intros [= <- <-]. left. by eauto. }
  { intros [= <- <-]. left. split; [done|]. right. right.
    split; [done|]. destruct H403 as (r0 & ?). by exists u, r0. }
  cbn [Review.pk Review.fields Review.cafe].
  unfold Review_save. mstep. mstep.
  erewrite Model_save_Review_update_is_active by exact Hpk.
  cbn [Review.pk Review.fields ReviewRow.is_active ReviewRow.set_is_active].
  set (r' := ReviewRow.set_is_active false r0).
  change (ReviewRow.mk _ _ _ _ _ _ _ _ false) with r'.
  set (dbr := set_reviews (<[pk := r']> (reviews db)) db).
  assert (Hvalid' : all_reviews_valid dbr).
  { apply all_reviews_valid_insert; [done|].
    apply valid_review_set_is_active. by eapply Hvalid. }
  destruct Hact as [Hc Ha]. destruct Hcafe as (row & Hrow & Harow).
  destruct (Review_update_cafe_recomputed (Review.mk pk r' None) dbr Hvalid')
    as (c' & Hrun & Hpk' & Hsync).
  { cbn. rewrite Hc. by exists row. }
  rewrite Hrun. cbn [Review.fields Review.pk Review.cafe] in *.
  change (ReviewRow.cafe_id r') with (ReviewRow.cafe_id r0) in *.
  rewrite Hc in *.
  mstep. unfold Review_get_cafe. cbn [Review.cafe]. mval. mstep.
  destruct (update_rating_stats_recomputed c' (recomputed cafe_slug dbr))
    as (c'' & Hrun2 & _); [by apply all_reviews_valid_recomputed|done|].
  rewrite Hrun2, Hpk', recomputed_idempotent. mval.
  intros [= <- <-]. right. exists u, r0. split; [done|].
  split; [by exists row|]. by repeat split.
Qed.

Lemma validate_if_present_inv {A B : Type} (validate : A → result B)
    (x : option A) (y : option B) :
  validate_if_present validate x = Ok y →
  x = None ∧ y = None ∨ ∃ a b, x = Some a ∧ y = Some b ∧ validate a = Ok b.
Proof.
  unfold validate_if_present. destruct x as [a|]; [|intros [= <-]; by left].
  destruct (validate a) as [b|] eqn:Hv; [|discriminate].
  intros [= <-]. right. by exists a, b.
Qed.

Lemma validate_patch_exn (partial : bool) (d : ReviewPatch.t) (e : exn) :
  validate_patch partial d = Raise e → e = ValidationError.
Proof.
  unfold validate_patch.
  repeat match goal with
         | |- context [match ?x with _ => _ end] => destruct x
         end; congruence.
Qed.

Lemma validate_patch_ok (partial : bool) (d v : ReviewPatch.t)
    (r0 : ReviewRow.t) :
  validate_patch partial d = Ok v →
  valid_review r0 →
  edited d r0 (apply_patch v r0) ∧ valid_review (apply_patch v r0).
Proof.
  unfold validate_patch. destruct (_ && _); [discriminate|].
  destruct (validate_if_present validate_rating_overall _) as [o|] eqn:Ho;
    [|discriminate].
  destruct (validate_if_present validate_optional_rating
              (ReviewPatch.rating_wifi d)) as [w|] eqn:Hw; [|discriminate].
  destruct (validate_if_present validate_optional_rating
              (ReviewPatch.rating_power d)) as [p|] eqn:Hp; [|discriminate].
  destruct (validate_if_present validate_optional_rating
              (ReviewPatch.rating_noise d)) as [n|] eqn:Hn; [|discriminate].
  destruct (validate_if_present validate_optional_rating
              (ReviewPatch.rating_coffee d)) as [c|] eqn:Hc; [|discriminate].
  destruct (validate_if_present validate_text_field _) as [t|] eqn:Ht;
    [|discriminate].
  intros [= <-] (Hvo & Hvw & Hvp & Hvn & Hvc).
  unfold edited, valid_review, apply_patch.
  cbn [ReviewRow.cafe_id ReviewRow.user_id ReviewRow.is_active
       ReviewRow.rating_overall ReviewRow.rating_wifi ReviewRow.rating_power
       ReviewRow.rating_noise ReviewRow.rating_coffee ReviewRow.text
       ReviewPatch.rating_overall ReviewPatch.rating_wifi
       ReviewPatch.rating_power ReviewPatch.rating_noise
       ReviewPatch.rating_coffee ReviewPatch.text].
  apply validate_if_present_inv in Ho
    as [[-> ->]|(? & ? & -> & -> & [-> ?]%validate_rating_overall_ok)].
  all: apply validate_if_present_inv in Hw
    as [[-> ->]|(? & ? & -> & -> & [-> ?]%validate_optional_rating_ok)].
  all: apply validate_if_present_inv in Hp
    as [[-> ->]|(? & ? & -> & -> & [-> ?]%validate_optional_rating_ok)].
  all: apply validate_if_present_inv in Hn
    as [[-> ->]|(? & ? & -> & -> & [-> ?]%validate_optional_rating_ok)].
  all: apply validate_if_present_inv in Hc
    as [[-> ->]|(? & ? & -> & -> & [-> ?]%validate_optional_rating_ok)].
  all: apply validate_if_present_inv in Ht
    as [[-> ->]|(? & ? & -> & -> & [-> _]%validate_text_field_ok)].
  all: cbn [default fmap option_fmap option_map from_option id].
  all: split; [by do 8 (split; [done|])|by do 4 (split; [done|])].
Qed.

Lemma unique_pairs_free (pk : positive) (r0 r : ReviewRow.t) (db : DB) :
  unique_pairs db →
  reviews db !! pk = Some r0 →
  ReviewRow.cafe_id r = ReviewRow.cafe_id r0 →
  ReviewRow.user_id r = ReviewRow.user_id r0 →
  ¬ unique_together_taken pk r (reviews db).
Proof.
  intros Huniq Hpk Hc Hu (k' & r' & Hk' & Hne & Hc' & Hu').
  apply Hne. eapply Huniq; [exact Hk'|exact Hpk|congruence..].
Qed.

(** The ways an edit request ends on a database whose reviews are all on
    the 1-5 scale, with one row per (user, cafe) pair: refused with
    nothing written, or gone through with the row rewritten and the cafe
    recomputed. *)
Lemma update_cases (partial : bool) (user : option User.t)
    (cafe_slug pk : positive) (data : ReviewPatch.t) (db db1 : DB)
    (r : result Review.t) :
  all_reviews_valid db → unique_pairs db →
  CafeReviewViewSet_update partial user cafe_slug pk data db = (r, db1) →
  (db1 = db
   ∧ (r = Raise NotAuthenticated ∧ user = None
      ∨ r = Raise Http404
        ∧ (¬ active_cafe cafe_slug db
           ∨ ∀ r0, reviews db !! pk = Some r0 → ¬ active_review cafe_slug r0)
      ∨ r = Raise PermissionDenied
        ∧ (∃ u r0, user = Some u
                   ∧ reviews db !! pk = Some r0 ∧ active_review cafe_slug r0
                   ∧ has_object_permission u r0 = false)
      ∨ r = Raise ValidationError
        ∧ validate_patch partial data = Raise ValidationError))
  ∨ (∃ u r0 new c',
       user = Some u
       ∧ active_cafe cafe_slug db
       ∧ reviews db !! pk = Some r0 ∧ active_review cafe_slug r0
       ∧ has_object_permission u r0 = true
       ∧ (∃ v, validate_patch partial data = Ok v)
       ∧ edited data r0 new ∧ valid_review new
       ∧ r = Ok (Review.mk pk new (Some c'))
       ∧ db1 = recomputed cafe_slug
                 (set_reviews (<[pk := new]> (reviews db)) db)).
Proof.
  intros Hvalid Huniq. unfold CafeReviewViewSet_update, check_authenticated.
  destruct user as [u|]; [|intros [= <- <-]; left; by eauto].
  mstep. mval. mstep.
  destruct (get_object u cafe_slug pk db) as [r1 db0] eqn:Hget.
  apply get_object_cases in Hget
    as [-> [[-> H404]|[[-> H403]|(r0 & Hcafe & Hpk & Hact & Hperm & ->)]]].
  { intros [= <- <-]. left. by eauto. }
  { intros [= <- <-]. left. split; [done|]. right. right. left.
    split; [done|]. destruct H403 as (r0 & ?). by exists u, r0. }
  mstep. unfold lift at 1.
  destruct (validate_patch partial data) as [v|e] eqn:Hv.
  2:{ intros [= <- <-]. left. split; [done|].
      rewrite (validate_patch_exn _ _ _ Hv). by eauto 10. }
  cbn [Review.pk Review.fields Review.cafe].
  destruct (validate_patch_ok _ _ _ r0 Hv) as [Hed Hnew]; [by eapply Hvalid|].
  set (new := apply_patch v r0) in *.
  unfold Review_save. mstep. unfold Model_save_Review at 1. mstep.
  unfold get_db at 1. cbn [Review.pk Review.fields].
  destruct Hact as [Hc Ha]. destruct Hcafe as (row & Hrow & Harow).
  destruct Hed as (Hc' & Hu' & Hrest).
  rewrite (write_review_row_run pk new db);
    [|rewrite Hc', Hc; by exists row|by eapply unique_pairs_free|done].
  set (dbr := set_reviews (<[pk := new]> (reviews db)) db).
  destruct (Review_update_cafe_recomputed (Review.mk pk new None) dbr)
    as (c' & Hrun & _).
  { by apply all_reviews_valid_insert. }
  { cbn [Review.cafe Review.fields]. rewrite Hc', Hc. by exists row. }
  rewrite Hrun. cbn [Review.pk Review.fields]. rewrite Hc', Hc.
  intros [= <- <-]. right. exists u, r0, new, c'.
  split; [done|]. split; [by exists row|]. do 3 (split; [done|]).
  split; [by exists v|]. done.
Qed.

(** ** Delete requests *)

Lemma active_review_filter_one (k : positive) (r : ReviewRow.t) :
  filter (active_review k) [r] = if decide (active_review k r) then [r] else [].
Proof.
  destruct (decide (active_review k r)).
  - by rewrite filter_cons_True.
  - by rewrite filter_cons_False.
Qed.

(** X4. On a database whose reviews are all on the 1-5 scale, a delete
    request goes through exactly when the user is logged in, the cafe
    behind the slug is there and active, the review is an active review of
    that cafe, and the user is its author or an admin. Otherwise nothing
    is written and the answer is NotAuthenticated without a login,
    Http404 without such a cafe or review, PermissionDenied for anyone
    else's review. *)
Theorem destroy_review_succeeds_iff (user : option User.t)
    (cafe_slug pk : positive) (db : DB) :
  all_reviews_valid db →
  ((∃ db1, CafeReviewViewSet_destroy user cafe_slug pk db = (Ok tt, db1))
   ↔ (∃ u r0,
        user = Some u
        ∧ active_cafe cafe_slug db
        ∧ reviews db !! pk = Some r0 ∧ active_review cafe_slug r0
        ∧ has_object_permission u r0 = true))
  ∧ ∀ e db1,
      CafeReviewViewSet_destroy user cafe_slug pk db = (Raise e, db1) →
      db1 = db
      ∧ (e = NotAuthenticated ∧ user = None
         ∨ e = Http404
           ∧ (¬ active_cafe cafe_slug db
              ∨ ∀ r0, reviews db !! pk = Some r0 → ¬ active_review cafe_slug r0)
         ∨ e = PermissionDenied
           ∧ ∃ u r0, user = Some u
                     ∧ reviews db !! pk = Some r0 ∧ active_review cafe_slug r0
                     ∧ has_object_permission u r0 = false).
Proof.
  intros Hvalid. split; [split|].
  - intros (db1 & Hrun).
    destruct (destroy_cases _ _ _ _ _ _ Hvalid Hrun)
      as [(_ & [[[=] _]|[[[=] _]|[[=] _]]])
         |(u & r0 & -> & Hc & Hpk & Hact & Hperm & _)].
    by exists u, r0.
  - intros (u & r0 & -> & Hc & Hpk & Hact & Hperm).
    destruct (CafeReviewViewSet_destroy (Some u) cafe_slug pk db)
      as [r db1] eqn:Hrun.
    destruct (destroy_cases _ _ _ _ _ _ Hvalid Hrun)
      as [(_ & [[_ [=]]|[[_ [Hno|Hno]]|[_ (u' & r1 & [= <-] & Hpk' & _ & Hperm')]]])
         |(_ & _ & _ & _ & _ & _ & _ & -> & _)].
    + done.
    + by destruct (Hno r0).
    + congruence.
    + by eauto.
  - intros e db1 Hrun.
    destruct (destroy_cases _ _ _ _ _ _ Hvalid Hrun)
      as [(-> & He)|(_ & _ & _ & _ & _ & _ & _ & [=] & _)].
    split; [done|].
    destruct He as [[[= <-] ?]|[[[= <-] ?]|[[= <-] ?]]]; by eauto.
Qed.

Lemma destroy_review_succeeds_iff_witness :
  ∃ db1,
    CafeReviewViewSet_destroy (Some example_user) 7 11 one_review_db
    = (Ok tt, db1).
Proof.
  apply (destroy_review_succeeds_iff (Some example_user) 7 11 one_review_db
           all_reviews_valid_example).
  exists example_user, review_5_5. split; [reflexivity|].
  split; [eexists; split; reflexivity|].
  split; [reflexivity|]. split; [split; reflexivity|reflexivity].
Defined.

(** X5. A delete request that goes through, on a database whose reviews
    are all on the 1-5 scale, has set the review's [is_active] to false
    and rewritten the cafe's row, and nothing else: the review row is
    still there with its other columns as they were; the cafe's row keeps
    its location and is active, its averages are the means over the
    remaining active reviews rounded to two decimals, and its
    [rating_count] is the former number of active reviews minus one. *)
Theorem destroy_review_effect (user : option User.t) (cafe_slug pk : positive)
    (db db1 : DB) :
  all_reviews_valid db →
  CafeReviewViewSet_destroy user cafe_slug pk db = (Ok tt, db1) →
  ∃ r0 row row1,
    reviews db !! pk = Some r0
    ∧ active_review cafe_slug r0
    ∧ reviews db1 = <[pk := ReviewRow.set_is_active false r0]> (reviews db)
    ∧ cafes db !! cafe_slug = Some row
    ∧ cafes db1 = <[cafe_slug := row1]> (cafes db)
    ∧ CafeRow.location_id row1 = CafeRow.location_id row
    ∧ CafeRow.is_active row1 = true
    ∧ stores_rounded_means (active_reviews cafe_slug db1) row1
    ∧ CafeRow.rating_count row1 = Count (active_reviews cafe_slug db) - 1
    ∧ locations db1 = locations db.
Proof.
  intros Hvalid Hrun.
  destruct (destroy_cases _ _ _ _ _ _ Hvalid Hrun)
    as [(_ & [[[=] _]|[[[=] _]|[[=] _]]])
       |(u & r0 & -> & (row & Hrow & Ha) & Hpk & Hact & Hperm & _ & ->)].
  set (r' := ReviewRow.set_is_active false r0).
  set (dbr := set_reviews (<[pk := r']> (reviews db)) db).
  rewrite (recomputed_eq cafe_slug dbr row Hrow).
  exists r0, row, (recomputed_row (active_reviews cafe_slug dbr) row).
  do 6 (split; [done|]). split; [exact Ha|].
  split; [apply recomputed_row_rounded|]. split; [|done].
  cbn [CafeRow.rating_count recomputed_row]. unfold Count. subst dbr.
  pose proof (Permutation_length
                (active_reviews_replace cafe_slug pk r0 r' db Hpk)) as Hlen.
  rewrite !length_app, !active_review_filter_one in Hlen.
  rewrite decide_True in Hlen by done.
  rewrite decide_False in Hlen by (intros [_ Hf]; discriminate Hf).
  cbn [length] in Hlen. lia.
Qed.

Lemma destroy_review_effect_witness :
  ∃ db1 row1,
    CafeReviewViewSet_destroy (Some example_user) 7 11 one_review_db
    = (Ok tt, db1)
    ∧ reviews db1
      = <[11%positive := ReviewRow.set_is_active false review_5_5]>
          (reviews one_review_db)
    ∧ cafes db1 = <[7%positive := row1]> (cafes one_review_db)
    ∧ stores_rounded_means (active_reviews 7 db1) row1
    ∧ CafeRow.rating_count row1 = 0.
Proof.
  assert (∃ db1, CafeReviewViewSet_destroy (Some example_user) 7 11
                   one_review_db = (Ok tt, db1)) as (db1 & Hrun)
    by (eexists; vm_compute; reflexivity).
  destruct (destroy_review_effect _ _ _ _ _ all_reviews_valid_example Hrun)
    as (r0 & row & row1 & Hpk & _ & Hr & _ & Hc & _ & _ & Hs & Hn & _).
  injection Hpk as <-.
  exists db1, row1. split; [exact Hrun|]. split; [exact Hr|].
  split; [exact Hc|]. split; [exact Hs|exact Hn].
Defined.

(** ** The lists after a write request *)

Lemma active_cafe_recomputed (k cafe_slug : positive) (db : DB) :
  active_cafe cafe_slug db → active_cafe cafe_slug (recomputed k db).
Proof.
  intros (row & Hrow & Ha). unfold active_cafe.
  rewrite recomputed_lookup. destruct (decide (cafe_slug = k)) as [->|].
  - rewrite Hrow. by eexists.
  - by exists row.
Qed.

Lemma get_queryset_run (cafe_slug : positive) (db : DB) :
  active_cafe cafe_slug db →
  CafeReviewViewSet_get_queryset cafe_slug db
  = (Ok (filter (λ kr, active_review cafe_slug kr.2) (reviews db)), db).
Proof.
  intros (row & Hrow & Ha). unfold CafeReviewViewSet_get_queryset.
  mstep. by rewrite (get_cafe_run _ _ _ Hrow Ha).
Qed.

(** X6. After a delete request that went through, the review is gone
    from the cafe's list and from its author's list of own reviews, which
    are otherwise as before; the row itself is still in the table. *)
Theorem destroyed_review_is_hidden (user : option User.t)
    (cafe_slug pk : positive) (db db1 : DB) :
  all_reviews_valid db →
  CafeReviewViewSet_destroy user cafe_slug pk db = (Ok tt, db1) →
  ∃ r0 listed own,
    CafeReviewViewSet_get_queryset cafe_slug db = (Ok listed, db)
    ∧ listed !! pk = Some r0
    ∧ CafeReviewViewSet_get_queryset cafe_slug db1
      = (Ok (delete pk listed), db1)
    ∧ (∀ author, User.id author = ReviewRow.user_id r0 →
         UserReviewViewSet_get_queryset (Some author) db = (Ok own, db)
         ∧ own !! pk = Some r0
         ∧ UserReviewViewSet_get_queryset (Some author) db1
           = (Ok (delete pk own), db1))
    ∧ reviews db1 !! pk = Some (ReviewRow.set_is_active false r0).
Proof.
  intros Hvalid Hrun.
  destruct (destroy_cases _ _ _ _ _ _ Hvalid Hrun)
    as [(_ & [[[=] _]|[[[=] _]|[[=] _]]])
       |(u & r0 & -> & Hcafe & Hpk & Hact & Hperm & _ & ->)].
  set (r' := ReviewRow.set_is_active false r0).
  set (dbr := set_reviews (<[pk := r']> (reviews db)) db).
  exists r0, (filter (λ kr, active_review cafe_slug kr.2) (reviews db)),
    (filter (own_active_review (ReviewRow.user_id r0)) (reviews db)).
  split; [by apply get_queryset_run|].
  split; [by apply map_lookup_filter_Some|].
  split; [|split].
  - rewrite get_queryset_run by by apply active_cafe_recomputed.
    rewrite (proj1 (recomputed_frame cafe_slug dbr)).
    subst dbr. cbn [reviews set_reviews].
    rewrite map_filter_insert_False by (intros [_ Hf]; discriminate Hf).
    by rewrite map_filter_delete.
  - intros author Hauthor. unfold UserReviewViewSet_get_queryset,
      check_authenticated. munfold. rewrite Hauthor.
    split; [done|]. split; [apply map_lookup_filter_Some; split; [done|]|].
    { split; [done|]. apply Hact. }
    rewrite (proj1 (recomputed_frame cafe_slug dbr)).
    subst dbr. cbn [reviews set_reviews].
    rewrite map_filter_insert_False by (intros [_ Hf]; discriminate Hf).
    by rewrite map_filter_delete.
  - rewrite (proj1 (recomputed_frame cafe_slug dbr)).
    apply lookup_insert_eq.
Qed.

Lemma destroyed_review_is_hidden_witness :
  ∃ db1,
    CafeReviewViewSet_destroy (Some example_user) 7 11 one_review_db
    = (Ok tt, db1)
    ∧ CafeReviewViewSet_get_queryset 7 one_review_db
      = (Ok {[ 11%positive := review_5_5 ]}, one_review_db)
    ∧ CafeReviewViewSet_get_queryset 7 db1 = (Ok ∅, db1)
    ∧ UserReviewViewSet_get_queryset (Some example_user) db1 = (Ok ∅, db1)
    ∧ reviews db1 !! 11%positive
      = Some (ReviewRow.set_is_active false review_5_5).
Proof.
  assert (∃ db1, CafeReviewViewSet_destroy (Some example_user) 7 11
                   one_review_db = (Ok tt, db1)) as (db1 & Hrun)
    by (eexists; vm_compute; reflexivity).
  destruct (destroyed_review_is_hidden _ _ _ _ _ all_reviews_valid_example Hrun)
    as (r0 & listed & own & Hl & Hin & Hl1 & Hown & Hrow).
  assert (Hlisted : listed = {[ 11%positive := review_5_5 ]}).
  { assert (Hq : CafeReviewViewSet_get_queryset 7 one_review_db
                 = (Ok {[ 11%positive := review_5_5 ]}, one_review_db))
      by (vm_compute; reflexivity).
    congruence. }
  subst listed. apply lookup_singleton_Some in Hin as [_ <-].
  destruct (Hown example_user eq_refl) as (Ho & _ & Ho1).
  assert (Howned : own = {[ 11%positive := review_5_5 ]}).
  { assert (Hq : UserReviewViewSet_get_queryset (Some example_user)
                   one_review_db
                 = (Ok {[ 11%positive := review_5_5 ]}, one_review_db))
      by (vm_compute; reflexivity).
    congruence. }
  subst own. rewrite delete_singleton_eq in Hl1, Ho1.
  exists db1. by repeat split.
Defined.

(** X7. After a delete request that went through, every further delete
    or edit request for the review, from whatever logged-in user, is
    answered with Http404 and writes nothing: the review cannot be deleted
    twice, nor edited or restored through the API. *)
Theorem destroyed_review_is_gone (user : option User.t)
    (cafe_slug pk : positive) (db db1 : DB) :
  all_reviews_valid db →
  CafeReviewViewSet_destroy user cafe_slug pk db = (Ok tt, db1) →
  ∀ (u : User.t) (slug : positive),
    CafeReviewViewSet_destroy (Some u) slug pk db1 = (Raise Http404, db1)
    ∧ ∀ partial data,
        CafeReviewViewSet_update partial (Some u) slug pk data db1
        = (Raise Http404, db1).
Proof.
  intros Hvalid Hrun u slug.
  destruct (destroy_cases _ _ _ _ _ _ Hvalid Hrun)
    as [(_ & [[[=] _]|[[[=] _]|[[=] _]]])
       |(u0 & r0 & -> & Hcafe & Hpk & Hact & Hperm & _ & ->)].
  set (r' := ReviewRow.set_is_active false r0).
  set (dbr := set_reviews (<[pk := r']> (reviews db)) db).
  set (db1 := recomputed cafe_slug dbr).
  assert (Hrow : reviews db1 !! pk = Some r').
  { subst db1. rewrite (proj1 (recomputed_frame cafe_slug dbr)).
    apply lookup_insert_eq. }
  assert (Hget : get_object u slug pk db1 = (Raise Http404, db1)).
  { destruct (get_object u slug pk db1) as [r1 db2] eqn:Hget.
    apply get_object_cases in Hget
      as [-> [[-> _]|[[_ (r1' & Hpk1 & [_ Hf] & _)]
                     |(r1' & _ & Hpk1 & [_ Hf] & _)]]];
      [done|rewrite Hrow in Hpk1; injection Hpk1 as <-; discriminate Hf..]. }
  split; [|intros partial data].
  - unfold CafeReviewViewSet_destroy, check_authenticated.
    mstep. mval. mstep. by rewrite Hget.
  - unfold CafeReviewViewSet_update, check_authenticated.
    mstep. mval. mstep. by rewrite Hget.
Qed.

Lemma destroyed_review_is_gone_witness :
  ∃ db1,
    CafeReviewViewSet_destroy (Some example_user) 7 11 one_review_db
    = (Ok tt, db1)
    ∧ CafeReviewViewSet_destroy (Some example_user) 7 11 db1
      = (Raise Http404, db1).
Proof.
  assert (∃ db1, CafeReviewViewSet_destroy (Some example_user) 7 11
                   one_review_db = (Ok tt, db1)) as (db1 & Hrun)
    by (eexists; vm_compute; reflexivity).
  exists db1. split; [exact Hrun|].
  apply (destroyed_review_is_gone _ _ _ _ _ all_reviews_valid_example Hrun).
Defined.

(** ** Field validation *)

Lemma validate_patch_sound (partial : bool) (patch : ReviewPatch.t) :
  (∃ v, validate_patch partial patch = Ok v) → acceptable_patch partial patch.
Proof.
  intros [v Hv]. revert Hv. unfold validate_patch, acceptable_patch.
  destruct partial; cbn [negb andb].
  all: repeat case_bool_decide; cbn [negb orb]; try discriminate.
  all: destruct (validate_if_present validate_rating_overall _) as [o|] eqn:Ho;
    [|discriminate].
  all: destruct (validate_if_present validate_optional_rating
                   (ReviewPatch.rating_wifi patch)) as [w|] eqn:Hw;
    [|discriminate].
  all: destruct (validate_if_present validate_optional_rating
                   (ReviewPatch.rating_power patch)) as [p|] eqn:Hp;
    [|discriminate].
  all: destruct (validate_if_present validate_optional_rating
                   (ReviewPatch.rating_noise patch)) as [n|] eqn:Hn;
    [|discriminate].
  all: destruct (validate_if_present validate_optional_rating
                   (ReviewPatch.rating_coffee patch)) as [c|] eqn:Hc;
    [|discriminate].
  all: destruct (validate_if_present validate_text_field _) as [t|] eqn:Ht;
    [|discriminate].
  all: intros _; split; [done|].
  all: apply validate_if_present_inv in Ho
    as [[-> ->]|(? & ? & -> & -> & [-> ?]%validate_rating_overall_ok)].
  all: apply validate_if_present_inv in Hw
    as [[-> ->]|(? & ? & -> & -> & [-> ?]%validate_optional_rating_ok)].
  all: apply validate_if_present_inv in Hp
    as [[-> ->]|(? & ? & -> & -> & [-> ?]%validate_optional_rating_ok)].
  all: apply validate_if_present_inv in Hn
    as [[-> ->]|(? & ? & -> & -> & [-> ?]%validate_optional_rating_ok)].
  all: apply validate_if_present_inv in Hc
    as [[-> ->]|(? & ? & -> & -> & [-> ?]%validate_optional_rating_ok)].
  all: apply validate_if_present_inv in Ht
    as [[-> ->]|(? & ? & -> & -> & (_ & _ & ?)%validate_text_field_ok)].
  all: do 5 (split; [intros ? [= <-]; done|]); intros ? [= <-]; done.
Qed.

(** X8. What field validation accepts is acceptable: for a create
    request, an overall rating on the 1-5 scale, every other rating on
    the scale or left out, and a text that, stripped, has between 10 and
    2000 characters and no NUL character; for an edit request, the same
    rules for every field sent and, for a full update, the overall rating
    and the text both sent. Whatever it refuses, it refuses with a
    ValidationError. *)
Theorem field_validation_accepts (data : ReviewData.t) (partial : bool)
    (patch : ReviewPatch.t) :
  (∀ attrs, validate_fields data = Ok attrs → acceptable_fields data)
  ∧ (∀ v, validate_patch partial patch = Ok v → acceptable_patch partial patch)
  ∧ (∀ e, validate_fields data = Raise e → e = ValidationError)
  ∧ (∀ e, validate_patch partial patch = Raise e → e = ValidationError).
Proof.
  split; [|split; [|split]].
  - apply validate_fields_acceptable.
  - intros v Hv. apply validate_patch_sound. by exists v.
  - apply validate_fields_exn.
  - apply validate_patch_exn.
Qed.

(** ** Edit requests *)



Lemma unique_pairs_example : unique_pairs one_review_db.
Proof.
  intros k1 k2 r1 r2. cbn [reviews one_review_db].
  by intros [<- _]%lookup_singleton_Some [<- _]%lookup_singleton_Some.
Qed.

(** X9. The edit method ([partial_update], the PATCH the router exposes,
    and the inherited [update]) on a database whose reviews are all on
    the 1-5 scale, with one row per (user, cafe) pair. If the request
    goes through, the user is logged in, the cafe behind the slug is
    there and active, the review is an active review of that cafe, the
    user is its author or an admin, and the fields sent are acceptable.
    If it does not, the database is as it was and the answer is
    NotAuthenticated, Http404, PermissionDenied or a ValidationError:
    once validation has passed nothing fails. *)
Theorem update_review_outcomes (partial : bool) (user : option User.t)
    (cafe_slug pk : positive) (data : ReviewPatch.t) (db : DB) :
  all_reviews_valid db → unique_pairs db →
  (∀ review db1,
     CafeReviewViewSet_update partial user cafe_slug pk data db
     = (Ok review, db1) →
     ∃ u r0,
       user = Some u
       ∧ active_cafe cafe_slug db
       ∧ reviews db !! pk = Some r0 ∧ active_review cafe_slug r0
       ∧ has_object_permission u r0 = true
       ∧ acceptable_patch partial data)
  ∧ ∀ e db1,
      CafeReviewViewSet_update partial user cafe_slug pk data db
      = (Raise e, db1) →
      db1 = db
      ∧ (e = NotAuthenticated ∧ user = None
         ∨ e = Http404
           ∧ (¬ active_cafe cafe_slug db
              ∨ ∀ r0, reviews db !! pk = Some r0 → ¬ active_review cafe_slug r0)
         ∨ e = PermissionDenied
           ∧ (∃ u r0, user = Some u
                      ∧ reviews db !! pk = Some r0 ∧ active_review cafe_slug r0
                      ∧ has_object_permission u r0 = false)
         ∨ e = ValidationError).
Proof.
  intros Hvalid Huniq. split.
  - intros review db1 Hrun.
    destruct (update_cases _ _ _ _ _ _ _ _ Hvalid Huniq Hrun)
      as [(_ & [[[=] _]|[[[=] _]|[[[=] _]|[[=] _]]]])
         |(u & r0 & new & c' & -> & Hc & Hpk & Hact & Hperm & Hv & _)].
    exists u, r0. do 5 (split; [done|]). by apply validate_patch_sound.
  - intros e db1 Hrun.
    destruct (update_cases _ _ _ _ _ _ _ _ Hvalid Huniq Hrun)
      as [(-> & He)|(_ & _ & _ & _ & _ & _ & _ & _ & _ & _ & _ & _ & [=] & _)].
    split; [done|].
    destruct He as [[[= <-] ?]|[[[= <-] ?]|[[[= <-] ?]|[[= <-] _]]]];
      by eauto 10.
Qed.

Lemma update_review_outcomes_witness :
  ∃ review db1,
    CafeReviewViewSet_update true (Some example_user) 7 11 example_patch
      one_review_db = (Ok review, db1)
    ∧ acceptable_patch true example_patch.
Proof.
  assert (∃ review db1,
            CafeReviewViewSet_update true (Some example_user) 7 11
              example_patch one_review_db = (Ok review, db1))
    as (review & db1 & Hrun) by (eexists _, _; vm_compute; reflexivity).
  destruct (update_review_outcomes true (Some example_user) 7 11
              example_patch one_review_db all_reviews_valid_example
              unique_pairs_example) as [Hok _].
  destruct (Hok review db1 Hrun) as (u & r0 & _ & _ & _ & _ & _ & Hacc).
  by exists review, db1.
Defined.

(** X10. An edit request that goes through, on such a database, has
    rewritten the review's row and the cafe's row, and nothing else. The
    review keeps its cafe, its author and its [is_active]; the fields sent
    replace the old values, the text stripped; the row is on the 1-5
    scale. The cafe's row keeps its location and is active; its averages
    are the means over the cafe's active reviews as they are now, rounded
    to two decimals; its [rating_count] is the number of active reviews,
    as before. *)
Theorem update_review_effect (partial : bool) (user : option User.t)
    (cafe_slug pk : positive) (data : ReviewPatch.t) (db db1 : DB)
    (review : Review.t) :
  all_reviews_valid db → unique_pairs db →
  CafeReviewViewSet_update partial user cafe_slug pk data db
  = (Ok review, db1) →
  ∃ r0 new row row1,
    reviews db !! pk = Some r0
    ∧ active_review cafe_slug r0
    ∧ Review.pk review = pk ∧ Review.fields review = new
    ∧ edited data r0 new
    ∧ valid_review new
    ∧ reviews db1 = <[pk := new]> (reviews db)
    ∧ cafes db !! cafe_slug = Some row
    ∧ cafes db1 = <[cafe_slug := row1]> (cafes db)
    ∧ CafeRow.location_id row1 = CafeRow.location_id row
    ∧ CafeRow.is_active row1 = true
    ∧ stores_rounded_means (active_reviews cafe_slug db1) row1
    ∧ CafeRow.rating_count row1 = Count (active_reviews cafe_slug db)
    ∧ locations db1 = locations db.
Proof.
  intros Hvalid Huniq Hrun.
  destruct (update_cases _ _ _ _ _ _ _ _ Hvalid Huniq Hrun)
    as [(_ & [[[=] _]|[[[=] _]|[[[=] _]|[[=] _]]]])
       |(u & r0 & new & c' & -> & (row & Hrow & Ha) & Hpk & Hact & Hperm & _
         & Hed & Hnew & [= ->] & ->)].
  set (dbr := set_reviews (<[pk := new]> (reviews db)) db).
  rewrite (recomputed_eq cafe_slug dbr row Hrow).
  exists r0, new, row, (recomputed_row (active_reviews cafe_slug dbr) row).
  do 10 (split; [done|]). split; [exact Ha|].
  split; [apply recomputed_row_rounded|]. split; [|done].
  cbn [CafeRow.rating_count recomputed_row]. unfold Count. subst dbr.
  pose proof (Permutation_length
                (active_reviews_replace cafe_slug pk r0 new db Hpk)) as Hlen.
  rewrite !length_app, !active_review_filter_one in Hlen.
  destruct Hed as (Hc & _ & Hia & _). destruct Hact as [Hc0 Ha0].
  rewrite !decide_True in Hlen by (split; congruence).
  cbn [length] in Hlen. lia.
Qed.

Lemma update_review_effect_witness :
  ∃ review db1 new row1,
    CafeReviewViewSet_update true (Some example_user) 7 11 example_patch
      one_review_db = (Ok review, db1)
    ∧ reviews db1 = <[11%positive := new]> (reviews one_review_db)
    ∧ ReviewRow.rating_overall new = 3
    ∧ ReviewRow.rating_wifi new = Some 5
    ∧ cafes db1 = <[7%positive := row1]> (cafes one_review_db)
    ∧ stores_rounded_means (active_reviews 7 db1) row1
    ∧ CafeRow.rating_count row1 = 1.
Proof.
  assert (∃ review db1,
            CafeReviewViewSet_update true (Some example_user) 7 11
              example_patch one_review_db = (Ok review, db1))
    as (review & db1 & Hrun) by (eexists _, _; vm_compute; reflexivity).
  destruct (update_review_effect _ _ _ _ _ _ _ _ all_reviews_valid_example
              unique_pairs_example Hrun)
    as (r0 & new & row & row1 & Hpk & _ & _ & _ & Hed & _ & Hr & _ & Hc & _
        & _ & Hs & Hn & _).
  injection Hpk as <-.
  destruct Hed as (_ & _ & _ & Ho & Hw & _).
  exists review, db1, new, row1. split; [exact Hrun|]. split; [exact Hr|].
  split; [exact Ho|]. split; [exact Hw|].
  split; [exact Hc|]. split; [exact Hs|exact Hn].
Defined.

(** ** What every write request of the review API preserves *)

Lemma review_request_cases (db db' : DB) :
  all_reviews_valid db → unique_pairs db →
  review_request db db' →
  db' = db
  ∨ ∃ cafe_slug pk new row,
      cafes db !! cafe_slug = Some row
      ∧ (∀ r0, reviews db !! pk = Some r0 → ReviewRow.cafe_id r0 = cafe_slug)
      ∧ ReviewRow.cafe_id new = cafe_slug
      ∧ valid_review new
      ∧ ¬ unique_together_taken pk new (reviews db)
      ∧ db' = recomputed cafe_slug
                (set_reviews (<[pk := new]> (reviews db)) db).
Proof.
  intros Hvalid Huniq [id user slug data r db1 Hrun
                      |partial user slug pk data r db1 Hrun
                      |user slug pk r db1 Hrun].
  - destruct (create_cases _ _ _ _ _ _ _ Hvalid Hrun)
      as [(e & _ & -> & _)
         |(u & new & c' & -> & (row & Hrow & _) & _ & Hex & Hid & Hreq & Hnew
           & _ & _ & ->)]; [by left|].
    right. exists slug, id, new, row. split; [done|].
    split; [intros r0; by rewrite Hid|].
    destruct Hreq as (Hc & Hu & _). do 2 (split; [done|]).
    split; [|done]. by apply (Review_exists_false (User.id u) slug).
  - destruct (update_cases _ _ _ _ _ _ _ _ Hvalid Huniq Hrun)
      as [(-> & _)
         |(u & r0 & new & c' & -> & (row & Hrow & _) & Hpk & [Hc _] & _ & _
           & (Hc' & Hu' & _) & Hnew & _ & ->)]; [by left|].
    right. exists slug, pk, new, row. split; [done|].
    split; [intros r1; rewrite Hpk; by intros [= <-]|].
    split; [congruence|]. split; [done|]. split; [|done].
    by eapply unique_pairs_free.
  - destruct (destroy_cases _ _ _ _ _ _ Hvalid Hrun)
      as [(-> & _)
         |(u & r0 & -> & (row & Hrow & _) & Hpk & [Hc _] & _ & _ & ->)];
      [by left|].
    right. exists slug, pk, (ReviewRow.set_is_active false r0), row.
    split; [done|]. split; [intros r1; rewrite Hpk; by intros [= <-]|].
    split; [done|]. split; [by eapply valid_review_set_is_active, Hvalid|].
    split; [|done]. by eapply unique_pairs_free.
Qed.

(** X11. Every write request of the review API (create, edit, delete),
    whatever its outcome, keeps the reviews table sound: every row on the
    1-5 scale, and at most one row per (user, cafe) pair. *)
Theorem review_requests_keep_reviews_sound (db db' : DB) :
  all_reviews_valid db → unique_pairs db →
  review_request db db' →
  all_reviews_valid db' ∧ unique_pairs db'.
Proof.
  intros Hvalid Huniq Hreq.
  destruct (review_request_cases _ _ Hvalid Huniq Hreq)
    as [->|(slug & pk & new & row & _ & _ & _ & Hnew & Hfree & ->)]; [done|].
  split.
  - apply all_reviews_valid_recomputed. by apply all_reviews_valid_insert.
  - eapply unique_pairs_insert; [exact Huniq| |exact Hfree].
    by rewrite (proj1 (recomputed_frame _ _)).
Qed.

Lemma review_requests_keep_reviews_sound_witness :
  all_reviews_valid one_review_db_deleted ∧ unique_pairs one_review_db_deleted.
Proof.
  apply (review_requests_keep_reviews_sound one_review_db);
    [exact all_reviews_valid_example|exact unique_pairs_example|].
  apply (request_destroy _ (Some example_user) 7 11
           (CafeReviewViewSet_destroy (Some example_user) 7 11 one_review_db).1).
  unfold one_review_db_deleted. apply surjective_pairing.
Defined.

(** X12. Every write request of the review API, whatever its outcome,
    keeps the stored ratings up to date: if before the request every
    cafe's row held the rounded means and the count of its active reviews,
    it does so after. *)
Theorem review_requests_keep_ratings_up_to_date (db db' : DB) :
  all_reviews_valid db → unique_pairs db →
  ratings_up_to_date db →
  review_request db db' →
  ratings_up_to_date db'.
Proof.
  intros Hvalid Huniq Hup Hreq.
  destruct (review_request_cases _ _ Hvalid Huniq Hreq)
    as [->|(slug & pk & new & row & Hrow & Hold & Hc & _ & _ & ->)]; [done|].
  set (dbr := set_reviews (<[pk := new]> (reviews db)) db).
  intros k rowk. rewrite recomputed_lookup.
  rewrite (active_reviews_ext k dbr _ (proj1 (recomputed_frame slug dbr))).
  destruct (decide (k = slug)) as [->|Hne].
  - change (cafes dbr) with (cafes db). rewrite Hrow. intros [= <-].
    apply recomputed_row_rounded.
  - change (cafes dbr) with (cafes db). intros Hk.
    eapply stores_rounded_means_Permutation; [|by apply Hup].
    symmetry. apply active_reviews_other_cafe; [|congruence].
    intros r0 Hr0. rewrite (Hold r0 Hr0). congruence.
Qed.

Lemma ratings_up_to_date_example : ratings_up_to_date one_review_db.
Proof.
  intros k row. cbn [cafes one_review_db].
  intros [<- <-]%lookup_singleton_Some.
  apply (recomputed_row_rounded (active_reviews 7 one_review_db)
           (CafeRow.mk 1 true 0 0 0 0 0 0)).
Qed.

Lemma review_requests_keep_ratings_up_to_date_witness :
  ratings_up_to_date one_review_db_deleted.
Proof.
  apply (review_requests_keep_ratings_up_to_date one_review_db);
    [exact all_reviews_valid_example|exact unique_pairs_example
    |exact ratings_up_to_date_example|].
  apply (request_destroy _ (Some example_user) 7 11
           (CafeReviewViewSet_destroy (Some example_user) 7 11 one_review_db).1).
  unfold one_review_db_deleted. apply surjective_pairing.
Defined.

(** ** Recomputes and the cafe counters *)

Lemma active_cafes_at_same_flags (l k : positive) (row row' : CafeRow.t)
    (db db' : DB) :
  cafes db !! k = Some row →
  cafes db' = <[k := row']> (cafes db) →
  CafeRow.location_id row' = CafeRow.location_id row →
  CafeRow.is_active row' = CafeRow.is_active row →
  active_cafes_at l db' = active_cafes_at l db.
Proof.
  intros Hrow Hc Hl Ha.
  rewrite (active_cafes_at_insert l k row' db db' Hc).
  rewrite (active_cafes_at_split l k db), Hrow. cbn [old_counts_for].
  by rewrite Hl, Ha.
Qed.

Lemma active_cafes_at_recomputed (l k : positive) (db : DB) :
  active_cafes_at l (recomputed k db) = active_cafes_at l db.
Proof.
  destruct (cafes db !! k) as [row|] eqn:Hrow.
  - rewrite (recomputed_eq k db row Hrow).
    by eapply active_cafes_at_same_flags.
  - unfold recomputed. by rewrite Hrow.
Qed.

Lemma counts_consistent_ext (db db' : DB) :
  locations db' = locations db →
  (∀ l, active_cafes_at l db' = active_cafes_at l db) →
  counts_consistent db → counts_consistent db'.
Proof.
  intros Hl Ha Hcons l n. unfold cafe_count_of. rewrite Hl, Ha. apply Hcons.
Qed.

(** X13. Every write request of the review API, whatever its outcome,
    leaves the locations table as it was and changes neither the location
    nor the [is_active] of any cafe; so each location's [cafe_count] still
    equals the number of its active cafes if it did before. *)
Theorem review_requests_leave_counters (db db' : DB) :
  all_reviews_valid db → unique_pairs db →
  review_request db db' →
  locations db' = locations db
  ∧ (∀ l, active_cafes_at l db' = active_cafes_at l db)
  ∧ (counts_consistent db → counts_consistent db').
Proof.
  intros Hvalid Huniq Hreq.
  destruct (review_request_cases _ _ Hvalid Huniq Hreq)
    as [->|(slug & pk & new & row & _ & _ & _ & _ & _ & ->)]; [done|].
  set (dbr := set_reviews (<[pk := new]> (reviews db)) db).
  assert (Hl : locations (recomputed slug dbr) = locations db)
    by apply (recomputed_frame slug dbr).
  assert (Ha : ∀ l, active_cafes_at l (recomputed slug dbr)
                    = active_cafes_at l db)
    by (intros l; apply (active_cafes_at_recomputed l slug dbr)).
  split; [done|]. split; [done|]. by apply counts_consistent_ext.
Qed.

Lemma review_requests_leave_counters_witness :
  locations one_review_db_deleted = locations one_review_db.
Proof.
  apply (review_requests_leave_counters one_review_db);
    [exact all_reviews_valid_example|exact unique_pairs_example|].
  apply (request_destroy _ (Some example_user) 7 11
           (CafeReviewViewSet_destroy (Some example_user) 7 11 one_review_db).1).
  unfold one_review_db_deleted. apply surjective_pairing.
Defined.

Lemma update_rating_stats_in_sync_outcome (self : Cafe.t) (db : DB) :
  in_sync self db →
  (∃ e, update_rating_stats self db = (Raise e, db))
  ∨ ∃ row v self',
      cafes db !! Cafe.pk self = Some row
      ∧ update_rating_stats self db
        = (Ok self',
           set_cafes
             (<[Cafe.pk self :=
                  with_ratings v (Count (active_reviews (Cafe.pk self) db)) row]>
                (cafes db)) db).
Proof.
  intros (row & Hrow & Hloc & Hact).
  rewrite update_rating_stats_unfold.
  set (s := with_stats _ self).
  destruct (Model_save_Cafe_rating_fields_outcome s db)
    as [[e ->]|(row' & v & Hrow' & Hv & Hcount)]; [left; by eexists|].
  change (Cafe.pk s) with (Cafe.pk self) in Hrow'.
  assert (row' = row) as -> by congruence.
  rewrite (Model_save_Cafe_rating_fields s db row v Hrow' Hv Hcount).
  unfold mbind, M_bind.
  rewrite cafe_post_save_in_sync; [|by cbn|by cbn; rewrite Hact].
  right. by eexists row, v, _.
Qed.

(** X14. A recompute from a cafe object that agrees with its row on
    location and [is_active] never touches the counters, whatever the
    reviews and whatever its outcome: the locations table is unchanged, no
    location gains or loses an active cafe, and each [cafe_count] still
    equals the number of active cafes if it did before. *)
Theorem recompute_leaves_counters (self : Cafe.t) (db : DB) :
  in_sync self db →
  let db' := (update_rating_stats self db).2 in
  locations db' = locations db
  ∧ (∀ l, active_cafes_at l db' = active_cafes_at l db)
  ∧ (counts_consistent db → counts_consistent db').
Proof.
  intros Hsync db'. subst db'.
  destruct (update_rating_stats_in_sync_outcome self db Hsync)
    as [[e ->]|(row & v & self' & Hrow & ->)]; [done|].
  cbn [snd].
  set (db' := set_cafes _ db).
  assert (Ha : ∀ l, active_cafes_at l db' = active_cafes_at l db).
  { intros l. eapply active_cafes_at_same_flags; [exact Hrow|reflexivity|..];
      apply with_ratings_is_active. }
  split; [done|]. split; [done|]. by apply counts_consistent_ext.
Qed.

Lemma recompute_leaves_counters_witness :
  locations (update_rating_stats example_cafe example_db).2
  = locations example_db.
Proof.
  apply (recompute_leaves_counters example_cafe example_db).
  exists example_cafe_row. by repeat split.
Defined.

(** X15. A recompute from a cafe object whose [is_active] differs from
    the stored row (the row was changed by someone else since the object
    was loaded, or the attribute was set and not saved) moves the counter
    of the cafe's location by one, up for an active object and down for
    an inactive one, although the recompute does not write [is_active]:
    the row keeps its [is_active], no location gains or loses an active
    cafe, and a [cafe_count] that was right is wrong afterwards. *)
Theorem stale_recompute_moves_counter (self self' : Cafe.t) (db db' : DB)
    (row : CafeRow.t) (n : Z) :
  cafes db !! Cafe.pk self = Some row →
  Cafe.location_id self = Some (CafeRow.location_id row) →
  Cafe.is_active self = negb (CafeRow.is_active row) →
  cafe_count_of (CafeRow.location_id row) db = Some n →
  update_rating_stats self db = (Ok self', db') →
  cafe_count_of (CafeRow.location_id row) db'
  = Some (n + (if Cafe.is_active self then 1 else -1))
  ∧ (∃ row', cafes db' !! Cafe.pk self = Some row'
             ∧ CafeRow.is_active row' = CafeRow.is_active row
             ∧ CafeRow.location_id row' = CafeRow.location_id row)
  ∧ (∀ l, active_cafes_at l db' = active_cafes_at l db)
  ∧ (counts_consistent db → ¬ counts_consistent db').
Proof.
  intros Hrow Hloc Hact Hn Hrun.
  rewrite update_rating_stats_unfold in Hrun.
  set (s := with_stats _ self) in *.
  destruct (Model_save_Cafe_rating_fields_inv _ _ _ _ Hrun)
    as (row' & v & Hrow' & Hv & Hcount).
  change (Cafe.pk s) with (Cafe.pk self) in Hrow'.
  assert (row' = row) as -> by congruence.
  rewrite (Model_save_Cafe_rating_fields s db row v Hrow' Hv Hcount) in Hrun.
  set (s' := Cafe.set_old _ _ s) in *. set (dbw := set_cafes _ db) in *.
  set (delta := if Cafe.is_active self then 1 else -1).
  assert (Hpost : cafe_post_save s' false dbw
                  = update_location_cafe_count
                      (Some (CafeRow.location_id row)) delta dbw).
  { unfold cafe_post_save. cbn [s' s Cafe._old_location_id Cafe._old_is_active
      Cafe.set_old Cafe.location_id Cafe.is_active with_stats Cafe.set_ratings].
    rewrite Hloc, Hact.
    rewrite (bool_decide_eq_true_2 (Some _ = Some _)) by done.
    rewrite andb_false_r.
    rewrite bool_decide_eq_false_2 by (by destruct (CafeRow.is_active row)).
    cbn [negb]. subst delta. by rewrite Hact. }
  unfold mbind, M_bind in Hrun. rewrite Hpost in Hrun.
  destruct (update_location_cafe_count _ delta dbw) as [[[]|e] db2] eqn:Hupd;
    [|discriminate].
  injection Hrun as <- <-.
  apply update_location_cafe_count_inv in Hupd as ->.
  set (db' := adjusted _ delta dbw).
  assert (Hcount' : cafe_count_of (CafeRow.location_id row) db'
                    = Some (n + delta)).
  { subst db'. rewrite cafe_count_of_adjusted.
    rewrite bool_decide_eq_true_2 by done.
    change (cafe_count_of (CafeRow.location_id row) dbw)
      with (cafe_count_of (CafeRow.location_id row) db).
    by rewrite Hn. }
  assert (Hcafes : cafes db' = cafes dbw) by apply adjusted_frame.
  assert (Hsame : ∀ l, active_cafes_at l db' = active_cafes_at l db).
  { intros l.
    eapply (active_cafes_at_same_flags l (Cafe.pk self) row);
      [exact Hrow|exact Hcafes|apply with_ratings_is_active..]. }
  split; [done|]. split; [|split; [done|]].
  - exists (with_ratings v (Cafe.rating_count s) row).
    rewrite Hcafes. subst dbw. cbn [cafes set_cafes].
    rewrite lookup_insert_eq. split; [done|]. apply with_ratings_is_active.
  - intros Hcons Hcons'.
    pose proof (Hcons _ _ Hn) as H0. pose proof (Hcons' _ _ Hcount') as H1.
    rewrite Hsame in H1. subst delta.
    destruct (Cafe.is_active self); lia.
Qed.

Lemma stale_recompute_moves_counter_witness :
  ∃ self' db',
    update_rating_stats example_stale_cafe example_db = (Ok self', db')
    ∧ cafe_count_of 1 example_db = Some 1
    ∧ cafe_count_of 1 db' = Some 0
    ∧ active_cafes_at 1 db' = 1.
Proof.
  assert (∃ self' db',
            update_rating_stats example_stale_cafe example_db = (Ok self', db'))
    as (self' & db' & Hrun) by (eexists _, _; vm_compute; reflexivity).
  destruct (stale_recompute_moves_counter example_stale_cafe self' example_db
              db' example_cafe_row 1 eq_refl eq_refl eq_refl eq_refl Hrun)
    as (Hcount & _ & Hsame & _).
  exists self', db'. split; [exact Hrun|]. split; [reflexivity|].
  split; [exact Hcount|]. rewrite Hsame. reflexivity.
Defined.

(** ** [Review.delete] *)

Lemma all_reviews_valid_delete (pk : positive) (db : DB) :
  all_reviews_valid db →
  all_reviews_valid (set_reviews (delete pk (reviews db)) db).
Proof.
  intros Hvalid k r. cbn [reviews set_reviews].
  intros [_ Hk]%lookup_delete_Some. by eapply Hvalid.
Qed.

(** X16. [Review.delete] on a database whose reviews are all on the 1-5
    scale, for a review object that agrees with the database on its cafe:
    the call returns; the review's row is gone and no other review row
    has changed; the cafe's row keeps its location and [is_active], holds
    the means over the remaining active reviews rounded to two decimals,
    and its [rating_count] is one less if the review was active; no other
    cafe row and no location has changed; ratings that were up to date
    for every cafe still are. *)
Theorem Review_delete_effect (self : Review.t) (db : DB) :
  all_reviews_valid db →
  review_in_sync self db →
  ∃ db' r0 row row1,
    Review_delete self db = (Ok tt, db')
    ∧ reviews db !! Review.pk self = Some r0
    ∧ reviews db' = delete (Review.pk self) (reviews db)
    ∧ cafes db !! ReviewRow.cafe_id r0 = Some row
    ∧ cafes db' = <[ReviewRow.cafe_id r0 := row1]> (cafes db)
    ∧ CafeRow.location_id row1 = CafeRow.location_id row
    ∧ CafeRow.is_active row1 = CafeRow.is_active row
    ∧ stores_rounded_means (active_reviews (ReviewRow.cafe_id r0) db') row1
    ∧ CafeRow.rating_count row1
      = Count (active_reviews (ReviewRow.cafe_id r0) db)
        - (if ReviewRow.is_active r0 then 1 else 0)
    ∧ locations db' = locations db
    ∧ (ratings_up_to_date db → ratings_up_to_date db').
Proof.
  intros Hvalid ((r0 & Hpk & Hc) & [row Hrow] & Hcache).
  set (k := ReviewRow.cafe_id (Review.fields self)) in *.
  set (dbd := set_reviews (delete (Review.pk self) (reviews db)) db).
  assert (Hget : ∃ c, Review_get_cafe self db = (Ok c, db)
                      ∧ Cafe.pk c = k ∧ in_sync c dbd).
  { unfold Review_get_cafe. destruct (Review.cafe self) as [c|].
    - exists c. by destruct Hcache.
    - exists (Cafe.from_db k row). unfold Cafe_objects_get. munfold.
      fold k. rewrite Hrow. split; [done|]. split; [done|].
      by apply (from_db_in_sync k row dbd). }
  destruct Hget as (c & Hget & Hck & Hsync).
  destruct (update_rating_stats_recomputed c dbd) as (c' & Hrun & _);
    [by apply all_reviews_valid_delete|done|].
  rewrite Hck in Hrun.
  assert (Hdel : Review_delete self db = (Ok tt, recomputed k dbd)).
  { unfold Review_delete. mstep. rewrite Hget. munfold. fold dbd.
    by rewrite Hrun. }
  rewrite (recomputed_eq k dbd row Hrow) in Hdel.
  eexists _, r0, row, (recomputed_row (active_reviews k dbd) row).
  split; [exact Hdel|]. rewrite <- Hc. do 6 (split; [done|]).
  split; [apply recomputed_row_rounded|].
  assert (Hlen : Z.of_nat (length (active_reviews k dbd))
                 = Count (active_reviews k db)
                   - (if ReviewRow.is_active r0 then 1 else 0)).
  { unfold Count.
    rewrite (Permutation_length (active_reviews_delete k _ r0 db Hpk)).
    rewrite length_app, active_review_filter_one. fold dbd.
    destruct (ReviewRow.is_active r0) eqn:Ha.
    - rewrite decide_True by done. cbn [length]. lia.
    - rewrite decide_False by (intros [_ Hf]; congruence). cbn [length]. lia. }
  split; [exact Hlen|]. split; [done|].
  intros Hup k' row'. cbn [cafes set_cafes].
  destruct (decide (k' = k)) as [->|Hne].
  - rewrite lookup_insert_eq. intros [= <-]. apply recomputed_row_rounded.
  - rewrite lookup_insert_ne by done. intros Hk'.
    eapply stores_rounded_means_Permutation; [|by apply Hup].
    rewrite (active_reviews_delete k' _ r0 db Hpk).
    rewrite active_review_filter_one.
    rewrite decide_False by (intros [Hf _]; congruence). done.
Qed.

Lemma all_valid_example_db : all_reviews_valid example_db.
Proof.
  intros k r. cbn [reviews example_db].
  rewrite !lookup_insert_Some, lookup_singleton_Some.
  intros [[_ <-]|[_ [[_ <-]|[_ [_ <-]]]]].
  all: unfold valid_review, valid_optional_rating, valid_rating,
         review_5_5, review_4_4, review_2.
  all: cbn; repeat split; lia.
Qed.

Lemma Review_delete_effect_witness :
  ∃ db' row1,
    Review_delete example_review example_db = (Ok tt, db')
    ∧ reviews db' = delete 11%positive (reviews example_db)
    ∧ cafes db' = <[7%positive := row1]> (cafes example_db)
    ∧ stores_rounded_means (active_reviews 7 db') row1
    ∧ CafeRow.rating_count row1 = 2.
Proof.
  destruct (Review_delete_effect example_review example_db)
    as (db' & r0 & row & row1 & Hrun & Hpk & Hr & _ & Hc & _ & _ & Hs & Hn & _).
  - apply all_valid_example_db.
  - split; [exists review_5_5; split; reflexivity|].
    split; [by eexists|]. split; [reflexivity|apply example_in_sync].
  - injection Hpk as <-. by exists db', row1.
Defined.

(** ** The loops of the admin actions *)

Lemma in_sync_recomputed (c : Cafe.t) (k : positive) (db : DB) :
  in_sync c db → in_sync c (recomputed k db).
Proof.
  intros (row & Hrow & Hl & Ha). unfold in_sync.
  rewrite recomputed_lookup, Hrow.
  destruct (decide (Cafe.pk c = k)); by eexists.
Qed.

Lemma is_Some_cafes_recomputed (k k' : positive) (db : DB) :
  is_Some (cafes db !! k') → is_Some (cafes (recomputed k db) !! k').
Proof.
  intros [row Hrow]. rewrite recomputed_lookup, Hrow.
  destruct (decide (k' = k)); by eexists.
Qed.

Lemma elem_of_queryset_rows {A : Type} (qs : queryset A) (m : gmap positive A)
    (kr : positive * A) :
  kr ∈ queryset_rows qs m ↔ m !! kr.1 = Some kr.2 ∧ qs kr.1 kr.2 = true.
Proof.
  unfold queryset_rows. rewrite list_elem_of_filter.
  destruct kr as [k r]. rewrite elem_of_map_to_list. cbn. tauto.
Qed.

(** The loop of [recalculate_ratings] over cafe objects that agree with
    their rows. *)
Lemma for_each_recalculate (l : list (positive * CafeRow.t)) (db : DB) :
  all_reviews_valid db →
  (∀ kr, kr ∈ l → in_sync (Cafe.from_db kr.1 kr.2) db) →
  for_each (λ kr, update_rating_stats (Cafe.from_db kr.1 kr.2);; mret tt) l db
  = (Ok tt, recompute_all l.*1 db).
Proof.
  revert db. induction l as [|kr l IH]; intros db Hvalid Hsync; [done|].
  cbn [for_each]. mstep. mstep.
  destruct (update_rating_stats_recomputed (Cafe.from_db kr.1 kr.2) db Hvalid)
    as (c' & -> & _); [apply Hsync; left|].
  mval. cbn [Cafe.pk Cafe.from_db].
  rewrite IH.
  - done.
  - by apply all_reviews_valid_recomputed.
  - intros kr' Hin. apply in_sync_recomputed, Hsync. by right.
Qed.

(** The loop of [activate_reviews] and [deactivate_reviews] over reviews
    whose cafes are there. *)
Lemma for_each_recompute_cafe_of (l : list (positive * ReviewRow.t)) (db : DB) :
  all_reviews_valid db →
  (∀ kr, kr ∈ l → is_Some (cafes db !! ReviewRow.cafe_id kr.2)) →
  for_each recompute_cafe_of l db
  = (Ok tt, recompute_all ((λ kr, ReviewRow.cafe_id kr.2) <$> l) db).
Proof.
  revert db. induction l as [|kr l IH]; intros db Hvalid Hcafe; [done|].
  cbn [for_each]. mstep. unfold recompute_cafe_of at 1. mstep.
  unfold Cafe_objects_get at 1. mstep. unfold get_db at 1.
  destruct (Hcafe kr) as [row Hrow]; [left|]. rewrite Hrow. mval.
  mstep.
  destruct (update_rating_stats_recomputed
              (Cafe.from_db (ReviewRow.cafe_id kr.2) row) db Hvalid)
    as (c' & -> & _); [by apply from_db_in_sync|].
  mval. cbn [Cafe.pk Cafe.from_db fmap list_fmap].
  rewrite IH.
  - done.
  - by apply all_reviews_valid_recomputed.
  - intros kr' Hin. apply is_Some_cafes_recomputed, Hcafe. by right.
Qed.

(** X17. [recalculate_ratings] on a database whose reviews are all on
    the 1-5 scale: the action returns the number of selected cafes; every
    selected cafe's row then holds the means over its active reviews
    rounded to two decimals and their count, with its location and
    [is_active] as before; no other cafe row, no review and no location
    has changed. Run over all cafes, it brings the ratings of every cafe
    up to date, whatever was stored before. *)
Theorem recalculate_ratings_effect (qs : queryset CafeRow.t) (db : DB) :
  all_reviews_valid db →
  ∃ db',
    recalculate_ratings qs db
    = (Ok (Z.of_nat (length (queryset_rows qs (cafes db)))), db')
    ∧ reviews db' = reviews db
    ∧ locations db' = locations db
    ∧ (∀ k row, cafes db !! k = Some row → qs k row = true →
                ∃ row', cafes db' !! k = Some row'
                        ∧ CafeRow.location_id row' = CafeRow.location_id row
                        ∧ CafeRow.is_active row' = CafeRow.is_active row
                        ∧ stores_rounded_means (active_reviews k db') row')
    ∧ (∀ k row, cafes db !! k = Some row → qs k row = false →
                cafes db' !! k = Some row)
    ∧ (∀ k, cafes db !! k = None → cafes db' !! k = None)
    ∧ ((∀ k row, cafes db !! k = Some row → qs k row = true) →
       ratings_up_to_date db').
Proof.
  intros Hvalid.
  set (l := queryset_rows qs (cafes db)).
  assert (Hrun : recalculate_ratings qs db
                 = (Ok (Z.of_nat (length l)), recompute_all l.*1 db)).
  { unfold recalculate_ratings. mstep. unfold get_db at 1. fold l.
    mstep. rewrite for_each_recalculate; [done..|].
    intros kr [Hk _]%elem_of_queryset_rows. by apply from_db_in_sync. }
  destruct (recompute_all_frame l.*1 db) as [Hr Hl].
  assert (Hlookup : ∀ k, cafes (recompute_all l.*1 db) !! k
                         = (λ row, if qs k row
                                   then recomputed_row (active_reviews k db) row
                                   else row) <$> cafes db !! k).
  { intros k. rewrite recompute_all_lookup.
    destruct (cafes db !! k) as [row|] eqn:Hk; [|by destruct (decide _)].
    cbn [fmap option_fmap option_map].
    destruct (decide (k ∈ l.*1)) as [Hin|Hnin].
    - apply list_elem_of_fmap in Hin as ([k' row'] & -> & Hin).
      apply elem_of_queryset_rows in Hin as [Hk' Hq]. cbn [fst snd] in *.
      assert (row' = row) as -> by congruence. by rewrite Hq.
    - destruct (qs k row) eqn:Hq; [|done]. destruct Hnin.
      apply list_elem_of_fmap. exists (k, row). split; [done|].
      by apply elem_of_queryset_rows. }
  exists (recompute_all l.*1 db). do 3 (split; [done|]).
  assert (Hsel : ∀ k row, cafes db !! k = Some row → qs k row = true →
                   ∃ row', cafes (recompute_all l.*1 db) !! k = Some row'
                           ∧ CafeRow.location_id row' = CafeRow.location_id row
                           ∧ CafeRow.is_active row' = CafeRow.is_active row
                           ∧ stores_rounded_means
                               (active_reviews k (recompute_all l.*1 db)) row').
  { intros k row Hk Hq. rewrite Hlookup, Hk. cbn. rewrite Hq.
    eexists. split; [reflexivity|]. do 2 (split; [done|]).
    rewrite (active_reviews_ext k db _ Hr). apply recomputed_row_rounded. }
  split; [exact Hsel|]. split; [|split].
  - intros k row Hk Hq. rewrite Hlookup, Hk. cbn. by rewrite Hq.
  - intros k Hk. by rewrite Hlookup, Hk.
  - intros Hall k row' Hk'. pose proof Hk' as Hk''.
    rewrite Hlookup in Hk''.
    destruct (cafes db !! k) as [row|] eqn:Hk; [|discriminate].
    destruct (Hsel k row Hk (Hall k row Hk)) as (row'' & Hrow'' & _ & _ & Hs).
    by assert (row'' = row') as -> by congruence.
Qed.

Lemma recalculate_ratings_effect_witness :
  ∃ db' row',
    recalculate_ratings every_row example_db = (Ok 1, db')
    ∧ cafes db' !! 7%positive = Some row'
    ∧ stores_rounded_means (active_reviews 7 db') row'
    ∧ ratings_up_to_date db'.
Proof.
  destruct (recalculate_ratings_effect every_row example_db
              all_valid_example_db)
    as (db' & Hrun & _ & _ & Hsel & _ & _ & Hall).
  destruct (Hsel 7%positive example_cafe_row eq_refl eq_refl)
    as (row' & Hrow' & _ & _ & Hs).
  exists db', row'. split; [exact Hrun|]. split; [exact Hrow'|].
  split; [exact Hs|]. by apply Hall.
Defined.

(** ** The active reviews of a cafe as a finite map *)

Lemma filter_snd_fmap {A B : Type} (P : B → Prop) `{!∀ x, Decision (P x)}
    (l : list (A * B)) :
  filter P l.*2 = (filter (λ kr, P kr.2) l).*2.
Proof.
  induction l as [|[a b] l IH]; [done|]. cbn [fmap list_fmap snd].
  destruct (decide (P b)).
  - rewrite !filter_cons_True by done. cbn. by rewrite <- IH.
  - by rewrite !filter_cons_False by done.
Qed.

Lemma map_to_list_filter_Permutation {A : Type} (P : positive * A → Prop)
    `{!∀ x, Decision (P x)} (m : gmap positive A) :
  filter P (map_to_list m) ≡ₚ map_to_list (filter P m).
Proof.
  apply NoDup_Permutation.
  - apply NoDup_filter, NoDup_map_to_list.
  - apply NoDup_map_to_list.
  - intros [k x]. rewrite list_elem_of_filter, !elem_of_map_to_list.
    rewrite map_lookup_filter_Some. tauto.
Qed.

Lemma active_reviews_map (k : positive) (db : DB) :
  active_reviews k db
  ≡ₚ (map_to_list (filter (λ kr, active_review k kr.2) (reviews db))).*2.
Proof.
  unfold active_reviews. rewrite filter_snd_fmap.
  by rewrite map_to_list_filter_Permutation.
Qed.

Lemma Count_active_reviews (k : positive) (db : DB) :
  Count (active_reviews k db)
  = Z.of_nat (size (filter (λ kr, active_review k kr.2) (reviews db))).
Proof.
  unfold Count. rewrite (Permutation_length (active_reviews_map k db)).
  by rewrite length_fmap, length_map_to_list.
Qed.

Lemma active_reviews_same_map (k : positive) (db db' : DB) :
  filter (λ kr, active_review k kr.2) (reviews db')
  = filter (λ kr, active_review k kr.2) (reviews db) →
  active_reviews k db' ≡ₚ active_reviews k db.
Proof. intros Hf. by rewrite !active_reviews_map, Hf. Qed.

(** ** [activate_reviews] and [deactivate_reviews] *)

Lemma bulk_updated_lookup (b : bool) (qs : queryset ReviewRow.t)
    (m : gmap positive ReviewRow.t) (k : positive) :
  map_imap (λ k r, Some (if qs k r then ReviewRow.set_is_active b r else r)) m
    !! k
  = bulk_updated b qs k <$> m !! k.
Proof. rewrite map_lookup_imap. by destruct (m !! k). Qed.

Lemma bulk_updated_cafe_id (b : bool) (qs : queryset ReviewRow.t)
    (k : positive) (r : ReviewRow.t) :
  ReviewRow.cafe_id (bulk_updated b qs k r) = ReviewRow.cafe_id r.
Proof. unfold bulk_updated. by destruct (qs k r). Qed.

Lemma bulk_updated_valid (b : bool) (qs : queryset ReviewRow.t)
    (k : positive) (r : ReviewRow.t) :
  valid_review r → valid_review (bulk_updated b qs k r).
Proof. unfold bulk_updated. by destruct (qs k r). Qed.

(** The UPDATE statement of the two actions. *)
Lemma queryset_update_is_active_run (qs : queryset ReviewRow.t) (b : bool)
    (db : DB) :
  ∃ dbu,
    queryset_update_is_active qs b db
    = (Ok (Z.of_nat (length (queryset_rows qs (reviews db)))), dbu)
    ∧ cafes dbu = cafes db ∧ locations dbu = locations db
    ∧ ∀ k, reviews dbu !! k = bulk_updated b qs k <$> reviews db !! k.
Proof.
  eexists. split; [reflexivity|]. split; [done|]. split; [done|].
  intros k. apply bulk_updated_lookup.
Qed.

(** The two actions on a database whose reviews are all on the 1-5 scale
    and all have their cafe: the UPDATE, then one recompute for each row
    the queryset yields after the UPDATE. *)
Lemma set_reviews_active_run (b : bool) (qs : queryset ReviewRow.t) (db : DB) :
  all_reviews_valid db → reviews_have_cafes db →
  ∃ dbu,
    cafes dbu = cafes db ∧ locations dbu = locations db
    ∧ (∀ k, reviews dbu !! k = bulk_updated b qs k <$> reviews db !! k)
    ∧ set_reviews_active b qs db
      = (Ok (Z.of_nat (length (queryset_rows qs (reviews db)))),
         recompute_all
           ((λ kr, ReviewRow.cafe_id kr.2) <$> queryset_rows qs (reviews dbu))
           dbu).
Proof.
  intros Hvalid Hfk.
  destruct (queryset_update_is_active_run qs b db)
    as (dbu & Hupd & Hc & Hl & Hr).
  exists dbu. do 3 (split; [done|]).
  unfold set_reviews_active. mstep. rewrite Hupd. mstep. unfold get_db at 1.
  mstep. rewrite for_each_recompute_cafe_of; [done|..].
  - intros k r'. rewrite Hr.
    destruct (reviews db !! k) as [r|] eqn:Hk; [|done].
    intros [= <-]. by eapply bulk_updated_valid, Hvalid.
  - intros [k r'] [Hk _]%elem_of_queryset_rows. cbn [fst snd] in *.
    rewrite Hr in Hk.
    destruct (reviews db !! k) as [r|] eqn:Hk0; [|done].
    injection Hk as <-. rewrite Hc, bulk_updated_cafe_id. by eapply Hfk.
Qed.

Lemma bulk_updated_selected (b : bool) (qs : queryset ReviewRow.t)
    (k : positive) (r : ReviewRow.t) :
  ignores_is_active qs → qs k (bulk_updated b qs k r) = qs k r.
Proof.
  intros Hqs. unfold bulk_updated. destruct (qs k r) eqn:Hq; [|done].
  by rewrite Hqs.
Qed.

(** X18. [activate_reviews] and [deactivate_reviews] with a queryset
    that selects rows without looking at [is_active], on a database whose
    reviews are all on the 1-5 scale and all have their cafe: the action
    returns the number of selected reviews; every selected review has the
    new [is_active] and no other review has changed; the row of every
    cafe with a selected review holds the rounded means and the count of
    its active reviews as they are now; every cafe keeps its location and
    [is_active], and no location has changed; ratings that were up to
    date for every cafe still are. *)
Theorem set_reviews_active_effect (b : bool) (qs : queryset ReviewRow.t)
    (db : DB) :
  all_reviews_valid db → reviews_have_cafes db → ignores_is_active qs →
  ∃ db',
    set_reviews_active b qs db
    = (Ok (Z.of_nat (length (queryset_rows qs (reviews db)))), db')
    ∧ (∀ k, reviews db' !! k = bulk_updated b qs k <$> reviews db !! k)
    ∧ locations db' = locations db
    ∧ (∀ k r row', reviews db !! k = Some r → qs k r = true →
                   cafes db' !! ReviewRow.cafe_id r = Some row' →
                   stores_rounded_means
                     (active_reviews (ReviewRow.cafe_id r) db') row')
    ∧ (∀ c row', cafes db' !! c = Some row' →
                 ∃ row, cafes db !! c = Some row
                        ∧ CafeRow.location_id row' = CafeRow.location_id row
                        ∧ CafeRow.is_active row' = CafeRow.is_active row)
    ∧ (ratings_up_to_date db → ratings_up_to_date db').
Proof.
  intros Hvalid Hfk Hqs.
  destruct (set_reviews_active_run b qs db Hvalid Hfk)
    as (dbu & Hc & Hl & Hr & Hrun).
  set (ks := (λ kr, ReviewRow.cafe_id kr.2) <$> queryset_rows qs (reviews dbu))
    in *.
  set (db' := recompute_all ks dbu) in *.
  destruct (recompute_all_frame ks dbu) as [Hr' Hl']. fold db' in Hr', Hl'.
  assert (Hks : ∀ c, c ∈ ks ↔ ∃ k r, reviews db !! k = Some r
                                     ∧ qs k r = true ∧ ReviewRow.cafe_id r = c).
  { intros c. subst ks. rewrite list_elem_of_fmap. split.
    - intros ([k r'] & -> & [Hk Hq]%elem_of_queryset_rows).
      cbn [fst snd] in *. rewrite Hr in Hk.
      destruct (reviews db !! k) as [r|] eqn:Hk0; [|done].
      injection Hk as <-. exists k, r.
      rewrite bulk_updated_selected in Hq by done.
      by rewrite bulk_updated_cafe_id.
    - intros (k & r & Hk & Hq & <-). exists (k, bulk_updated b qs k r).
      split; [cbn [snd]; by rewrite bulk_updated_cafe_id|].
      apply elem_of_queryset_rows. cbn [fst snd]. rewrite Hr, Hk.
      split; [done|]. by rewrite bulk_updated_selected. }
  assert (Hcafes : ∀ c, cafes db' !! c
                        = if decide (c ∈ ks)
                          then recomputed_row (active_reviews c db')
                                 <$> cafes db !! c
                          else cafes db !! c).
  { intros c. subst db'. rewrite recompute_all_lookup, Hc.
    by rewrite (active_reviews_ext c dbu _ Hr'). }
  exists db'. split; [exact Hrun|].
  split; [intros k; by rewrite Hr', Hr|]. split; [congruence|].
  split; [|split].
  - intros k r row' Hk Hq. rewrite Hcafes.
    rewrite decide_True by (apply Hks; by exists k, r).
    destruct (cafes db !! ReviewRow.cafe_id r) as [row|]; [|done].
    intros [= <-]. apply recomputed_row_rounded.
  - intros c row'. rewrite Hcafes.
    destruct (cafes db !! c) as [row|]; [|by destruct (decide _)].
    destruct (decide (c ∈ ks)); intros [= <-]; by exists row.
  - intros Hup c row'. rewrite Hcafes.
    destruct (decide (c ∈ ks)) as [Hin|Hnin].
    + destruct (cafes db !! c) as [row|]; [|done].
      intros [= <-]. apply recomputed_row_rounded.
    + intros Hrow.
      eapply stores_rounded_means_Permutation; [|by apply Hup].
      symmetry. apply active_reviews_same_map. rewrite Hr'.
      assert (Hno : ∀ i x, reviews db !! i = Some x →
                           ReviewRow.cafe_id x = c → qs i x = false).
      { intros i x Hi Hx. destruct (qs i x) eqn:Hq; [|done].
        destruct Hnin. apply Hks. by exists i, x. }
      apply map_eq. intros i. apply option_eq. intros x.
      rewrite !map_lookup_filter_Some, Hr. cbn [snd].
      destruct (reviews db !! i) as [r|] eqn:Hi; cbn;
        [|split; intros [[=] _]].
      split.
      * intros [[= <-] [Hcx Hax]]. rewrite bulk_updated_cafe_id in Hcx.
        unfold bulk_updated in Hax |- *. rewrite (Hno i r Hi Hcx) in Hax |- *.
        done.
      * intros [[= <-] [Hcx Hax]]. unfold bulk_updated.
        by rewrite (Hno i r Hi Hcx).
Qed.

Lemma reviews_have_cafes_example_db : reviews_have_cafes example_db.
Proof.
  intros k r. cbn [reviews example_db].
  rewrite !lookup_insert_Some, lookup_singleton_Some.
  intros [[_ <-]|[_ [[_ <-]|[_ [_ <-]]]]]; by eexists.
Qed.

Lemma set_reviews_active_effect_witness :
  ∃ db' row',
    deactivate_reviews (selected [13%positive]) example_db = (Ok 1, db')
    ∧ reviews db' !! 13%positive = Some (ReviewRow.set_is_active false review_2)
    ∧ cafes db' !! 7%positive = Some row'
    ∧ stores_rounded_means (active_reviews 7 db') row'
    ∧ CafeRow.rating_count row' = 2.
Proof.
  destruct (set_reviews_active_effect false (selected [13%positive]) example_db
              all_valid_example_db reviews_have_cafes_example_db)
    as (db' & Hrun & Hr & _ & Hsel & Hkeep & _); [done|].
  assert (Hrow : ∃ row', cafes db' !! 7%positive = Some row')
    by (vm_compute in Hrun; injection Hrun as <-; by eexists).
  destruct Hrow as [row' Hrow].
  pose proof (Hsel 13%positive review_2 row' eq_refl eq_refl Hrow) as Hs.
  exists db', row'. split; [exact Hrun|]. split; [exact (Hr 13%positive)|].
  split; [exact Hrow|]. split; [exact Hs|].
  destruct Hs as (_ & _ & _ & _ & _ & ->).
  vm_compute in Hrun. injection Hrun as <-. reflexivity.
Defined.

Lemma queryset_rows_nil {A : Type} (qs : queryset A) (m : gmap positive A) :
  (∀ k r, m !! k = Some r → qs k r = false) → queryset_rows qs m = [].
Proof.
  intros Hno. unfold queryset_rows. apply filter_none.
  intros [k r] Hin%elem_of_map_to_list. cbn. by rewrite (Hno k r Hin).
Qed.

Lemma Count_active_reviews_lt (c : positive) (db db' : DB) (k : positive) :
  (∀ i x, reviews db !! i = Some x → active_review c x →
          reviews db' !! i = Some x) →
  (∀ x, reviews db !! k = Some x → ¬ active_review c x) →
  (∃ x, reviews db' !! k = Some x ∧ active_review c x) →
  Count (active_reviews c db) < Count (active_reviews c db').
Proof.
  intros Hsub Hout (x & Hk & Hx). rewrite !Count_active_reviews.
  apply inj_lt, map_subset_size, map_subset_alt. split.
  - apply map_subseteq_spec. intros i y.
    rewrite !map_lookup_filter_Some. cbn [snd]. intros [Hi Hy].
    split; [by apply Hsub|done].
  - exists k. split.
    + apply map_lookup_filter_None. right. intros y Hy. by apply Hout.
    + exists x. by apply map_lookup_filter_Some.
Qed.

(** X19. [activate_reviews] and [deactivate_reviews] with a queryset
    that selects only rows whose [is_active] is the opposite of the new
    value (the change list is filtered on [is_active]): the UPDATE goes
    through and the action reports its count, but the queryset, evaluated
    again for the loop, is then empty, so no cafe is recomputed. The cafes
    table is as before although for every cafe with a selected review the
    number of active reviews has changed: ratings that were up to date
    are stale afterwards. *)
Theorem set_reviews_active_filtered (b : bool) (qs : queryset ReviewRow.t)
    (db : DB) :
  selects_only (negb b) qs →
  ∃ db',
    set_reviews_active b qs db
    = (Ok (Z.of_nat (length (queryset_rows qs (reviews db)))), db')
    ∧ (∀ k, reviews db' !! k = bulk_updated b qs k <$> reviews db !! k)
    ∧ cafes db' = cafes db
    ∧ locations db' = locations db
    ∧ (∀ k r, reviews db !! k = Some r → qs k r = true →
              Count (active_reviews (ReviewRow.cafe_id r) db')
              ≠ Count (active_reviews (ReviewRow.cafe_id r) db))
    ∧ (∀ k r, reviews db !! k = Some r → qs k r = true →
              is_Some (cafes db !! ReviewRow.cafe_id r) →
              ratings_up_to_date db → ¬ ratings_up_to_date db').
Proof.
  intros Hqs.
  destruct (queryset_update_is_active_run qs b db)
    as (dbu & Hupd & Hc & Hl & Hr).
  assert (Hnil : queryset_rows qs (reviews dbu) = []).
  { apply queryset_rows_nil. intros k r'. rewrite Hr.
    destruct (reviews db !! k) as [r|]; [|done]. intros [= <-].
    unfold bulk_updated. destruct (qs k r) eqn:Hq; [|done].
    destruct (qs k (ReviewRow.set_is_active b r)) eqn:Hq'; [|done].
    apply Hqs in Hq'. cbn in Hq'. by destruct b. }
  assert (Hcount : ∀ k r, reviews db !! k = Some r → qs k r = true →
                     Count (active_reviews (ReviewRow.cafe_id r) dbu)
                     ≠ Count (active_reviews (ReviewRow.cafe_id r) db)).
  { intros k r Hk Hq. pose proof (Hqs k r Hq) as Ha.
    assert (Hk' : reviews dbu !! k = Some (ReviewRow.set_is_active b r))
      by (rewrite Hr, Hk; unfold bulk_updated; cbn; by rewrite Hq).
    destruct b; cbn [negb] in Ha.
    - (* activation: an inactive review becomes active *)
      enough (Count (active_reviews (ReviewRow.cafe_id r) db)
              < Count (active_reviews (ReviewRow.cafe_id r) dbu)) by lia.
      apply (Count_active_reviews_lt _ db dbu k).
      + intros i x Hi [_ Hx]. rewrite Hr, Hi. cbn. unfold bulk_updated.
        destruct (qs i x) eqn:Hqi; [|done]. apply Hqs in Hqi. cbn in Hqi.
        congruence.
      + intros x. rewrite Hk. intros [= <-] [_ Hx]. congruence.
      + by eexists.
    - (* deactivation: an active review becomes inactive *)
      enough (Count (active_reviews (ReviewRow.cafe_id r) dbu)
              < Count (active_reviews (ReviewRow.cafe_id r) db)) by lia.
      apply (Count_active_reviews_lt _ dbu db k).
      + intros i x. rewrite Hr.
        destruct (reviews db !! i) as [y|]; [|done]. cbn. intros [= <-].
        unfold bulk_updated. destruct (qs i y); [|done]. by intros [_ Hx].
      + intros x. rewrite Hk'. by intros [= <-] [_ Hx].
      + by exists r. }
  exists dbu. split.
  { unfold set_reviews_active. mstep. rewrite Hupd. mstep. unfold get_db at 1.
    by rewrite Hnil. }
  do 4 (split; [done|]).
  intros k r Hk Hq [row Hrow] Hup Hup'.
  apply (Hcount k r Hk Hq). unfold Count.
  destruct (Hup _ _ Hrow) as (_ & _ & _ & _ & _ & Hn).
  rewrite <- Hc in Hrow.
  destruct (Hup' _ _ Hrow) as (_ & _ & _ & _ & _ & Hn').
  congruence.
Qed.

Lemma set_reviews_active_filtered_witness :
  ∃ db',
    deactivate_reviews active_rows one_review_db = (Ok 1, db')
    ∧ reviews db' !! 11%positive
      = Some (ReviewRow.set_is_active false review_5_5)
    ∧ cafes db' = cafes one_review_db
    ∧ ratings_up_to_date one_review_db
    ∧ ¬ ratings_up_to_date db'.
Proof.
  destruct (set_reviews_active_filtered false active_rows one_review_db)
    as (db' & Hrun & Hr & Hc & _ & _ & Hstale); [by intros k r|].
  exists db'. split; [exact Hrun|]. split; [exact (Hr 11%positive)|].
  split; [exact Hc|]. split; [exact ratings_up_to_date_example|].
  apply (Hstale 11%positive review_5_5 eq_refl eq_refl);
    [by eexists|exact ratings_up_to_date_example].
Defined.

(** ** Readers of the denormalised columns *)

Lemma active_cafes_at_pos (l : positive) (db : DB) :
  0 < active_cafes_at l db
  ↔ ∃ k c, cafes db !! k = Some c
           ∧ CafeRow.is_active c = true ∧ CafeRow.location_id c = l.
Proof.
  unfold active_cafes_at.
  assert (Hne : 0 < Z.of_nat (size (filter (counted_at l) (cafes db)))
                ↔ size (filter (counted_at l) (cafes db)) ≠ 0%nat) by lia.
  rewrite Hne, map_size_ne_0_lookup. split.
  - intros (k & c & [Hk [Ha Hl]]%map_lookup_filter_Some). by exists k, c.
  - intros (k & c & Hk & Ha & Hl). exists k, c.
    by apply map_lookup_filter_Some.
Qed.

(** X20. While each location's [cafe_count] equals the number of its
    active cafes, the [has_cafes] filter of the location list is truthful:
    with [has_cafes=true] it keeps exactly the locations that have at
    least one active cafe, and with [has_cafes=false] it keeps every
    location. *)
Theorem has_cafes_filter_is_truthful (db : DB) (l : positive)
    (row : LocationRow.t) :
  counts_consistent db →
  (filter_has_cafes (locations db) true !! l = Some row
   ↔ locations db !! l = Some row
     ∧ ∃ k c, cafes db !! k = Some c
              ∧ CafeRow.is_active c = true ∧ CafeRow.location_id c = l)
  ∧ filter_has_cafes (locations db) false = locations db.
Proof.
  intros Hcons. split; [|done].
  unfold filter_has_cafes. rewrite map_lookup_filter_Some. cbn [snd].
  rewrite <- active_cafes_at_pos.
  split; intros [Hl Hpos]; (split; [done|]).
  - by rewrite <- (Hcons l (LocationRow.cafe_count row))
      by (unfold cafe_count_of; by rewrite Hl).
  - by rewrite (Hcons l (LocationRow.cafe_count row))
      by (unfold cafe_count_of; by rewrite Hl).
Qed.

Lemma has_cafes_filter_is_truthful_witness :
  filter_has_cafes (locations active_cafe_db) true !! 1%positive
  = Some (LocationRow.mk 1)
  ∧ filter_has_cafes (locations active_cafe_db) true !! 2%positive = None.
Proof.
  assert (Hcons : counts_consistent active_cafe_db).
  { intros l n. unfold cafe_count_of. cbn [locations active_cafe_db].
    destruct (decide (l = 1%positive)) as [->|];
      [|destruct (decide (l = 2%positive)) as [->|]].
    - intros [= <-]. reflexivity.
    - intros [= <-]. reflexivity.
    - by rewrite lookup_insert_ne, lookup_singleton_ne. }
  split.
  - apply (has_cafes_filter_is_truthful active_cafe_db 1 (LocationRow.mk 1)
             Hcons).
    split; [reflexivity|]. by exists 7%positive, example_cafe_row.
  - destruct (filter_has_cafes (locations active_cafe_db) true !! 2%positive)
      as [row|] eqn:Hrow; [|done].
    apply (has_cafes_filter_is_truthful active_cafe_db 2 row Hcons) in Hrow
      as [_ (k & c & Hk & _ & Hl)].
    cbn [cafes active_cafe_db] in Hk.
    apply lookup_singleton_Some in Hk as [_ <-]. discriminate Hl.
Defined.

(** X21. While the ratings of every cafe are up to date, the queryset
    that [popular] draws from holds exactly the active cafes that have at
    least one active review. *)
Theorem popular_queryset_has_reviews (db : DB) (k : positive) (c : CafeRow.t) :
  ratings_up_to_date db →
  popular_queryset db !! k = Some c
  ↔ cafes db !! k = Some c
    ∧ CafeRow.is_active c = true
    ∧ ∃ pk r, reviews db !! pk = Some r ∧ active_review k r.
Proof.
  intros Hup. unfold popular_queryset.
  rewrite !map_lookup_filter_Some. cbn [snd].
  assert (Hcount : cafes db !! k = Some c →
                   1 ≤ CafeRow.rating_count c
                   ↔ ∃ pk r, reviews db !! pk = Some r ∧ active_review k r).
  { intros Hk. destruct (Hup k c Hk) as (_ & _ & _ & _ & _ & ->).
    change (Z.of_nat (length (active_reviews k db)))
      with (Count (active_reviews k db)).
    rewrite Count_active_reviews.
    assert (Hne : ∀ n : nat, 1 ≤ Z.of_nat n ↔ n ≠ 0%nat) by lia.
    rewrite Hne, map_size_ne_0_lookup. split.
    - intros (pk & r & [Hpk Hr]%map_lookup_filter_Some). by exists pk, r.
    - intros (pk & r & Hpk & Hr). exists pk, r.
      by apply map_lookup_filter_Some. }
  split.
  - intros [[Hk Ha] Hn]. split; [done|]. split; [done|]. by apply Hcount.
  - intros (Hk & Ha & Hrev). split; [done|]. by apply Hcount.
Qed.

Lemma popular_queryset_has_reviews_witness :
  popular_queryset one_review_db !! 7%positive
  = Some (CafeRow.mk 1 true 500 1 500 0 0 0)
  ∧ popular_queryset one_review_db_deleted !! 7%positive = None.
Proof.
  split.
  - apply (popular_queryset_has_reviews one_review_db 7
             (CafeRow.mk 1 true 500 1 500 0 0 0) ratings_up_to_date_example).
    split; [reflexivity|]. split; [reflexivity|].
    exists 11%positive, review_5_5. by split.
  - vm_compute. reflexivity.
Defined.

(** ** Deleting a cafe *)

Lemma Cafe_delete_frame (self : Cafe.t) (db db' : DB) :
  Cafe_delete self db = (Ok tt, db') →
  cafes db' = delete (Cafe.pk self) (cafes db)
  ∧ reviews db'
    = filter (λ kr, ReviewRow.cafe_id kr.2 ≠ Cafe.pk self) (reviews db).
Proof.
  unfold Cafe_delete, atomic, cafe_post_delete. munfold.
  set (dbd := mkDB _ _ _).
  destruct (Cafe.is_active self); [|by intros [= <-]].
  pose proof (update_location_cafe_count_frame (Cafe.location_id self) (-1) dbd)
    as [Hc Hr].
  destruct (update_location_cafe_count _ _ dbd) as [[[]|e] db2];
    [|discriminate].
  cbn [snd] in Hc, Hr. intros [= <-]. by rewrite Hc, Hr.
Qed.

(** X22. A cafe deletion that goes through removes the cafe's row and,
    with it, every review of the cafe (the cascade of the foreign key),
    and leaves all other cafe rows and review rows as they were. What held
    of the remaining rows still holds: every review is on the 1-5 scale
    and has its cafe, there is at most one review per (user, cafe) pair,
    and ratings that were up to date for every cafe still are. *)
Theorem Cafe_delete_cascades (self : Cafe.t) (db db' : DB) :
  Cafe_delete self db = (Ok tt, db') →
  cafes db' = delete (Cafe.pk self) (cafes db)
  ∧ (∀ k r, reviews db' !! k = Some r
            ↔ reviews db !! k = Some r ∧ ReviewRow.cafe_id r ≠ Cafe.pk self)
  ∧ (reviews_have_cafes db → reviews_have_cafes db')
  ∧ (all_reviews_valid db → all_reviews_valid db')
  ∧ (unique_pairs db → unique_pairs db')
  ∧ (ratings_up_to_date db → ratings_up_to_date db').
Proof.
  intros Hrun. destruct (Cafe_delete_frame self db db' Hrun) as [Hc Hr].
  assert (Hlookup : ∀ k r, reviews db' !! k = Some r
                           ↔ reviews db !! k = Some r
                             ∧ ReviewRow.cafe_id r ≠ Cafe.pk self).
  { intros k r. rewrite Hr. apply map_lookup_filter_Some. }
  split; [done|]. split; [done|]. split; [|split; [|split]].
  - intros Hfk k r [Hk Hne]%Hlookup. rewrite Hc.
    destruct (Hfk k r Hk) as [row Hrow]. exists row.
    by rewrite lookup_delete_ne.
  - intros Hvalid k r [Hk _]%Hlookup. by eapply Hvalid.
  - intros Huniq k1 k2 r1 r2 [H1 _]%Hlookup [H2 _]%Hlookup.
    by apply Huniq.
  - intros Hup k row. rewrite Hc. intros [Hne Hk]%lookup_delete_Some.
    eapply stores_rounded_means_Permutation; [|by apply Hup].
    symmetry. apply active_reviews_same_map. rewrite Hr.
    apply map_eq. intros i. apply option_eq. intros x.
    rewrite !map_lookup_filter_Some. cbn [snd].
    split; [by intros [[Hi _] Hx]|]. intros [Hi [Hcx Hax]].
    split; [|done]. split; [done|]. congruence.
Qed.

Lemma Cafe_delete_cascades_witness :
  ∃ db',
    Cafe_delete example_cafe example_db = (Ok tt, db')
    ∧ cafes db' = ∅ ∧ reviews db' = ∅.
Proof.
  assert (∃ db', Cafe_delete example_cafe example_db = (Ok tt, db'))
    as (db' & Hrun) by (eexists; vm_compute; reflexivity).
  destruct (Cafe_delete_cascades example_cafe example_db db' Hrun)
    as (Hc & Hr & _).
  exists db'. split; [exact Hrun|]. split; [exact Hc|].
  apply map_empty. intros k.
  destruct (reviews db' !! k) as [r|] eqn:Hk; [|done].
  apply Hr in Hk as [Hk Hne]. cbn [reviews example_db] in Hk.
  rewrite !lookup_insert_Some, lookup_singleton_Some in Hk.
  by destruct Hk as [[_ <-]|[_ [[_ <-]|[_ [_ <-]]]]].
Defined.

(** ** Reviews of a cafe that is not active *)

(** X23. When the cafe behind the slug is missing or not active, its
    reviews cannot be listed and no logged-in user, admin or not, can
    create, edit or delete one: every such request is answered with
    Http404 and writes nothing. *)
Theorem inactive_cafe_locks_reviews (cafe_slug : positive) (db : DB) :
  ¬ active_cafe cafe_slug db →
  CafeReviewViewSet_get_queryset cafe_slug db = (Raise Http404, db)
  ∧ ∀ (u : User.t),
      (∀ id data,
         CafeReviewViewSet_create id (Some u) cafe_slug data db
         = (Raise Http404, db))
      ∧ (∀ partial pk data,
           CafeReviewViewSet_update partial (Some u) cafe_slug pk data db
           = (Raise Http404, db))
      ∧ (∀ pk,
           CafeReviewViewSet_destroy (Some u) cafe_slug pk db
           = (Raise Http404, db)).
Proof.
  intros Hno.
  assert (Hget : get_cafe cafe_slug db = (Raise Http404, db)).
  { destruct (get_cafe_cases cafe_slug db) as [[_ ->]|(row & Hrow & Ha & _)];
      [done|]. destruct Hno. by exists row. }
  split; [|intros u; split; [|split]].
  - unfold CafeReviewViewSet_get_queryset. mstep. by rewrite Hget.
  - intros id data. unfold CafeReviewViewSet_create, check_authenticated.
    mstep. mval. mstep. by rewrite Hget.
  - intros partial pk data.
    unfold CafeReviewViewSet_update, check_authenticated, get_object.
    mstep. mval. mstep. mstep. by rewrite Hget.
  - intros pk.
    unfold CafeReviewViewSet_destroy, check_authenticated, get_object.
    mstep. mval. mstep. mstep. by rewrite Hget.
Qed.

Lemma inactive_cafe_locks_reviews_witness :
  CafeReviewViewSet_get_queryset 7 inactive_cafe_db
  = (Raise Http404, inactive_cafe_db)
  ∧ CafeReviewViewSet_create 11 (Some example_user) 7 example_data
      inactive_cafe_db
    = (Raise Http404, inactive_cafe_db).
Proof.
  destruct (inactive_cafe_locks_reviews 7 inactive_cafe_db) as [Hlist Hu].
  - intros (row & Hrow & Ha). cbn [cafes inactive_cafe_db] in Hrow.
    rewrite lookup_insert_eq in Hrow. injection Hrow as <-. discriminate Ha.
  - split; [exact Hlist|]. apply (Hu example_user).
Defined.

(** ** A create request and what follows *)

(** X24. After a create request that went through, the new review is in
    the cafe's list and in its author's list of own reviews, which are
    otherwise as before. *)
Theorem created_review_is_listed (id : positive) (user : option User.t)
    (cafe_slug : positive) (data : ReviewData.t) (db db1 : DB)
    (review : Review.t) :
  all_reviews_valid db →
  CafeReviewViewSet_create id user cafe_slug data db = (Ok review, db1) →
  ∃ listed own,
    CafeReviewViewSet_get_queryset cafe_slug db = (Ok listed, db)
    ∧ listed !! id = None
    ∧ CafeReviewViewSet_get_queryset cafe_slug db1
      = (Ok (<[id := Review.fields review]> listed), db1)
    ∧ UserReviewViewSet_get_queryset user db = (Ok own, db)
    ∧ own !! id = None
    ∧ UserReviewViewSet_get_queryset user db1
      = (Ok (<[id := Review.fields review]> own), db1).
Proof.
  intros Hvalid Hrun.
  destruct (create_cases _ _ _ _ _ _ _ Hvalid Hrun)
    as [(e & [=] & _)|(u & new & c' & -> & Hcafe & _ & Hex & Hid
                       & Hreq & Hnew & Hlen & [= ->] & ->)].
  destruct Hreq as (Hc & Hu & _ & _ & _ & _ & _ & _ & Ha).
  set (dbr := set_reviews (<[id := new]> (reviews db)) db).
  exists (filter (λ kr, active_review cafe_slug kr.2) (reviews db)),
    (filter (own_active_review (User.id u)) (reviews db)).
  cbn [Review.fields].
  split; [by apply get_queryset_run|].
  split; [apply map_lookup_filter_None; left; exact Hid|].
  split; [|split; [done|split]].
  - rewrite get_queryset_run by by apply active_cafe_recomputed.
    rewrite (proj1 (recomputed_frame cafe_slug dbr)).
    subst dbr. cbn [reviews set_reviews].
    by rewrite map_filter_insert_True.
  - apply map_lookup_filter_None. left. exact Hid.
  - unfold UserReviewViewSet_get_queryset, check_authenticated. munfold.
    rewrite (proj1 (recomputed_frame cafe_slug dbr)).
    subst dbr. cbn [reviews set_reviews].
    by rewrite map_filter_insert_True.
Qed.

Lemma created_review_is_listed_witness :
  ∃ review db1,
    CafeReviewViewSet_create 12 (Some (User.mk 2 false)) 7 example_data
      one_review_db = (Ok review, db1)
    ∧ CafeReviewViewSet_get_queryset 7 db1
      = (Ok (<[12%positive := Review.fields review]>
               {[ 11%positive := review_5_5 ]}), db1)
    ∧ UserReviewViewSet_get_queryset (Some (User.mk 2 false)) db1
      = (Ok {[ 12%positive := Review.fields review ]}, db1).
Proof.
  assert (∃ review db1,
            CafeReviewViewSet_create 12 (Some (User.mk 2 false)) 7 example_data
              one_review_db = (Ok review, db1)) as (review & db1 & Hrun)
    by (eexists _, _; vm_compute; reflexivity).
  destruct (created_review_is_listed _ _ _ _ _ _ _ all_reviews_valid_example
              Hrun) as (listed & own & Hl & _ & Hl1 & Ho & _ & Ho1).
  assert (Hlisted : listed = {[ 11%positive := review_5_5 ]}).
  { assert (Hq : CafeReviewViewSet_get_queryset 7 one_review_db
                 = (Ok {[ 11%positive := review_5_5 ]}, one_review_db))
      by (vm_compute; reflexivity).
    congruence. }
  assert (Hown : own = ∅).
  { assert (Hq : UserReviewViewSet_get_queryset (Some (User.mk 2 false))
                   one_review_db = (Ok ∅, one_review_db))
      by (vm_compute; reflexivity).
    congruence. }
  subst listed own. exists review, db1. by repeat split.
Defined.

(** X25. A review created and then deleted through the API leaves the
    ratings as if it had never been there: the cafe has the active reviews
    it had, and its row, with location and [is_active] unchanged, holds
    their means rounded to two decimals and their count; no other cafe row
    and no location has changed. The review's row remains, inactive. *)
Theorem create_then_destroy_round_trip (id : positive)
    (user user' : option User.t) (cafe_slug : positive) (data : ReviewData.t)
    (db db1 db2 : DB) (review : Review.t) :
  all_reviews_valid db →
  CafeReviewViewSet_create id user cafe_slug data db = (Ok review, db1) →
  CafeReviewViewSet_destroy user' cafe_slug id db1 = (Ok tt, db2) →
  active_reviews cafe_slug db2 ≡ₚ active_reviews cafe_slug db
  ∧ (∃ row row2,
       cafes db !! cafe_slug = Some row
       ∧ cafes db2 = <[cafe_slug := row2]> (cafes db)
       ∧ CafeRow.location_id row2 = CafeRow.location_id row
       ∧ CafeRow.is_active row2 = CafeRow.is_active row
       ∧ stores_rounded_means (active_reviews cafe_slug db) row2
       ∧ CafeRow.rating_count row2 = Count (active_reviews cafe_slug db))
  ∧ locations db2 = locations db
  ∧ reviews db2
    = <[id := ReviewRow.set_is_active false (Review.fields review)]>
        (reviews db).
Proof.
  intros Hvalid Hrun1 Hrun2.
  destruct (create_cases _ _ _ _ _ _ _ Hvalid Hrun1)
    as [(e & [=] & _)|(u & new & c' & -> & (row & Hrow & Harow) & _ & Hex & Hid
                       & Hreq & Hnew & Hlen & [= ->] & ->)].
  set (dbr := set_reviews (<[id := new]> (reviews db)) db) in *.
  assert (Hvalid1 : all_reviews_valid (recomputed cafe_slug dbr))
    by by apply all_reviews_valid_recomputed, all_reviews_valid_insert.
  destruct (destroy_cases _ _ _ _ _ _ Hvalid1 Hrun2)
    as [(_ & [[[=] _]|[[[=] _]|[[=] _]]])
       |(u' & r0 & -> & _ & Hpk & Hact & _ & _ & ->)].
  rewrite (proj1 (recomputed_frame cafe_slug dbr)) in Hpk |- *.
  subst dbr. cbn [reviews set_reviews] in Hpk |- *.
  rewrite lookup_insert_eq in Hpk. injection Hpk as <-.
  rewrite insert_insert_eq. cbn [Review.fields].
  set (new' := ReviewRow.set_is_active false new).
  set (dbr := set_reviews (<[id := new]> (reviews db)) db).
  set (db1 := recomputed cafe_slug dbr).
  set (dbr2 := set_reviews (<[id := new']> (reviews db)) db1).
  assert (Hperm : active_reviews cafe_slug dbr2 ≡ₚ active_reviews cafe_slug db).
  { change (active_reviews cafe_slug dbr2)
      with (active_reviews cafe_slug
              (set_reviews (<[id := new']> (reviews db)) db)).
    rewrite (active_reviews_insert_fresh cafe_slug id new' db Hid).
    rewrite active_review_filter_one.
    by rewrite decide_False by (intros [_ Hf]; discriminate Hf). }
  assert (Hrow1 : cafes dbr2 !! cafe_slug
                  = Some (recomputed_row (active_reviews cafe_slug dbr) row)).
  { change (cafes dbr2) with (cafes db1). subst db1.
    rewrite recomputed_lookup, decide_True by done.
    change (cafes dbr) with (cafes db). by rewrite Hrow. }
  split; [|split; [|split]].
  - by rewrite (active_reviews_ext cafe_slug dbr2 _
                  (proj1 (recomputed_frame cafe_slug dbr2))).
  - exists row, (recomputed_row (active_reviews cafe_slug dbr2) row).
    split; [done|]. split.
    { rewrite (recomputed_eq cafe_slug dbr2 _ Hrow1). cbn [cafes set_cafes].
      change (cafes dbr2) with (cafes db1). subst db1.
      rewrite (recomputed_eq cafe_slug dbr row Hrow). cbn [cafes set_cafes].
      by rewrite insert_insert_eq. }
    do 2 (split; [done|]). split.
    + eapply stores_rounded_means_Permutation; [exact Hperm|].
      apply recomputed_row_rounded.
    + cbn [CafeRow.rating_count recomputed_row]. unfold Count.
      by rewrite (Permutation_length Hperm).
  - rewrite (proj2 (recomputed_frame cafe_slug dbr2)).
    change (locations dbr2) with (locations db1). subst db1.
    by rewrite (proj2 (recomputed_frame cafe_slug dbr)).
  - by rewrite (proj1 (recomputed_frame cafe_slug dbr2)).
Qed.

Lemma create_then_destroy_round_trip_witness :
  ∃ review db1 db2 row2,
    CafeReviewViewSet_create 12 (Some (User.mk 2 false)) 7 example_data
      one_review_db = (Ok review, db1)
    ∧ CafeReviewViewSet_destroy (Some (User.mk 2 false)) 7 12 db1 = (Ok tt, db2)
    ∧ cafes db2 = <[7%positive := row2]> (cafes one_review_db)
    ∧ stores_rounded_means (active_reviews 7 one_review_db) row2
    ∧ locations db2 = locations one_review_db.
Proof.
  assert (∃ review db1,
            CafeReviewViewSet_create 12 (Some (User.mk 2 false)) 7 example_data
              one_review_db = (Ok review, db1)) as (review & db1 & Hrun1)
    by (eexists _, _; vm_compute; reflexivity).
  assert (∃ db2, CafeReviewViewSet_destroy (Some (User.mk 2 false)) 7 12 db1
                 = (Ok tt, db2)) as (db2 & Hrun2).
  { pose proof Hrun1 as Hrun. vm_compute in Hrun. injection Hrun as _ <-.
    eexists. vm_compute. reflexivity. }
  destruct (create_then_destroy_round_trip _ _ _ _ _ _ _ _ _
              all_reviews_valid_example Hrun1 Hrun2)
    as (_ & (row & row2 & _ & Hc & _ & _ & Hs & _) & Hl & _).
  by exists review, db1, db2, row2.
Defined.
